(** * ESP-PLC bridge: protocol codec, polling engine and script automation

    A shallow embedding of the Modbus RTU codec and the poll loop of the
    ESP-32 bridge ([PLCWebConnect/ESP32_Files/main.py]), of the Raspberry Pi
    communicator ([PLCWebConnect/RaspberryPi/plc_communication.py]) and of
    the script engines ([PLCWebConnect/RaspberryPi/custom_scripts.py],
    [ESP FilesBU/custom_scripts.py]), with the properties the specification
    states about them.

    Conventions.  Python integers are [Z] and floats are rationals; a byte
    string is a [list Z] whose elements lie in [0, 256); a Python dict is a
    [gmap], or a list of bindings where its iteration order is observed;
    [None] and a caught exception of a [try ... except: return None] body
    are [None : option _].  What the serial line, the pymodbus client, the
    clock and the random generator answer is an argument of the function
    that asks. *)

From Stdlib Require Import ZArith List Lia Bool String Ascii QArith Qround.
From stdpp Require Import base option list gmap strings pretty.

Local Open Scope Z_scope.

(** ** Python helpers *)

(** [0 <= b < 256], the range of a [bytes] / [bytearray] element. *)
Definition is_byte (b : Z) : bool := (0 <=? b) && (b <? 256).

(** [bool(n)] for an integer. *)
Definition truthy_int (n : Z) : bool := negb (n =? 0).

(** [if xs:] for a value that is [None] or a list. *)
Definition truthy {A} (r : option (list A)) : bool :=
  match r with
  | Some (_ :: _) => true
  | _ => false
  end.

(** [range(0, n, 2)]. *)
Definition range_step2 (n : Z) : list Z :=
  map (fun k => 2 * Z.of_nat k) (seq 0 (Z.to_nat ((n + 1) / 2))).

(** [f'{i:03d}']: decimal, left-padded with zeros to width three. *)
Definition fmt03d (i : nat) : string :=
  let s := pretty i in
  String.concat "" (repeat "0"%string (3 - String.length s)) +:+ s.

(** [bytearray(l)]: [ValueError] unless every element is a byte. *)
Definition bytearray (l : list Z) : option (list Z) :=
  if forallb is_byte l then Some l else None.

(** [n.to_bytes(2, 'big')]: [OverflowError] outside [0, 65536). *)
Definition to_bytes2_big (n : Z) : option (list Z) :=
  if (0 <=? n) && (n <? 65536) then Some [Z.shiftr n 8; Z.land n 255] else None.

(** [n.to_bytes(2, 'little')]. *)
Definition to_bytes2_little (n : Z) : option (list Z) :=
  if (0 <=? n) && (n <? 65536) then Some [Z.land n 255; Z.shiftr n 8] else None.

(** ** The Modbus RTU codec ([class ModbusRTU]) *)

Module ModbusRTU.

(** The serial line as the codec sees it: the bytes [uart.read()] returns
    after [uart.write(request)]; [None] when nothing arrived in time. *)
Definition uart := list Z -> option (list Z).

(** One pass of the inner loop of [crc16]. *)
Definition crc_shift (crc : Z) : Z :=
  if truthy_int (Z.land crc 1)
  then Z.lxor (Z.shiftr crc 1) 0xA001
  else Z.shiftr crc 1.

(** The body of the outer loop: [crc ^= byte], then eight passes. *)
Definition crc_update (crc byte : Z) : Z :=
  fold_left (fun c (_ : nat) => crc_shift c) (seq 0 8) (Z.lxor crc byte).

Definition crc16 (data : list Z) : Z :=
  fold_left crc_update data 0xFFFF.

Definition build_request (slave_id function_code start_addr count : Z)
  : option (list Z) :=
  request ← bytearray [slave_id; function_code];
  addr ← to_bytes2_big start_addr;
  cnt ← to_bytes2_big count;
  let request := request ++ addr ++ cnt in
  crc ← to_bytes2_little (crc16 request);
  Some (request ++ crc).

(** The nested loop of [read_coils] / [read_discrete_inputs]:
    eight bits per data byte, appended while [len(bits) < count]. *)
Definition unpack_bits (count : Z) (data_bytes : list Z) : list bool :=
  fold_left
    (fun bits byte_val =>
       fold_left
         (fun bits (i : nat) =>
            if Z.of_nat (length bits) <? count
            then bits ++ [truthy_int (Z.land byte_val (Z.shiftl 1 (Z.of_nat i)))]
            else bits)
         (seq 0 8) bits)
    data_bytes [].

(** What [read_coils] (function code 1) and [read_discrete_inputs]
    (function code 2) do with the bytes read back; the two methods differ
    in the function code only. *)
Definition decode_bits (function_code slave_id count : Z)
    (response : option (list Z)) : option (list bool) :=
  match response with
  | Some response =>
      if negb (length response =? 0)%nat && (5 <=? Z.of_nat (length response))
      then
        r0 ← response !! 0%nat;
        r1 ← response !! 1%nat;
        if (r0 =? slave_id) && (r1 =? function_code)
        then
          byte_count ← response !! 2%nat;
          let data_bytes := take (Z.to_nat byte_count) (drop 3 response) in
          let bits := unpack_bits count data_bytes in
          Some (take (Z.to_nat count) bits)
        else None
      else None
  | None => None
  end.

(** What [read_holding_registers] does with the bytes read back. *)
Definition decode_registers (slave_id : Z) (response : option (list Z))
  : option (list Z) :=
  match response with
  | Some response =>
      if negb (length response =? 0)%nat && (5 <=? Z.of_nat (length response))
      then
        r0 ← response !! 0%nat;
        r1 ← response !! 1%nat;
        if (r0 =? slave_id) && (r1 =? 0x03)
        then
          byte_count ← response !! 2%nat;
          if 3 + byte_count + 2 <=? Z.of_nat (length response)
          then
            mapM (fun i =>
                    hi ← response !! Z.to_nat (3 + i);
                    lo ← response !! Z.to_nat (3 + i + 1);
                    Some (Z.lor (Z.shiftl hi 8) lo))
                 (range_step2 byte_count)
          else None
        else None
      else None
  | None => None
  end.

Definition read_coils (u : uart) (slave_id start_addr count : Z)
  : option (list bool) :=
  request ← build_request slave_id 0x01 start_addr count;
  decode_bits 0x01 slave_id count (u request).

Definition read_discrete_inputs (u : uart) (slave_id start_addr count : Z)
  : option (list bool) :=
  request ← build_request slave_id 0x02 start_addr count;
  decode_bits 0x02 slave_id count (u request).

Definition read_holding_registers (u : uart) (slave_id start_addr count : Z)
  : option (list Z) :=
  request ← build_request slave_id 0x03 start_addr count;
  decode_registers slave_id (u request).

End ModbusRTU.

(** ** The ESP-32 bridge ([class ESP32PLCBridge]) *)

(** [d = {}; for k, v in kvs: d[k] = v] -- a later binding of a key wins. *)
Definition dict_of `{Countable K} {V} (kvs : list (K * V)) : gmap K V :=
  fold_left (fun d kv => <[kv.1 := kv.2]> d) kvs ∅.

Module ESP32PLCBridge.

(** [config.py] *)
Definition DEVICE_ADDRESS : Z := 1.

Section Bridge.

(** What [script_engine.execute_enabled_scripts] returns; the poll stores
    it and never looks inside. *)
Context {script_results : Type}.

(** [self.plc_data].  [data_registers] is keyed both by ['DS001'] strings
    and by plain integers; [script_results] is absent until first stored. *)
Record plc_data := {
  connected : bool;
  last_update : Z;
  communication_errors : Z;
  digital_inputs : gmap Z bool;
  digital_outputs : gmap Z bool;
  input_status : gmap string bool;
  coil_status : gmap string bool;
  data_registers : gmap (string + Z) Z;
  stored_script_results : option script_results;
}.

Definition set_inputs (st : gmap string bool) (di : gmap Z bool) (d : plc_data) :=
  {| connected := true; last_update := last_update d;
     communication_errors := communication_errors d;
     digital_inputs := di; digital_outputs := digital_outputs d;
     input_status := st; coil_status := coil_status d;
     data_registers := data_registers d;
     stored_script_results := stored_script_results d |}.

Definition set_coils (st : gmap string bool) (do : gmap Z bool) (d : plc_data) :=
  {| connected := connected d; last_update := last_update d;
     communication_errors := communication_errors d;
     digital_inputs := digital_inputs d; digital_outputs := do;
     input_status := input_status d; coil_status := st;
     data_registers := data_registers d;
     stored_script_results := stored_script_results d |}.

Definition set_data_registers (r : gmap (string + Z) Z) (d : plc_data) :=
  {| connected := connected d; last_update := last_update d;
     communication_errors := communication_errors d;
     digital_inputs := digital_inputs d; digital_outputs := digital_outputs d;
     input_status := input_status d; coil_status := coil_status d;
     data_registers := r;
     stored_script_results := stored_script_results d |}.

Definition set_last_update (t : Z) (d : plc_data) :=
  {| connected := connected d; last_update := t;
     communication_errors := communication_errors d;
     digital_inputs := digital_inputs d; digital_outputs := digital_outputs d;
     input_status := input_status d; coil_status := coil_status d;
     data_registers := data_registers d;
     stored_script_results := stored_script_results d |}.

Definition set_script_results (r : script_results) (d : plc_data) :=
  {| connected := connected d; last_update := last_update d;
     communication_errors := communication_errors d;
     digital_inputs := digital_inputs d; digital_outputs := digital_outputs d;
     input_status := input_status d; coil_status := coil_status d;
     data_registers := data_registers d;
     stored_script_results := Some r |}.

Definition incr_communication_errors (d : plc_data) :=
  {| connected := connected d; last_update := last_update d;
     communication_errors := communication_errors d + 1;
     digital_inputs := digital_inputs d; digital_outputs := digital_outputs d;
     input_status := input_status d; coil_status := coil_status d;
     data_registers := data_registers d;
     stored_script_results := stored_script_results d |}.

(** [{f'X{i:03d}': xs[i] for i in range(len(xs))}] *)
Definition status_dict {V} (prefix : string) (xs : list V) : gmap string V :=
  dict_of (imap (fun i x => (prefix +:+ fmt03d i, x)) xs).

(** [{i+1: xs[i] for i in range(len(xs))}] *)
Definition numbered_dict {V} (xs : list V) : gmap Z V :=
  dict_of (imap (fun i x => (Z.of_nat i + 1, x)) xs).

(** The ['DS001'] comprehension followed by the [enumerate] loop that adds
    the integer keys to the same dict. *)
Definition registers_dict (registers : list Z) : gmap (string + Z) Z :=
  fold_left (fun d iv => <[inr (Z.of_nat iv.1 + 1) := iv.2]> d)
    (imap (fun i v => (i, v)) registers)
    (dict_of (imap (fun i v => (inl ("DS" +:+ fmt03d (i + 1)), v)) registers)).

(** [poll_plc_data].  [modbus] is [None] when the UART failed to open;
    [script_engine] is [None] when no engine was created, and an engine
    answers [None] when it raises; the scripts read the status dict they
    are handed and do not store into it.  [now] is [time.time()].  Every
    read catches its own exceptions and the call of the engine is guarded
    by its own handler, so the outer handler is never entered. *)
Definition poll_plc_data
    (modbus : option ModbusRTU.uart)
    (script_engine : option (plc_data -> option script_results))
    (now : Z) (self : plc_data) : plc_data * bool :=
  match modbus with
  | None => (self, false)
  | Some u =>
      let inputs := ModbusRTU.read_discrete_inputs u DEVICE_ADDRESS 0 16 in
      let self :=
        if truthy inputs
        then set_inputs (status_dict "X" (default [] inputs))
                        (numbered_dict (default [] inputs)) self
        else self in
      let coils := ModbusRTU.read_coils u DEVICE_ADDRESS 0 16 in
      let self :=
        if truthy coils
        then set_coils (status_dict "Y" (default [] coils))
                       (numbered_dict (default [] coils)) self
        else self in
      let registers := ModbusRTU.read_holding_registers u DEVICE_ADDRESS 0 10 in
      let self :=
        if truthy registers
        then set_data_registers (registers_dict (default [] registers)) self
        else self in
      let self := set_last_update now self in
      let self :=
        match script_engine with
        | Some engine =>
            if truthy inputs
            then match engine self with
                 | Some r => set_script_results r self
                 | None => self
                 end
            else self
        | None => self
        end in
      if truthy inputs || truthy coils || truthy registers
      then (self, true)
      else (incr_communication_errors self, false)
  end.

End Bridge.

Arguments plc_data : clear implicits.

End ESP32PLCBridge.

(** ** Python values, clocks and rounding *)

(** The scalar values that are stored in the status dicts and in script
    results.  A Python float is modelled by a rational. *)
Inductive pyval :=
| VNone
| VBool (b : bool)
| VInt (n : Z)
| VFloat (q : Q)
| VStr (s : string).

(** [if obj:] for a value that is [None] or an object. *)
Definition present {A} (o : option A) : bool :=
  match o with
  | Some _ => true
  | None => false
  end.

(** [a < b] on floats. *)
Definition Qltb (a b : Q) : bool := negb (Qle_bool b a).

(** [round(x, 1)] of a rational: to one decimal, ties to the even
    neighbour.  The times are taken as rationals; a binary float next to
    a decimal tie (0.35) is none and goes to its nearer neighbour, so the
    last digit of [data_age_seconds] can differ there.  No property
    below depends on it. *)
Definition round1 (x : Q) : Q :=
  let y := Qmult x (inject_Z 10) in
  let f := Qfloor y in
  let twice_frac := Qminus (Qmult (inject_Z 2) y) (inject_Z (2 * f)) in
  let n :=
    if Qltb twice_frac (inject_Z 1) then f
    else if Qltb (inject_Z 1) twice_frac then f + 1
    else if Z.even f then f else f + 1 in
  Qred (Qmake n 10).

(** [s.lower()] on ASCII letters. *)
Definition lower_ascii (c : ascii) : ascii :=
  let n := nat_of_ascii c in
  if ((65 <=? n) && (n <=? 90))%nat then ascii_of_nat (n + 32) else c.

Fixpoint lower (s : string) : string :=
  match s with
  | EmptyString => EmptyString
  | String c rest => String (lower_ascii c) (lower rest)
  end.

(** ** The Raspberry Pi communicator ([class PLCCommunicator]) *)

Module PLCCommunicator.

(** [config.py], the settings the communicator reads. *)
Record config := {
  SIMULATION_MODE : bool;
  CONNECTION_TYPE : string;
  MODBUS_METHOD : string;
  BAUD_RATE : Z;
  DEVICE_ADDRESS : Z;
  POLL_INTERVAL : Q;
}.

(** Dict objects live in a store and are named by their address: the
    nested dicts of [plc_status] are shared between the live status and
    every shallow copy of it. *)
Definition loc := positive.

(** The top-level dict [self.plc_status]; its four nested dicts are held
    by reference.  [data_age_seconds] and [data_fresh] are absent until
    [get_status] first adds them. *)
Record plc_status := {
  st_connected : bool;
  st_last_update : option string;
  st_communication_errors : Z;
  st_data_registers : loc;
  st_coil_status : loc;
  st_input_status : loc;
  st_system_info : loc;
  st_data_age_seconds : option Q;
  st_data_fresh : option bool;
}.

(** The pymodbus client object; only its presence is observed. *)
Inductive client_obj := ModbusSerialClient.

Record communicator := {
  MODBUS_AVAILABLE : bool;        (* module flag, fixed at import *)
  cfg : config;
  client : option client_obj;
  connected : bool;
  last_update : option Q;
  simulation_mode : bool;
  simulation_counter : Z;
  status : plc_status;
  heap : gmap loc (gmap string pyval);
}.

(** *** Field updates *)

Definition with_status (f : plc_status -> plc_status) (self : communicator) :=
  {| MODBUS_AVAILABLE := MODBUS_AVAILABLE self; cfg := cfg self;
     client := client self; connected := connected self;
     last_update := last_update self; simulation_mode := simulation_mode self;
     simulation_counter := simulation_counter self;
     status := f (status self); heap := heap self |}.

Definition set_client (c : option client_obj) (self : communicator) :=
  {| MODBUS_AVAILABLE := MODBUS_AVAILABLE self; cfg := cfg self;
     client := c; connected := connected self;
     last_update := last_update self; simulation_mode := simulation_mode self;
     simulation_counter := simulation_counter self;
     status := status self; heap := heap self |}.

Definition set_connected (b : bool) (self : communicator) :=
  {| MODBUS_AVAILABLE := MODBUS_AVAILABLE self; cfg := cfg self;
     client := client self; connected := b;
     last_update := last_update self; simulation_mode := simulation_mode self;
     simulation_counter := simulation_counter self;
     status := status self; heap := heap self |}.

Definition set_last_update (t : Q) (self : communicator) :=
  {| MODBUS_AVAILABLE := MODBUS_AVAILABLE self; cfg := cfg self;
     client := client self; connected := connected self;
     last_update := Some t; simulation_mode := simulation_mode self;
     simulation_counter := simulation_counter self;
     status := status self; heap := heap self |}.

Definition set_simulation_counter (n : Z) (self : communicator) :=
  {| MODBUS_AVAILABLE := MODBUS_AVAILABLE self; cfg := cfg self;
     client := client self; connected := connected self;
     last_update := last_update self; simulation_mode := simulation_mode self;
     simulation_counter := n;
     status := status self; heap := heap self |}.

Definition set_heap (h : gmap loc (gmap string pyval)) (self : communicator) :=
  {| MODBUS_AVAILABLE := MODBUS_AVAILABLE self; cfg := cfg self;
     client := client self; connected := connected self;
     last_update := last_update self; simulation_mode := simulation_mode self;
     simulation_counter := simulation_counter self;
     status := status self; heap := h |}.

Definition st_set_connected (b : bool) (s : plc_status) :=
  {| st_connected := b; st_last_update := st_last_update s;
     st_communication_errors := st_communication_errors s;
     st_data_registers := st_data_registers s; st_coil_status := st_coil_status s;
     st_input_status := st_input_status s; st_system_info := st_system_info s;
     st_data_age_seconds := st_data_age_seconds s; st_data_fresh := st_data_fresh s |}.

Definition st_set_last_update (t : string) (s : plc_status) :=
  {| st_connected := st_connected s; st_last_update := Some t;
     st_communication_errors := st_communication_errors s;
     st_data_registers := st_data_registers s; st_coil_status := st_coil_status s;
     st_input_status := st_input_status s; st_system_info := st_system_info s;
     st_data_age_seconds := st_data_age_seconds s; st_data_fresh := st_data_fresh s |}.

Definition st_incr_communication_errors (s : plc_status) :=
  {| st_connected := st_connected s; st_last_update := st_last_update s;
     st_communication_errors := st_communication_errors s + 1;
     st_data_registers := st_data_registers s; st_coil_status := st_coil_status s;
     st_input_status := st_input_status s; st_system_info := st_system_info s;
     st_data_age_seconds := st_data_age_seconds s; st_data_fresh := st_data_fresh s |}.

Definition st_set_data_registers (l : loc) (s : plc_status) :=
  {| st_connected := st_connected s; st_last_update := st_last_update s;
     st_communication_errors := st_communication_errors s;
     st_data_registers := l; st_coil_status := st_coil_status s;
     st_input_status := st_input_status s; st_system_info := st_system_info s;
     st_data_age_seconds := st_data_age_seconds s; st_data_fresh := st_data_fresh s |}.

Definition st_set_coil_status (l : loc) (s : plc_status) :=
  {| st_connected := st_connected s; st_last_update := st_last_update s;
     st_communication_errors := st_communication_errors s;
     st_data_registers := st_data_registers s; st_coil_status := l;
     st_input_status := st_input_status s; st_system_info := st_system_info s;
     st_data_age_seconds := st_data_age_seconds s; st_data_fresh := st_data_fresh s |}.

Definition st_set_input_status (l : loc) (s : plc_status) :=
  {| st_connected := st_connected s; st_last_update := st_last_update s;
     st_communication_errors := st_communication_errors s;
     st_data_registers := st_data_registers s; st_coil_status := st_coil_status s;
     st_input_status := l; st_system_info := st_system_info s;
     st_data_age_seconds := st_data_age_seconds s; st_data_fresh := st_data_fresh s |}.

Definition st_set_age (age : Q) (fresh : bool) (s : plc_status) :=
  {| st_connected := st_connected s; st_last_update := st_last_update s;
     st_communication_errors := st_communication_errors s;
     st_data_registers := st_data_registers s; st_coil_status := st_coil_status s;
     st_input_status := st_input_status s; st_system_info := st_system_info s;
     st_data_age_seconds := Some age; st_data_fresh := Some fresh |}.

(** A dict display [{...}] creates a new object in the store. *)
Definition new_dict (d : gmap string pyval) (self : communicator)
  : loc * communicator :=
  let l := fresh (dom (heap self)) in
  (l, set_heap (<[l := d]> (heap self)) self).

(** *** [__init__] *)

Definition init_status : plc_status :=
  {| st_connected := false; st_last_update := None;
     st_communication_errors := 0;
     st_data_registers := 1%positive; st_coil_status := 2%positive;
     st_input_status := 3%positive; st_system_info := 4%positive;
     st_data_age_seconds := None; st_data_fresh := None |}.

Definition system_info (c : config) : gmap string pyval :=
  dict_of
    [("plc_model"%string,
      VStr ("AutomationDirect CLICK"
            +:+ (if SIMULATION_MODE c then " (Simulation)" else "")));
     ("communication_type"%string, VStr (MODBUS_METHOD c));
     ("baud_rate"%string, VInt (BAUD_RATE c));
     ("device_address"%string, VInt (DEVICE_ADDRESS c))].

Definition init (modbus_available : bool) (c : config) : communicator :=
  {| MODBUS_AVAILABLE := modbus_available; cfg := c;
     client := None; connected := false; last_update := None;
     simulation_mode := SIMULATION_MODE c; simulation_counter := 0;
     status := init_status;
     heap := <[4%positive := system_info c]>
               (<[3%positive := ∅]> (<[2%positive := ∅]> (<[1%positive := ∅]> ∅))) |}.

(** *** [connect] and [disconnect] *)

(** What the transport does when asked to open: the constructor of the
    client raises, or [client.connect()] returns a bool, or it raises. *)
Inductive connect_io :=
| ConstructorRaises
| ConnectReturns (ok : bool)
| ConnectRaises.

Definition connect_failed (self : communicator) : communicator * bool :=
  (with_status (st_set_connected false) (set_connected false self), false).

Definition connect (io : connect_io) (self : communicator) : communicator * bool :=
  if simulation_mode self then
    (with_status (st_set_connected true) (set_connected true self), true)
  else if negb (MODBUS_AVAILABLE self) then (self, false)
  else if String.eqb (lower (CONNECTION_TYPE (cfg self))) "serial" then
    match io with
    | ConstructorRaises => connect_failed self
    | ConnectRaises => connect_failed (set_client (Some ModbusSerialClient) self)
    | ConnectReturns ok =>
        let self := set_connected ok (set_client (Some ModbusSerialClient) self) in
        if ok
        then (with_status (st_set_connected true) self, true)
        else (self, false)
    end
  else (self, false).

(** [close_raises]: whether [client.close()] raises. *)
Definition disconnect (close_raises : bool) (self : communicator) : communicator :=
  if present (client self) && connected self then
    if close_raises then self
    else with_status (st_set_connected false) (set_connected false self)
  else self.

(** *** [poll_data] *)

(** What a pymodbus read does: a result with [isError()] false and its
    values, a result with [isError()] true, or an exception. *)
Inductive read_result (A : Type) :=
| ReadOk (vals : list A)
| ReadError
| ReadRaises.
Arguments ReadOk {A} vals.
Arguments ReadError {A}.
Arguments ReadRaises {A}.

(** [{f'Y{i:03d}': bool(bits[i]) for i in range(len(bits))}] *)
Definition bits_dict (prefix : string) (bits : list bool) : gmap string pyval :=
  dict_of (imap (fun i b => (prefix +:+ fmt03d i, VBool b)) bits).

(** [{f'DS{i+1:03d}': registers[i] for i in range(len(registers))}] *)
Definition registers_dict (registers : list Z) : gmap string pyval :=
  dict_of (imap (fun i v => ("DS" +:+ fmt03d (i + 1), VInt v)) registers).

(** One read and the assignment under [if not result.isError()].  The
    flag is [false] when the read raised. *)
Definition store_read {A} (mk : list A -> gmap string pyval)
    (set : loc -> plc_status -> plc_status)
    (r : read_result A) (self : communicator) : communicator * bool :=
  match r with
  | ReadOk vals =>
      let '(l, self) := new_dict (mk vals) self in
      (with_status (set l) self, true)
  | ReadError => (self, true)
  | ReadRaises => (self, false)
  end.

(** The random and clock-derived values one simulated cycle draws. *)
Record sim_draws := {
  rnd_input : nat -> bool;     (* [random.random() > 0.7], [> 0.9] *)
  rnd_coil : nat -> bool;      (* [random.random() > 0.8] *)
  sine_register : Z;           (* [int(200 + 50 * math.sin(t / 10))] *)
  pressure_register : Z;       (* [int(random.uniform(100, 500))] *)
  rnd_register : nat -> Z;     (* [int(random.uniform(0, 65535))] *)
}.

Definition sim_input_status (n : Z) (draws : sim_draws) : gmap string pyval :=
  fold_left
    (fun d i =>
       <["X" +:+ fmt03d i :=
           VBool (if (i <? 4)%nat then (n / (Z.of_nat i + 2)) mod 2 =? 0
                  else rnd_input draws i)]> d)
    (seq 0 16) ∅.

Definition sim_coil_status (n : Z) (draws : sim_draws)
    (input_status : gmap string pyval) : gmap string pyval :=
  fold_left
    (fun d i =>
       <["Y" +:+ fmt03d i :=
           if (i <? 4)%nat
           then default (VBool false) (input_status !! ("X" +:+ fmt03d i))
           else if (i <? 8)%nat
                then VBool ((n / (Z.of_nat i - 2)) mod 2 =? 0)
                else VBool (rnd_coil draws i)]> d)
    (seq 0 16) ∅.

Definition sim_data_registers (n : Z) (draws : sim_draws) : gmap string pyval :=
  fold_left
    (fun d i =>
       <["DS" +:+ fmt03d (i + 1) :=
           VInt (match i with
                 | 0%nat => n mod 1000
                 | 1%nat => sine_register draws
                 | 2%nat => pressure_register draws
                 | 3%nat => (n * 5) mod 1000
                 | _ => rnd_register draws i
                 end)]> d)
    (seq 0 10) ∅.

Definition _simulate_plc_data (draws : sim_draws) (now_iso : string) (now : Q)
    (self : communicator) : communicator * bool :=
  let self := set_simulation_counter (simulation_counter self + 1) self in
  let n := simulation_counter self in
  let '(inputs, self) := new_dict (sim_input_status n draws) self in
  let '(coils, self) :=
    new_dict (sim_coil_status n draws (sim_input_status n draws)) self in
  let '(registers, self) := new_dict (sim_data_registers n draws) self in
  let self :=
    with_status
      (fun s => st_set_last_update now_iso
                  (st_set_data_registers registers
                     (st_set_coil_status coils (st_set_input_status inputs s))))
      self in
  (set_last_update now self, true).

(** The three reads of the [try] block; the flag is [false] when one of
    them raised, and the reads after it were then not made. *)
Definition read_groups (coil_result input_result : read_result bool)
    (register_result : read_result Z) (self : communicator)
  : communicator * bool :=
  if MODBUS_AVAILABLE self then
    let '(self, ok) := store_read (bits_dict "Y") st_set_coil_status coil_result self in
    if ok then
      let '(self, ok) :=
        store_read (bits_dict "X") st_set_input_status input_result self in
      if ok
      then store_read registers_dict st_set_data_registers register_result self
      else (self, false)
    else (self, false)
  else (self, true).

Definition poll_data (coil_result input_result : read_result bool)
    (register_result : read_result Z) (draws : sim_draws)
    (now_iso : string) (now : Q) (self : communicator) : communicator * bool :=
  if negb (connected self) then (self, false)
  else if simulation_mode self then _simulate_plc_data draws now_iso now self
  else if negb (present (client self)) then (self, false)
  else
    let '(self, ok) := read_groups coil_result input_result register_result self in
    if ok
    then (set_last_update now (with_status (st_set_last_update now_iso) self), true)
    else (with_status st_incr_communication_errors self, false).

(** *** [get_status] *)

(** [if self.last_update:] -- [None] and [0.0] are false. *)
Definition truthy_time (t : option Q) : bool :=
  match t with
  | Some t => negb (Qeq_bool t 0)
  | None => false
  end.

(** Returns the live object after the call and the shallow copy. *)
Definition get_status (now : Q) (self : communicator)
  : communicator * plc_status :=
  let self :=
    match last_update self with
    | Some t =>
        if truthy_time (Some t) then
          let age_seconds := Qminus now t in
          with_status
            (st_set_age (round1 age_seconds)
               (Qltb age_seconds (Qmult (POLL_INTERVAL (cfg self)) (inject_Z 2))))
            self
        else self
    | None => self
    end in
  (self, status self).

(** What a holder of a status dict reads through it: the top-level
    fields and the nested dicts the references lead to. *)
Record status_view := {
  v_connected : bool;
  v_last_update : option string;
  v_communication_errors : Z;
  v_data_registers : option (gmap string pyval);
  v_coil_status : option (gmap string pyval);
  v_input_status : option (gmap string pyval);
  v_system_info : option (gmap string pyval);
  v_data_age_seconds : option Q;
  v_data_fresh : option bool;
}.

Definition view (self : communicator) (s : plc_status) : status_view :=
  {| v_connected := st_connected s;
     v_last_update := st_last_update s;
     v_communication_errors := st_communication_errors s;
     v_data_registers := heap self !! st_data_registers s;
     v_coil_status := heap self !! st_coil_status s;
     v_input_status := heap self !! st_input_status s;
     v_system_info := heap self !! st_system_info s;
     v_data_age_seconds := st_data_age_seconds s;
     v_data_fresh := st_data_fresh s |}.

(** What a consumer can do to a snapshot it was handed: rebind top-level
    keys of its copy ([snap[k] = v]), or store into one of the nested
    dicts ([snap[group][key] = v]). *)
Inductive mutation :=
| Rebind (f : plc_status -> plc_status)
| StoreNested (group : plc_status -> loc) (key : string) (v : pyval).

Definition mutate (m : mutation) (snap : plc_status) (self : communicator)
  : plc_status * communicator :=
  match m with
  | Rebind f => (f snap, self)
  | StoreNested group key v =>
      (snap, set_heap (alter (fun d => <[key := v]> d) (group snap) (heap self)) self)
  end.

(** *** [write_coil] and [write_register] *)

(** What the pymodbus write does: a result that is not an error, a result
    that is one (with its [str]), or an exception (with its [str]). *)
Inductive write_io :=
| WriteOk
| WriteError (repr : string)
| WriteRaises (msg : string).

Definition write_reply (io : write_io) : bool * string :=
  match io with
  | WriteOk => (true, "Success"%string)
  | WriteError repr => (false, repr)
  | WriteRaises msg => (false, msg)
  end.

Definition write_coil (io : write_io) (address : Z) (value : bool)
    (self : communicator) : communicator * (bool * string) :=
  if negb (connected self) || negb (present (client self))
  then (self, (false, "PLC not connected"%string))
  else (self, write_reply io).

Definition write_register (io : write_io) (address value : Z)
    (self : communicator) : communicator * (bool * string) :=
  if negb (connected self) || negb (present (client self))
  then (self, (false, "PLC not connected"%string))
  else (self, write_reply io).

(** *** Calls from the outside *)

Inductive call :=
| Connect (io : connect_io)
| Disconnect (close_raises : bool)
| PollData (coil_result input_result : read_result bool)
           (register_result : read_result Z) (draws : sim_draws)
           (now_iso : string) (now : Q)
| GetStatus (now : Q)
| WriteCoil (io : write_io) (address : Z) (value : bool)
| WriteRegister (io : write_io) (address value : Z).

Definition do_call (c : call) (self : communicator) : communicator :=
  match c with
  | Connect io => (connect io self).1
  | Disconnect close_raises => disconnect close_raises self
  | PollData cr ir rr draws now_iso now => (poll_data cr ir rr draws now_iso now self).1
  | GetStatus now => (get_status now self).1
  | WriteCoil io address value => (write_coil io address value self).1
  | WriteRegister io address value => (write_register io address value self).1
  end.

Definition do_calls (cs : list call) (self : communicator) : communicator :=
  fold_left (fun s c => do_call c s) cs self.

(** *** Reading the nested dicts *)

(** The keys of [plc_status] that hold a nested dict. *)
Inductive group := Coils | Inputs | Registers | SystemInfo.

Definition ref_of (g : group) (s : plc_status) : loc :=
  match g with
  | Coils => st_coil_status s
  | Inputs => st_input_status s
  | Registers => st_data_registers s
  | SystemInfo => st_system_info s
  end.

(** [self.plc_status[g]], read through the live object. *)
Definition nested (g : group) (self : communicator) : option (gmap string pyval) :=
  heap self !! ref_of g (status self).

(** Every reference held by the live status names a dict of the store. *)
Definition wf (self : communicator) : Prop :=
  forall g, is_Some (nested g self).

Definition raises {A} (r : read_result A) : bool :=
  match r with
  | ReadRaises => true
  | _ => false
  end.

(** The values a read stores, if it is reached and is not an error. *)
Definition stored {A} (reached : bool) (r : read_result A) : option (list A) :=
  if reached then
    match r with
    | ReadOk vals => Some vals
    | _ => None
    end
  else None.

(** The fields of the communicator and of the top level of its status
    that hold no reference. *)
Definition scalars (self : communicator) :=
  (MODBUS_AVAILABLE self, cfg self, client self, connected self,
   last_update self, simulation_mode self, simulation_counter self,
   (st_connected (status self), st_last_update (status self),
    st_communication_errors (status self),
    st_data_age_seconds (status self), st_data_fresh (status self))).

End PLCCommunicator.

(** ** The script engine of the Raspberry Pi ([custom_scripts.py]) *)

(** A dict whose iteration order is observed: the bindings in insertion
    order, every key bound once. *)
Fixpoint dict_get {V} (k : string) (d : list (string * V)) : option V :=
  match d with
  | [] => None
  | (k', v) :: rest => if String.eqb k' k then Some v else dict_get k rest
  end.

(** [d[k].field = ...]: the value bound to [k] is changed in place. *)
Definition dict_alter {V} (f : V -> V) (k : string) (d : list (string * V))
  : list (string * V) :=
  map (fun kv => if String.eqb kv.1 k then (kv.1, f kv.2) else kv) d.

(** [del d[k]]. *)
Definition dict_del {V} (k : string) (d : list (string * V)) : list (string * V) :=
  filter (fun kv => negb (String.eqb kv.1 k)) d.

(** [ScriptEngine] follows [execute_script] and the batch on the runs in
    which the set-up of the pins does not raise, every exception of the
    code is an [Exception], the [plc_data] is left alone and what
    [execute] returns is a dict of its own or no dict.  [ScriptExecutor]
    below follows all runs; [ExecutorProps.plain_batch] shows that the
    two agree on these. *)

Module ScriptEngine.

(** [GPIOController.pin_states[pin]] *)
Record pin_state := { mode : string; value : bool }.

(** A script's own [script_state] dict. *)
Abbreviation script_state := (gmap string pyval).

(** What [execute] returns: a dict, or some other value. *)
Inductive result :=
| RDict (d : gmap string pyval)
| ROther (v : pyval).

Section Engine.

(** The snapshot handed to the scripts. *)
Context {plc_data : Type}.
(** What the scripts reach through the [gpio] callbacks besides the pin
    table: the PLC behind [write_coil] and [write_register]. *)
Context {outside : Type}.

(** What a script can read and change: the pin table of the shared
    [GPIOController], the clock, and the outside. *)
Record world := {
  pin_states : gmap Z pin_state;
  clock : Q;
  plc : outside;
}.

(** What [exec(script["code"], ...)] followed by the call of [execute]
    does: [execute] returns, or an exception is raised on the way, or the
    code defines no [execute].  The world and the script's state are as the
    code left them. *)
Inductive outcome :=
| Returns (r : result) (w : world) (st : script_state)
| Raises (msg : string) (w : world) (st : script_state)
| NoExecute (w : world).

Definition behaviour := plc_data -> world -> script_state -> outcome.

(** An entry of [ScriptEngine.scripts]. *)
Record script := {
  name : string;
  description : string;
  enabled : bool;
  gpio_pins : list Z;
  code : behaviour;
}.

Record engine := {
  scripts : list (string * script);
  script_states : gmap string script_state;
}.

Definition set_enabled (b : bool) (s : script) : script :=
  {| name := name s; description := description s; enabled := b;
     gpio_pins := gpio_pins s; code := code s |}.

Definition set_code (c : behaviour) (s : script) : script :=
  {| name := name s; description := description s; enabled := enabled s;
     gpio_pins := gpio_pins s; code := c |}.

Definition set_scripts (l : list (string * script)) (e : engine) : engine :=
  {| scripts := l; script_states := script_states e |}.

Definition set_script_states (m : gmap string script_state) (e : engine) : engine :=
  {| scripts := scripts e; script_states := m |}.

Definition set_pin_states (p : gmap Z pin_state) (w : world) : world :=
  {| pin_states := p; clock := clock w; plc := plc w |}.

(** [GPIOController.setup_pin(pin, mode)], the pin table side of it. *)
Definition setup_pin (pin : Z) (m : string) (w : world) : world :=
  set_pin_states (<[pin := {| mode := m; value := false |}]> (pin_states w)) w.

(** The loop over [script.get("gpio_pins", [])]. *)
Definition setup_pins (pins : list Z) (w : world) : world :=
  fold_left
    (fun w pin =>
       match pin_states w !! pin with
       | Some _ => w
       | None => setup_pin pin "output" w
       end)
    pins w.

(** [if script_id not in script_states: script_states[script_id] = {}] *)
Definition ensure_state (script_id : string) (e : engine) : engine :=
  match script_states e !! script_id with
  | Some _ => e
  | None => set_script_states (<[script_id := ∅]> (script_states e)) e
  end.

(** The dict [execute_script] passes to the code as [script_state]. *)
Definition state_for (script_id : string) (e : engine) : script_state :=
  default ∅ (script_states e !! script_id).

(** The record of the [except] branch. *)
Definition error_record (script_id msg : string) (timestamp : Q)
  : gmap string pyval :=
  dict_of [("error"%string, VStr ("Script execution failed: " +:+ msg));
           ("script_id"%string, VStr script_id);
           ("timestamp"%string, VFloat timestamp)].

(** What [execute_script] makes of the outcome of the code: the result it
    returns, and the engine and the world it leaves. *)
Definition conclude (script_id : string) (s : script) (e : engine) (o : outcome)
  : result * engine * world :=
  match o with
  | Returns r w st =>
      let e := set_script_states (<[script_id := st]> (script_states e)) e in
      match r with
      | RDict d =>
          (RDict (<["timestamp" := VFloat (clock w)]>
                    (<["script_id" := VStr script_id]>
                       (<["script_name" := VStr (name s)]> d))), e, w)
      | ROther v => (ROther v, e, w)
      end
  | NoExecute w =>
      (RDict {["error"%string := VStr "Script must define an 'execute' function"]},
       e, w)
  | Raises msg w st =>
      (RDict (error_record script_id msg (clock w)),
       set_script_states (<[script_id := st]> (script_states e)) e, w)
  end.

Definition execute_script (script_id : string) (data : plc_data)
    (e : engine) (w : world) : result * engine * world :=
  match dict_get script_id (scripts e) with
  | None =>
      (RDict {["error"%string := VStr ("Script " +:+ script_id +:+ " not found")]},
       e, w)
  | Some s =>
      if negb (enabled s)
      then (RDict {["status"%string := VStr "Script disabled"]}, e, w)
      else
        let w := setup_pins (gpio_pins s) w in
        let e := ensure_state script_id e in
        conclude script_id s e (code s data w (state_for script_id e))
  end.

(** A value of the dict [execute_all_enabled_scripts] returns. *)
Inductive entry :=
| ScriptResult (r : result)
| GpioStates (p : gmap Z pin_state).

(** The loop of [execute_all_enabled_scripts] over [scripts.items()]. *)
Definition execute_each (data : plc_data) (items : list (string * script))
    (acc : gmap string entry * engine * world) : gmap string entry * engine * world :=
  fold_left
    (fun acc item =>
       let '(results, e, w) := acc in
       if enabled item.2
       then let '(r, e, w) := execute_script item.1 data e w in
            (<[item.1 := ScriptResult r]> results, e, w)
       else acc)
    items acc.

Definition execute_all_enabled_scripts (data : plc_data) (e : engine) (w : world)
  : gmap string entry * engine * world :=
  let '(results, e, w) := execute_each data (scripts e) (∅, e, w) in
  (<["gpio_states" := GpioStates (pin_states w)]> results, e, w).

(** The ids the loop runs, in order. *)
Definition executed (e : engine) : list string :=
  map fst (filter (fun item => enabled item.2) (scripts e)).

(** [api_script_toggle] of the web server: [scripts[id]['enabled'] = not
    scripts[id]['enabled']]; an unknown id changes nothing. *)
Definition toggle (script_id : string) (e : engine) : engine :=
  set_scripts (dict_alter (fun s => set_enabled (negb (enabled s)) s)
                 script_id (scripts e)) e.

(** [api_script_update] with new code only. *)
Definition update_code (script_id : string) (c : behaviour) (e : engine) : engine :=
  set_scripts (dict_alter (set_code c) script_id (scripts e)) e.

(** [api_script_delete]: the script and its state go. *)
Definition delete_script (script_id : string) (e : engine) : engine :=
  match dict_get script_id (scripts e) with
  | None => e
  | Some _ =>
      {| scripts := dict_del script_id (scripts e);
         script_states := delete script_id (script_states e) |}
  end.

(** [n] poll cycles, each running the enabled scripts on the snapshot of
    the cycle. *)
Definition run_cycles (snapshots : list plc_data) (e : engine) (w : world)
  : engine * world :=
  fold_left
    (fun ew data =>
       let '(_, e, w) := execute_all_enabled_scripts data ew.1 ew.2 in (e, w))
    snapshots (e, w).

End Engine.

Arguments world : clear implicits.
Arguments outcome : clear implicits.
Arguments behaviour : clear implicits.
Arguments script : clear implicits.
Arguments engine : clear implicits.

End ScriptEngine.

(** ** The script engine of the ESP-32 ([ESP FilesBU/custom_scripts.py]) *)

Module ESP32ScriptEngine.

Record script := {
  name : string;
  description : string;
  enabled : bool;
  code : string;
}.

(** The engine keeps no state for a script between two executions: every
    execution builds its globals anew. *)
Record engine := {
  scripts : gmap string script;
  enabled_scripts : gset string;
}.

Definition set_enabled (b : bool) (s : script) : script :=
  {| name := name s; description := description s; enabled := b; code := code s |}.

Definition enable_script (script_id : string) (e : engine) : engine * bool :=
  match scripts e !! script_id with
  | Some s =>
      ({| scripts := <[script_id := set_enabled true s]> (scripts e);
          enabled_scripts := {[script_id]} ∪ enabled_scripts e |}, true)
  | None => (e, false)
  end.

Definition disable_script (script_id : string) (e : engine) : engine * bool :=
  match scripts e !! script_id with
  | Some s =>
      ({| scripts := <[script_id := set_enabled false s]> (scripts e);
          enabled_scripts := enabled_scripts e ∖ {[script_id]} |}, true)
  | None => (e, false)
  end.

(** The ids [execute_enabled_scripts] runs: the enabled ones that are
    still registered. *)
Definition executed (e : engine) : gset string :=
  filter (fun script_id => is_Some (scripts e !! script_id)) (enabled_scripts e).

End ESP32ScriptEngine.

(** ** The script executor of the Raspberry Pi in full ([custom_scripts.py])

    [ScriptEngine] above follows [execute_script] on the runs in which
    the set-up of the pins does not raise, no exception gets past [except
    Exception], and what [execute] returns is a dict of its own or no dict.
    This module drops the restrictions ([ExecutorProps.plain_batch]
    relates the two): the pin loop is inside the
    [try] and can raise; an exception that is no [Exception] leaves
    [execute_script] and the batch; the three tags are stored into the
    object [execute] returned, which can be the [script_state] or the
    [plc_data] it was handed, or a dict inside the [plc_data]; and the
    scripts of a batch share one [plc_data], which they can change.  The
    pins are [int]s, as [setup_pin] annotates them, and [GPIO.setup]
    raises [Exception]s only.  The script states, the dicts inside the
    [plc_data] and the dicts of their own that the scripts return are
    distinct objects holding scalars: no script stores one of them into
    another. *)

Module ScriptExecutor.

(** A dict of scalars: a script state, a result. *)
Abbreviation dict := (gmap string pyval).

(** The dict [get_status()] returned: scalars and dicts of scalars. *)
Inductive value :=
| Plain (v : pyval)
| Nested (d : dict).

Abbreviation plc_data := (gmap string value).

(** [script.get("gpio_pins", [])]: a list of pins, or a value the [for]
    over it raises on ([None], a number), with [str(e)]. *)
Inductive pin_list :=
| Pins (pins : list Z)
| NotIterable (msg : string).

(** The object [execute] returns: a dict nothing else refers to, the
    [script_state] it was handed, the [plc_data] it was handed, the
    object [plc_data.get(key)], or a value that is no dict. *)
Inductive returned :=
| Fresh (d : dict)
| TheState
| TheData
| Inside (key : string)
| NotDict (v : pyval).

(** What [execute_script] returns: a dict of its own, the state object of
    the script, the [plc_data] object, the dict [plc_data[key]], or a
    value that is no dict. *)
Inductive result :=
| RDict (d : dict)
| RState
| RData
| RInside (key : string)
| ROther (v : pyval).

Section Executor.

(** What the scripts reach through the [gpio] callbacks besides the pin
    table: the PLC behind [write_coil] and [write_register], the GPIO
    hardware. *)
Context {outside : Type}.

Abbreviation world := (ScriptEngine.world outside).

(** What [exec(script["code"], ...)] followed by the call of [execute]
    does: [execute] returns; or an [Exception] is raised on the way; or an
    exception that is none ([SystemExit], [KeyboardInterrupt]) is; or the
    code defines no [execute].  The [plc_data], the world and the script's
    state are as the code left them. *)
Inductive outcome :=
| Returns (r : returned) (data : plc_data) (w : world) (st : dict)
| Raises (msg : string) (data : plc_data) (w : world) (st : dict)
| Escapes (data : plc_data) (w : world) (st : dict)
| NoExecute (w : world).

Definition behaviour := plc_data -> world -> dict -> outcome.

(** An entry of [ScriptEngine.scripts]. *)
Record script := {
  name : string;
  description : string;
  enabled : bool;
  gpio_pins : pin_list;
  code : behaviour;
}.

Record engine := {
  scripts : list (string * script);
  script_states : gmap string dict;
}.

(** The engine, the world and the [plc_data] of the batch. *)
Record machine := {
  the_engine : engine;
  the_world : world;
  the_data : plc_data;
}.

Definition set_code (c : behaviour) (s : script) : script :=
  {| name := name s; description := description s; enabled := enabled s;
     gpio_pins := gpio_pins s; code := c |}.

Definition set_script_states (m : gmap string dict) (e : engine) : engine :=
  {| scripts := scripts e; script_states := m |}.

(** [self.GPIO.setup(pin, self.GPIO.OUT)] in a world: [None] when it
    returns (always so without the hardware), [str(e)] when it raises. *)
Variable gpio_setup : world -> Z -> option string.

(** The loop [for pin in ...: if pin not in pin_states: setup_pin(pin,
    "output")]: the world it leaves, and [str(e)] if it raised. *)
Fixpoint setup_pins (pins : list Z) (w : world) : world * option string :=
  match pins with
  | [] => (w, None)
  | pin :: rest =>
      match ScriptEngine.pin_states w !! pin with
      | Some _ => setup_pins rest w
      | None =>
          match gpio_setup w pin with
          | Some msg => (w, Some msg)
          | None => setup_pins rest (ScriptEngine.setup_pin pin "output" w)
          end
      end
  end.

Definition pin_loop (p : pin_list) (w : world) : world * option string :=
  match p with
  | Pins pins => setup_pins pins w
  | NotIterable msg => (w, Some msg)
  end.

(** [if script_id not in script_states: script_states[script_id] = {}] *)
Definition ensure_state (script_id : string) (e : engine) : engine :=
  match script_states e !! script_id with
  | Some _ => e
  | None => set_script_states (<[script_id := ∅]> (script_states e)) e
  end.

(** The three stores into the returned object, when it is a dict of
    scalars and when it is the [plc_data]. *)
Definition tagged (s : script) (script_id : string) (timestamp : Q) (d : dict)
  : dict :=
  <["timestamp" := VFloat timestamp]>
    (<["script_id" := VStr script_id]> (<["script_name" := VStr (name s)]> d)).

Definition tagged_data (s : script) (script_id : string) (timestamp : Q)
    (d : plc_data) : plc_data :=
  <["timestamp" := Plain (VFloat timestamp)]>
    (<["script_id" := Plain (VStr script_id)]>
       (<["script_name" := Plain (VStr (name s))]> d)).

Definition left_by (script_id : string) (st : dict) (e : engine)
    (w : world) (d : plc_data) : machine :=
  {| the_engine := set_script_states (<[script_id := st]> (script_states e)) e;
     the_world := w; the_data := d |}.

(** What [execute_script] makes of the outcome of the code: what it
    returns, [None] when the exception leaves it, and what it leaves. *)
Definition conclude (script_id : string) (s : script) (e : engine)
    (d0 : plc_data) (o : outcome) : option result * machine :=
  match o with
  | Returns r d w st =>
      match r with
      | Fresh x =>
          (Some (RDict (tagged s script_id (ScriptEngine.clock w) x)),
           left_by script_id st e w d)
      | TheState =>
          (Some RState,
           left_by script_id (tagged s script_id (ScriptEngine.clock w) st) e w d)
      | TheData =>
          (Some RData,
           left_by script_id st e w (tagged_data s script_id (ScriptEngine.clock w) d))
      | Inside key =>
          match d !! key with
          | Some (Nested x) =>
              (Some (RInside key),
               left_by script_id st e w
                 (<[key := Nested (tagged s script_id (ScriptEngine.clock w) x)]> d))
          | Some (Plain v) => (Some (ROther v), left_by script_id st e w d)
          | None => (Some (ROther VNone), left_by script_id st e w d)
          end
      | NotDict v => (Some (ROther v), left_by script_id st e w d)
      end
  | Raises msg d w st =>
      (Some (RDict (ScriptEngine.error_record script_id msg (ScriptEngine.clock w))),
       left_by script_id st e w d)
  | Escapes d w st => (None, left_by script_id st e w d)
  | NoExecute w =>
      (Some (RDict {["error"%string :=
                       VStr "Script must define an 'execute' function"]}),
       {| the_engine := e; the_world := w; the_data := d0 |})
  end.

Definition execute_script (script_id : string) (c : machine)
  : option result * machine :=
  match dict_get script_id (scripts (the_engine c)) with
  | None =>
      (Some (RDict {["error"%string :=
                       VStr ("Script " +:+ script_id +:+ " not found")]}), c)
  | Some s =>
      if negb (enabled s)
      then (Some (RDict {["status"%string := VStr "Script disabled"]}), c)
      else
        match pin_loop (gpio_pins s) (the_world c) with
        | (w, Some msg) =>
            (Some (RDict (ScriptEngine.error_record script_id msg
                            (ScriptEngine.clock w))),
             {| the_engine := the_engine c; the_world := w;
                the_data := the_data c |})
        | (w, None) =>
            let e := ensure_state script_id (the_engine c) in
            conclude script_id s e (the_data c)
              (code s (the_data c) w (default ∅ (script_states e !! script_id)))
        end
  end.

(** A value of the dict [execute_all_enabled_scripts] returns. *)
Inductive entry :=
| ScriptResult (r : result)
| GpioStates (p : gmap Z ScriptEngine.pin_state).

(** One round of the loop over [scripts.items()]; the results are [None]
    once an exception has left the loop. *)
Definition step (acc : option (gmap string entry) * machine)
    (item : string * script) : option (gmap string entry) * machine :=
  match acc.1 with
  | None => acc
  | Some results =>
      if enabled item.2 then
        match execute_script item.1 acc.2 with
        | (Some r, c) => (Some (<[item.1 := ScriptResult r]> results), c)
        | (None, c) => (None, c)
        end
      else acc
  end.

Definition execute_each (items : list (string * script))
    (acc : option (gmap string entry) * machine)
  : option (gmap string entry) * machine :=
  fold_left step items acc.

Definition execute_all_enabled_scripts (c : machine)
  : option (gmap string entry) * machine :=
  match execute_each (scripts (the_engine c)) (Some ∅, c) with
  | (Some results, c) =>
      (Some (<["gpio_states" :=
                 GpioStates (ScriptEngine.pin_states (the_world c))]> results), c)
  | (None, c) => (None, c)
  end.

(** The ids the loop runs, in order. *)
Definition executed (e : engine) : list string :=
  map fst (filter (fun item => enabled item.2) (scripts e)).

End Executor.

Arguments outcome : clear implicits.
Arguments behaviour : clear implicits.
Arguments script : clear implicits.
Arguments engine : clear implicits.
Arguments machine : clear implicits.

End ScriptExecutor.

(** ** The script routes of the web server ([web_server.py]) *)

Module WebServer.
Import ScriptEngine.

(** What a route answers: success, or an error with its HTTP status. *)
Inductive reply :=
| Success
| Executed (r : result)
| Failure (status : Z) (error : string).

Section Routes.
Context {plc_data outside : Type}.

(** The JSON object of a request, as far as the routes read it.  The
    entry [enabled] is read for its truth value, [code] for the behaviour
    the text has when it is executed. *)
Record body := {
  b_id : option string;
  b_name : option string;
  b_description : option string;
  b_code : option (behaviour plc_data outside);
  b_enabled : option bool;
  b_gpio_pins : option (list Z);
  b_other : bool;               (* the object has other keys *)
}.

(** [not data] for a JSON object. *)
Definition is_empty (b : body) : bool :=
  negb (present (b_id b) || present (b_name b) || present (b_description b)
        || present (b_code b) || present (b_enabled b) || present (b_gpio_pins b)
        || b_other b).

Definition unavailable : reply := Failure 503 "Script engine not available".
Definition no_data : reply := Failure 400 "No data provided".
Definition not_found : reply := Failure 404 "Script not found".
Definition missing (field : string) : reply :=
  Failure 400 ("Missing required field: " +:+ field).

Definition api_script_toggle (script_id : string)
    (script_engine : option (engine plc_data outside))
  : option (engine plc_data outside) * reply :=
  match script_engine with
  | None => (None, unavailable)
  | Some e =>
      match dict_get script_id (scripts e) with
      | None => (Some e, not_found)
      | Some _ => (Some (toggle script_id e), Success)
      end
  end.

(** The five [if key in data: script[key] = data[key]] of the update. *)
Definition updated (b : body) (s : script plc_data outside) : script plc_data outside :=
  {| name := default (name s) (b_name b);
     description := default (description s) (b_description b);
     enabled := default (enabled s) (b_enabled b);
     gpio_pins := default (gpio_pins s) (b_gpio_pins b);
     code := default (code s) (b_code b) |}.

Definition api_script_update (script_id : string) (data : option body)
    (script_engine : option (engine plc_data outside))
  : option (engine plc_data outside) * reply :=
  match script_engine with
  | None => (None, unavailable)
  | Some e =>
      match data with
      | None => (Some e, no_data)
      | Some b =>
          if is_empty b then (Some e, no_data)
          else
            match dict_get script_id (scripts e) with
            | None => (Some e, not_found)
            | Some _ =>
                (Some (set_scripts (dict_alter (updated b) script_id (scripts e)) e),
                 Success)
            end
      end
  end.

Definition api_script_create (data : option body)
    (script_engine : option (engine plc_data outside))
  : option (engine plc_data outside) * reply :=
  match script_engine with
  | None => (None, unavailable)
  | Some e =>
      match data with
      | None => (Some e, no_data)
      | Some b =>
          if is_empty b then (Some e, no_data)
          else
            match b_id b, b_name b, b_description b, b_code b with
            | None, _, _, _ => (Some e, missing "id")
            | Some _, None, _, _ => (Some e, missing "name")
            | Some _, Some _, None, _ => (Some e, missing "description")
            | Some _, Some _, Some _, None => (Some e, missing "code")
            | Some script_id, Some n, Some d, Some c =>
                match dict_get script_id (scripts e) with
                | Some _ => (Some e, Failure 400 "Script ID already exists")
                | None =>
                    let new_script :=
                      {| name := n; description := d; code := c;
                         enabled := default false (b_enabled b);
                         gpio_pins := default [] (b_gpio_pins b) |} in
                    (Some (set_scripts (scripts e ++ [(script_id, new_script)]) e),
                     Success)
                end
            end
      end
  end.

Definition api_script_delete (script_id : string)
    (script_engine : option (engine plc_data outside))
  : option (engine plc_data outside) * reply :=
  match script_engine with
  | None => (None, unavailable)
  | Some e =>
      match dict_get script_id (scripts e) with
      | None => (Some e, not_found)
      | Some _ => (Some (delete_script script_id e), Success)
      end
  end.

(** [api_script_execute]; [data] is the snapshot [get_status()] returned. *)
Definition api_script_execute (script_id : string) (data : plc_data)
    (script_engine : option (engine plc_data outside)) (w : world outside)
  : option (engine plc_data outside) * world outside * reply :=
  match script_engine with
  | None => (None, w, Failure 503 "Script executor not available")
  | Some e =>
      match dict_get script_id (scripts e) with
      | None => (Some e, w, not_found)
      | Some _ =>
          let '(r, e, w) := execute_script script_id data e w in
          (Some e, w, Executed r)
      end
  end.

(** A request to one of the routes that change the registry. *)
Inductive request :=
| Toggle (script_id : string)
| Update (script_id : string) (data : option body)
| Create (data : option body)
| Delete (script_id : string).

Definition route (r : request) (script_engine : option (engine plc_data outside))
  : option (engine plc_data outside) * reply :=
  match r with
  | Toggle script_id => api_script_toggle script_id script_engine
  | Update script_id data => api_script_update script_id data script_engine
  | Create data => api_script_create data script_engine
  | Delete script_id => api_script_delete script_id script_engine
  end.

End Routes.

Arguments body : clear implicits.
Arguments request : clear implicits.

End WebServer.

(** ** The GPIO controller of the Raspberry Pi ([custom_scripts.py]) *)

Module GPIOController.

(** A call into [RPi.GPIO]. *)
Inductive gpio_call :=
| Setup (pin : Z) (output : bool)   (* [GPIO.setup(pin, GPIO.OUT)], or [GPIO.IN] *)
| Output (pin : Z) (value : bool)   (* [GPIO.output(pin, value)] *)
| Input (pin : Z).                  (* [GPIO.input(pin)] *)

(** [pin_states] maps a pin to its dict [{"mode": ..., "value": ...}];
    the dicts are objects of [cells].  [calls] are the calls made into
    [RPi.GPIO] so far, oldest first. *)
Record controller := {
  gpio_available : bool;
  pin_states : gmap Z positive;
  cells : gmap positive ScriptEngine.pin_state;
  calls : list gpio_call;
}.

Definition init (available : bool) : controller :=
  {| gpio_available := available; pin_states := ∅; cells := ∅; calls := [] |}.

Definition log (c : gpio_call) (self : controller) : controller :=
  {| gpio_available := gpio_available self; pin_states := pin_states self;
     cells := cells self; calls := calls self ++ [c] |}.

(** [self.pin_states[pin] = {"mode": mode, "value": False}] *)
Definition store (pin : Z) (mode : string) (self : controller) : controller :=
  let l := fresh (dom (cells self)) in
  {| gpio_available := gpio_available self;
     pin_states := <[pin := l]> (pin_states self);
     cells := <[l := {| ScriptEngine.mode := mode; ScriptEngine.value := false |}]>
                (cells self);
     calls := calls self |}.

(** [d["value"] = value] on the dict at [l]. *)
Definition set_value (l : positive) (value : bool) (self : controller) : controller :=
  {| gpio_available := gpio_available self; pin_states := pin_states self;
     cells := alter (fun st => {| ScriptEngine.mode := ScriptEngine.mode st;
                                  ScriptEngine.value := value |}) l (cells self);
     calls := calls self |}.

Section Hardware.

(** What the hardware does, given the calls made before: whether a call
    raises, and the level [GPIO.input] reads. *)
Variable raises : list gpio_call -> gpio_call -> bool.
Variable level : list gpio_call -> Z -> bool.

(** The methods return the controller as they leave it and their value,
    [None] when they are left by an exception. *)

Definition setup_pin (pin : Z) (mode : string) (self : controller)
  : controller * option unit :=
  if gpio_available self then
    let call := Setup pin (String.eqb (lower mode) "output") in
    if raises (calls self) call then (log call self, None)
    else (store pin mode (log call self), Some tt)
  else (store pin mode self, Some tt).

Definition set_pin (pin : Z) (value : bool) (self : controller)
  : controller * option unit :=
  let '(self, configured) :=
    match pin_states self !! pin with
    | Some _ => (self, Some tt)
    | None => setup_pin pin "output" self
    end in
  match configured with
  | None => (self, None)
  | Some _ =>
      let '(self, written) :=
        if gpio_available self then
          (log (Output pin value) self,
           if raises (calls self) (Output pin value) then None else Some tt)
        else (self, Some tt) in
      match written, pin_states self !! pin with
      | Some _, Some l => (set_value l value self, Some tt)
      | _, _ => (self, None)
      end
  end.

Definition get_pin (pin : Z) (self : controller) : controller * option bool :=
  match pin_states self !! pin with
  | None => (self, Some false)
  | Some l =>
      match cells self !! l with
      | None => (self, None)
      | Some st =>
          if gpio_available self && String.eqb (ScriptEngine.mode st) "input" then
            (log (Input pin) self,
             if raises (calls self) (Input pin) then None
             else Some (level (calls self) pin))
          else (self, Some (ScriptEngine.value st))
      end
  end.

(** [self.pin_states.copy()]: a new top level over the same dicts. *)
Definition get_pin_states (self : controller) : gmap Z positive := pin_states self.

(** What a holder of [states], a dict of pin dicts, reads under [pin]. *)
Definition read (states : gmap Z positive) (pin : Z) (self : controller)
  : option ScriptEngine.pin_state :=
  states !! pin ≫= fun l => cells self !! l.

(** A method call from a script. *)
Inductive call :=
| SetupPin (pin : Z) (mode : string)
| SetPin (pin : Z) (value : bool)
| GetPin (pin : Z).

Definition do_call (c : call) (self : controller) : controller :=
  match c with
  | SetupPin pin mode => (setup_pin pin mode self).1
  | SetPin pin value => (set_pin pin value self).1
  | GetPin pin => (get_pin pin self).1
  end.

Definition do_calls (cs : list call) (self : controller) : controller :=
  fold_left (fun s c => do_call c s) cs self.

End Hardware.

End GPIOController.

(** ** Running the scripts of the ESP-32 ([ESP FilesBU/custom_scripts.py]) *)

Module ESP32Executor.
Import ESP32ScriptEngine.

(** The dict [execute_script] returns.  The refusal has neither
    [script_id] nor [execution_time]. *)
Record result := {
  r_script_id : option string;
  r_success : bool;
  r_error : option string;
  r_execution_time : option Z;
}.

Definition refusal : result :=
  {| r_script_id := None; r_success := false;
     r_error := Some "Script not found or disabled"%string;
     r_execution_time := None |}.

(** [load_default_scripts], for the three texts of the default scripts. *)
Definition load_default_scripts (status_led emergency_stop temp_alarm : string)
  : engine :=
  {| scripts :=
       <["temp_alarm"%string :=
           {| name := "Temperature Alarm";
              description := "Temperature monitoring with GPIO alarm output";
              enabled := false; code := temp_alarm |}]>
         (<["emergency_stop"%string :=
              {| name := "Emergency Stop Monitor";
                 description :=
                   "Monitors emergency stop button and activates safety outputs";
                 enabled := false; code := emergency_stop |}]>
            (<["status_led"%string :=
                 {| name := "Status LED Blinker";
                    description := "Blinks built-in LED based on PLC connection";
                    enabled := true; code := status_led |}]> ∅));
     enabled_scripts := {["status_led"%string]} |}.

(** [get_script_info]: a copy of the entry whose [enabled] says whether
    the id is in [enabled_scripts]. *)
Definition get_script_info (script_id : string) (e : engine) : option script :=
  match scripts e !! script_id with
  | Some s => Some (set_enabled (bool_decide (script_id ∈ enabled_scripts e)) s)
  | None => None
  end.

(** [get_all_scripts] *)
Definition get_all_scripts (e : engine) : gmap string script :=
  map_imap (fun script_id s =>
              Some (set_enabled (bool_decide (script_id ∈ enabled_scripts e)) s))
           (scripts e).

Section Executor.

(** The snapshot handed to the scripts, which they can change. *)
Context {plc_data : Type}.
(** What a script can reach and change besides: the GPIO controller, the
    Modbus client behind [write_coil] and [write_register], and the
    clock. *)
Context {world : Type}.
(** The dict [gpio.get_pin_states()] returns. *)
Context {pin_table : Type}.

(** How [exec(script["code"], script_globals)] ends: the code runs to its
    end; it raises an [Exception], with [str(e)]; or it raises an
    exception that is none ([SystemExit], [KeyboardInterrupt]), which
    [except Exception] does not catch. *)
Inductive ending :=
| Completed
| Raised (msg : string)
| Escaped.

(** [exec(script["code"], script_globals)]: the [plc_data] and the world
    as the code leaves them, and how it ends. *)
Variable exec : string -> plc_data -> world -> plc_data * world * ending.
Variable ticks_ms : world -> Z.
Variable ticks_diff : Z -> Z -> Z.
Variable get_pin_states : world -> pin_table.
Variable mem_free : world -> Z.
(** The order in which [list(self.enabled_scripts)] lists the set. *)
Variable order : gset string -> list string.

(** [execute_script]: the dict it returns, [None] when an exception
    leaves it, and the [plc_data] and the world after it. *)
Definition execute_script (script_id : string) (data : plc_data)
    (e : engine) (w : world) : option result * plc_data * world :=
  match scripts e !! script_id with
  | Some s =>
      if bool_decide (script_id ∈ enabled_scripts e) then
        let start_time := ticks_ms w in
        let '(data', w', how) := exec (code s) data w in
        match how with
        | Completed =>
            (Some {| r_script_id := Some script_id; r_success := true;
                     r_error := None;
                     r_execution_time :=
                       Some (ticks_diff (ticks_ms w') start_time) |}, data', w')
        | Raised msg =>
            (Some {| r_script_id := Some script_id; r_success := false;
                     r_error := Some msg;
                     r_execution_time :=
                       Some (ticks_diff (ticks_ms w') start_time) |}, data', w')
        | Escaped => (None, data', w')
        end
      else (Some refusal, data, w)
  | None => (Some refusal, data, w)
  end.

(** The dict [execute_enabled_scripts] returns. *)
Record batch := {
  results : gmap string result;
  gpio_states : pin_table;
  memory_free : Z;
  timestamp : Z;
}.

(** One round of the loop over [list(self.enabled_scripts)]; the results
    are [None] once an exception has left the loop. *)
Definition step (e : engine)
    (acc : option (gmap string result) * plc_data * world) (script_id : string)
  : option (gmap string result) * plc_data * world :=
  match acc.1.1 with
  | None => acc
  | Some results =>
      match scripts e !! script_id with
      | Some _ =>
          match execute_script script_id acc.1.2 e acc.2 with
          | (Some r, data, w) => (Some (<[script_id := r]> results), data, w)
          | (None, data, w) => (None, data, w)
          end
      | None => acc
      end
  end.

Definition execute_each (e : engine) (ids : list string)
    (acc : option (gmap string result) * plc_data * world)
  : option (gmap string result) * plc_data * world :=
  fold_left (step e) ids acc.

Definition execute_enabled_scripts (data : plc_data) (e : engine) (w : world)
  : option batch * plc_data * world :=
  match execute_each e (order (enabled_scripts e)) (Some ∅, data, w) with
  | (Some results, data, w) =>
      (Some {| results := results; gpio_states := get_pin_states w;
               memory_free := mem_free w; timestamp := ticks_ms w |}, data, w)
  | (None, data, w) => (None, data, w)
  end.

End Executor.

(** A call of [enable_script] or [disable_script]. *)
Inductive switch :=
| Enable (script_id : string)
| Disable (script_id : string).

Definition do_switch (c : switch) (e : engine) : engine :=
  match c with
  | Enable script_id => (enable_script script_id e).1
  | Disable script_id => (disable_script script_id e).1
  end.

Definition do_switches (cs : list switch) (e : engine) : engine :=
  fold_left (fun e c => do_switch c e) cs e.

End ESP32Executor.

(** ** The serial port of the configuration ([RaspberryPi/config.py]) *)

Module Config.

Definition port_patterns : list string :=
  ["/dev/ttyUSB*"; "/dev/ttyACM*"; "/dev/ttyAMA*"; "/dev/cu.usbserial*";
   "/dev/cu.SLAB_USBtoUART*"]%string.

(** [_auto_detect_serial_port]: [glob] is [glob.glob]; the result is
    [self.SERIAL_PORT] afterwards. *)
Definition _auto_detect_serial_port (glob : string -> list string)
    (SERIAL_PORT : string) : string :=
  let available_ports := flat_map glob port_patterns in
  match available_ports with
  | [] => SERIAL_PORT
  | first :: _ =>
      if bool_decide (SERIAL_PORT ∈ available_ports) then SERIAL_PORT else first
  end.

End Config.


(** ** The CRC as the specification words it *)

Module CrcSpec.

(** "XOR the byte into the low byte of the accumulator": the high part of
    the accumulator is kept, the low eight bits are XORed with the byte. *)
Definition xor_low_byte (acc byte : Z) : Z :=
  (acc / 256) * 256 + Z.lxor (acc mod 256) byte.

(** "If the low bit is set, shift right one and XOR with 0xA001, else
    shift right one." *)
Definition shift_step (acc : Z) : Z :=
  if Z.testbit acc 0 then Z.lxor (acc / 2) 0xA001 else acc / 2.

Fixpoint absorb (acc : Z) (data : list Z) : Z :=
  match data with
  | [] => acc
  | b :: rest => absorb (Nat.iter 8 shift_step (xor_low_byte acc b)) rest
  end.

(** "Initialize the accumulator to 0xFFFF." *)
Definition modbus_crc (data : list Z) : Z := absorb 0xFFFF data.

End CrcSpec.

(** ** Synthetic responses

    The frames a well-behaved slave answers with, as section 6 of the
    specification lays them out: slave id, function code, byte count, data,
    CRC low byte first.  Coil data is bit-packed least significant bit
    first; register data is big-endian. *)

Module Synthetic.

(** The byte whose bit [i] is the [i]-th element of [bs]. *)
Definition pack_byte (bs : list bool) : Z :=
  fold_right (fun b acc => 2 * acc + Z.b2z b) 0 bs.

(** Eight values per byte, the last byte padded with zero bits. *)
Definition pack_bits (values : list bool) : list Z :=
  map (fun j => pack_byte (map (fun i => nth (8 * j + i) values false) (seq 0 8)))
      (seq 0 ((length values + 7) / 8)).

Definition pack_registers (values : list Z) : list Z :=
  flat_map (fun v => [Z.shiftr v 8; Z.land v 255]) values.

Definition frame (slave_id function_code : Z) (payload : list Z) : list Z :=
  let body := [slave_id; function_code; Z.of_nat (length payload)] ++ payload in
  let crc := ModbusRTU.crc16 body in
  body ++ [Z.land crc 255; Z.shiftr crc 8].

(** A line that answers by the function code of the request. *)
Definition loopback (bits : list bool) (regs : list Z) : ModbusRTU.uart :=
  fun req =>
    match req with
    | slave_id :: function_code :: _ =>
        if function_code =? 0x03
        then Some (frame slave_id function_code (pack_registers regs))
        else Some (frame slave_id function_code (pack_bits bits))
    | _ => None
    end.

End Synthetic.

(** * Properties *)

(** ** Bit-level facts *)

Section Bits.

Lemma lxor_range (n a b : Z) :
  0 <= n -> 0 <= a < 2 ^ n -> 0 <= b < 2 ^ n -> 0 <= Z.lxor a b < 2 ^ n.
Proof.
  intros Hn Ha Hb.
  assert (H0 : 0 <= Z.lxor a b) by (apply Z.lxor_nonneg; split; intros; lia).
  split; [exact H0|].
  destruct (Z.eq_dec (Z.lxor a b) 0) as [->|Hne]; [lia|].
  assert (0 < n).
  { destruct (Z.eq_dec n 0) as [->|]; [|lia].
    change (2 ^ 0) with 1 in *.
    assert (a = 0) as -> by lia. assert (b = 0) as -> by lia.
    exfalso. apply Hne. reflexivity. }
  apply Z.log2_lt_pow2; [lia|].
  eapply Z.le_lt_trans; [apply Z.log2_lxor; lia|].
  apply Z.max_lub_lt.
  - destruct (Z.eq_dec a 0) as [->|]; [simpl; lia|apply Z.log2_lt_pow2; lia].
  - destruct (Z.eq_dec b 0) as [->|]; [simpl; lia|apply Z.log2_lt_pow2; lia].
Qed.

Lemma land_1_testbit (a : Z) : truthy_int (Z.land a 1) = Z.testbit a 0.
Proof.
  unfold truthy_int.
  change 1 with (Z.ones 1). rewrite Z.land_ones by lia.
  change (2 ^ 1) with 2. rewrite <- Z.bit0_mod.
  destruct (Z.testbit a 0); reflexivity.
Qed.

(** [byte & (1 << i)] is non-zero exactly when bit [i] of [byte] is set. *)
Lemma land_shiftl_testbit (a i : Z) :
  0 <= i -> truthy_int (Z.land a (Z.shiftl 1 i)) = Z.testbit a i.
Proof.
  intros Hi. unfold truthy_int.
  destruct (Z.testbit a i) eqn:Hb.
  - destruct (Z.eqb_spec (Z.land a (Z.shiftl 1 i)) 0) as [E|]; [|reflexivity].
    apply (f_equal (fun z => Z.testbit z i)) in E.
    rewrite Z.land_spec, Hb, Z.shiftl_spec, Z.sub_diag, Z.bits_0 in E by lia.
    discriminate.
  - destruct (Z.eqb_spec (Z.land a (Z.shiftl 1 i)) 0) as [|Hne]; [reflexivity|].
    exfalso. apply Hne. apply Z.bits_inj'. intros k Hk.
    rewrite Z.land_spec, Z.bits_0, Z.shiftl_spec by lia.
    destruct (Z.eq_dec k i) as [->|Hki].
    + rewrite Hb. reflexivity.
    + destruct (Z.ltb_spec k i).
      * rewrite (Z.testbit_neg_r 1) by lia. apply andb_false_r.
      * replace (k - i) with (Z.succ (k - i - 1)) by lia.
        change 1 with (2 * 0 + 1) at 1.
        rewrite Z.testbit_odd_succ by lia. rewrite Z.bits_0. apply andb_false_r.
Qed.

Lemma xor_low_byte_lxor (acc b : Z) :
  0 <= b < 256 -> CrcSpec.xor_low_byte acc b = Z.lxor acc b.
Proof.
  intros Hb. unfold CrcSpec.xor_low_byte.
  pose proof (Z.mod_pos_bound acc 256 ltac:(lia)) as Hm.
  pose proof (lxor_range 8 (acc mod 256) b ltac:(lia) Hm Hb) as Hy.
  change (2 ^ 8) with 256 in Hy.
  set (y := Z.lxor (acc mod 256) b) in *.
  apply Z.bits_inj'. intros n Hn.
  destruct (Z.ltb_spec n 8) as [Hlt|Hge].
  - rewrite <- (Z.mod_pow2_bits_low (acc / 256 * 256 + y) 8 n) by lia.
    change (2 ^ 8) with 256.
    rewrite Z.add_comm, Z.mod_add, (Z.mod_small y) by lia.
    unfold y. rewrite !Z.lxor_spec.
    change 256 with (2 ^ 8). rewrite Z.mod_pow2_bits_low by lia. reflexivity.
  - rewrite Z.lxor_spec.
    rewrite (Z.bits_above_log2 b) by
      (destruct (Z.eq_dec b 0) as [->|]; [simpl; lia|];
       assert (Z.log2 b < 8) by (apply Z.log2_lt_pow2; lia); lia).
    rewrite xorb_false_r.
    replace n with ((n - 8) + 8) by lia.
    rewrite <- (Z.div_pow2_bits (acc / 256 * 256 + y) 8 (n - 8)) by lia.
    rewrite <- (Z.div_pow2_bits acc 8 (n - 8)) by lia.
    f_equal. change (2 ^ 8) with 256.
    rewrite Z.div_add_l, (Z.div_small y) by lia. lia.
Qed.

End Bits.

(** ** The codec *)

Module CodecProps.
Import ModbusRTU.

Lemma crc_shift_step (acc : Z) : crc_shift acc = CrcSpec.shift_step acc.
Proof.
  unfold crc_shift, CrcSpec.shift_step.
  rewrite land_1_testbit, Z.shiftr_div_pow2 by lia.
  reflexivity.
Qed.

Lemma crc_shift_range (acc : Z) :
  0 <= acc < 65536 -> 0 <= crc_shift acc < 65536.
Proof.
  intros H. unfold crc_shift.
  assert (0 <= Z.shiftr acc 1 < 32768).
  { rewrite Z.shiftr_div_pow2 by lia. change (2 ^ 1) with 2.
    split; [apply Z.div_pos; lia|apply Z.div_lt_upper_bound; lia]. }
  destruct (truthy_int _); [|lia].
  apply (lxor_range 16); lia.
Qed.

Lemma crc_update_absorb (acc b : Z) :
  0 <= b < 256 ->
  crc_update acc b = Nat.iter 8 CrcSpec.shift_step (CrcSpec.xor_low_byte acc b).
Proof.
  intros Hb. unfold crc_update.
  rewrite xor_low_byte_lxor by exact Hb.
  simpl. rewrite !crc_shift_step. reflexivity.
Qed.

Lemma crc_update_range (acc b : Z) :
  0 <= acc < 65536 -> 0 <= b < 256 -> 0 <= crc_update acc b < 65536.
Proof.
  intros Ha Hb. unfold crc_update.
  assert (H : 0 <= Z.lxor acc b < 65536) by (apply (lxor_range 16); lia).
  revert H. generalize (Z.lxor acc b). intros c Hc. simpl.
  do 8 apply crc_shift_range. exact Hc.
Qed.

Lemma fold_crc_update_absorb (data : list Z) (acc : Z) :
  Forall (fun b => 0 <= b < 256) data ->
  fold_left crc_update data acc = CrcSpec.absorb acc data.
Proof.
  intros Hdata. revert acc.
  induction Hdata as [|b rest Hb _ IH]; intros acc; simpl.
  - reflexivity.
  - rewrite IH. f_equal. apply crc_update_absorb, Hb.
Qed.

Lemma fold_crc_update_range (data : list Z) (acc : Z) :
  Forall (fun b => 0 <= b < 256) data ->
  0 <= acc < 65536 -> 0 <= fold_left crc_update data acc < 65536.
Proof.
  intros Hdata. revert acc.
  induction Hdata as [|b rest Hb _ IH]; intros acc Hacc; simpl.
  - exact Hacc.
  - apply IH, crc_update_range; assumption.
Qed.

Lemma crc16_range (data : list Z) :
  Forall (fun b => 0 <= b < 256) data -> 0 <= crc16 data < 65536.
Proof.
  intros Hdata. unfold crc16. apply fold_crc_update_range; [exact Hdata|lia].
Qed.

(** C3.  On every byte sequence [crc16] is the CRC the specification
    describes -- accumulator started at 0xFFFF, each byte XORed into its
    low byte, then eight times: shifted right and XORed with 0xA001 when
    the low bit was set, only shifted right otherwise -- it stays a 16-bit
    value, and on [01 03 00 00 00 0A] it is 0xCDC5, the CRC of the standard
    Modbus frame [01 03 00 00 00 0A C5 CD]. *)
Theorem crc16_is_modbus_crc (data : list Z) :
  Forall (fun b => 0 <= b < 256) data ->
  crc16 data = CrcSpec.modbus_crc data
  /\ 0 <= crc16 data < 65536
  /\ crc16 [0x01; 0x03; 0x00; 0x00; 0x00; 0x0A] = 0xCDC5.
Proof.
  intros Hdata. unfold crc16, CrcSpec.modbus_crc. split; [|split].
  - apply fold_crc_update_absorb, Hdata.
  - apply fold_crc_update_range; [exact Hdata|lia].
  - vm_compute. reflexivity.
Qed.

Lemma crc16_is_modbus_crc_witness :
  Forall (fun b => 0 <= b < 256) [0x11; 0x03; 0x00; 0x6B; 0x00; 0x03]
  /\ crc16 [0x11; 0x03; 0x00; 0x6B; 0x00; 0x03]
     = CrcSpec.modbus_crc [0x11; 0x03; 0x00; 0x6B; 0x00; 0x03]
  /\ crc16 [0x11; 0x03; 0x00; 0x6B; 0x00; 0x03] = 0x8776.
Proof.
  assert (H : Forall (fun b => 0 <= b < 256) [0x11; 0x03; 0x00; 0x6B; 0x00; 0x03])
    by (repeat constructor; lia).
  split; [exact H|].
  split; [exact (proj1 (crc16_is_modbus_crc _ H))|].
  vm_compute. reflexivity.
Defined.

End CodecProps.

(** ** Decoding synthetic responses *)

Module RoundTrip.
Import ModbusRTU Synthetic.

Lemma testbit_pack_byte (bs : list bool) (i : nat) :
  Z.testbit (pack_byte bs) (Z.of_nat i) = nth i bs false.
Proof.
  revert i. induction bs as [|b bs IH]; intros i.
  - simpl. rewrite Z.bits_0. destruct i; reflexivity.
  - change (pack_byte (b :: bs)) with (2 * pack_byte bs + Z.b2z b).
    destruct i as [|i].
    + apply Z.testbit_0_r.
    + rewrite Nat2Z.inj_succ, Z.testbit_succ_r by lia. apply IH.
Qed.

(** One pass of the innermost loop body. *)
Definition append_bit (count byte_val : Z) (bits : list bool) (i : nat) :=
  if Z.of_nat (length bits) <? count
  then bits ++ [truthy_int (Z.land byte_val (Z.shiftl 1 (Z.of_nat i)))]
  else bits.

Lemma append_bit_take (values : list bool) (j i : nat) (byte_val : Z) :
  byte_val = pack_byte (map (fun i => nth (8 * j + i) values false) (seq 0 8)) ->
  (i < 8)%nat ->
  append_bit (Z.of_nat (length values)) byte_val (take (8 * j + i) values) i
  = take (8 * j + S i) values.
Proof.
  intros -> Hi. unfold append_bit.
  rewrite length_take.
  destruct (Z.of_nat _ <? Z.of_nat _) eqn:Hlt;
    [apply Z.ltb_lt in Hlt|apply Z.ltb_ge in Hlt].
  - rewrite land_shiftl_testbit, testbit_pack_byte by lia.
    assert (Hnth : nth i (map (fun i => nth (8 * j + i) values false) (seq 0 8)) false
                   = nth (8 * j + i) values false).
    { do 8 (destruct i as [|i]; [reflexivity|]). lia. }
    rewrite Hnth. replace (8 * j + S i)%nat with (S (8 * j + i)) by lia.
    symmetry. apply take_S_r.
    destruct (lookup_lt_is_Some_2 values (8 * j + i)) as [x Hx]; [lia|].
    rewrite (nth_lookup_Some _ _ false _ Hx). exact Hx.
  - rewrite !take_ge by lia. reflexivity.
Qed.

Lemma unpack_byte_take (values : list bool) (j : nat) (byte_val : Z) :
  byte_val = pack_byte (map (fun i => nth (8 * j + i) values false) (seq 0 8)) ->
  forall m i0 : nat, (i0 + m <= 8)%nat ->
  fold_left (append_bit (Z.of_nat (length values)) byte_val)
    (seq i0 m) (take (8 * j + i0) values)
  = take (8 * j + (i0 + m)) values.
Proof.
  intros HB. induction m as [|m IH]; intros i0 Hm.
  - rewrite Nat.add_0_r. reflexivity.
  - cbn [seq fold_left].
    rewrite (append_bit_take values j i0 byte_val HB) by lia.
    rewrite IH by lia. f_equal. lia.
Qed.

Lemma unpack_bytes_take (values : list bool) (k j0 : nat) :
  fold_left
    (fun bits byte_val =>
       fold_left (append_bit (Z.of_nat (length values)) byte_val) (seq 0 8) bits)
    (map (fun j => pack_byte (map (fun i => nth (8 * j + i) values false) (seq 0 8)))
         (seq j0 k))
    (take (8 * j0) values)
  = take (8 * (j0 + k)) values.
Proof.
  revert j0. induction k as [|k IH]; intros j0.
  - rewrite Nat.add_0_r. reflexivity.
  - change (seq j0 (S k)) with (j0 :: seq (S j0) k).
    rewrite map_cons. cbn [fold_left].
    replace (take (8 * j0) values) with (take (8 * j0 + 0) values)
      by (f_equal; lia).
    rewrite (unpack_byte_take values j0 _ eq_refl 8 0) by lia.
    replace (8 * j0 + (0 + 8))%nat with (8 * S j0)%nat by lia.
    rewrite IH. f_equal. lia.
Qed.

(** Unpacking what [pack_bits] packed gives the values back. *)
Lemma unpack_pack_bits (values : list bool) :
  unpack_bits (Z.of_nat (length values)) (pack_bits values) = values.
Proof.
  change (unpack_bits (Z.of_nat (length values)) (pack_bits values))
    with (fold_left
            (fun bits byte_val =>
               fold_left (append_bit (Z.of_nat (length values)) byte_val)
                         (seq 0 8) bits)
            (pack_bits values) (take (8 * 0) values)).
  unfold pack_bits. rewrite unpack_bytes_take.
  apply take_ge.
  pose proof (Nat.div_mod_eq (length values + 7) 8).
  pose proof (Nat.mod_upper_bound (length values + 7) 8). lia.
Qed.

Lemma length_pack_bits (values : list bool) :
  length (pack_bits values) = ((length values + 7) / 8)%nat.
Proof. unfold pack_bits. rewrite length_map, length_seq. reflexivity. Qed.

(** [(hi << 8) | lo] undoes the split into [v >> 8] and [v & 255]. *)
Lemma join_split_register (v : Z) :
  Z.lor (Z.shiftl (Z.shiftr v 8) 8) (Z.land v 255) = v.
Proof.
  apply Z.bits_inj'. intros n Hn.
  rewrite Z.lor_spec, Z.land_spec, Z.shiftl_spec by lia.
  change 255 with (Z.ones 8).
  destruct (Z.ltb_spec n 8).
  - rewrite Z.testbit_neg_r by lia. rewrite Z.ones_spec_low by lia.
    simpl. apply andb_true_r.
  - rewrite Z.shiftr_spec by lia. rewrite Z.ones_spec_high by lia.
    rewrite andb_false_r, orb_false_r. f_equal. lia.
Qed.

Lemma length_pack_registers (values : list Z) :
  length (pack_registers values) = (2 * length values)%nat.
Proof.
  unfold pack_registers.
  induction values as [|v values IH]; simpl; [reflexivity|]. rewrite IH. lia.
Qed.

Lemma lookup_past_two (A B C : list Z) (k : nat) :
  (A ++ B ++ C) !! (length A + length B + k)%nat = C !! k.
Proof.
  rewrite lookup_app_r by lia. rewrite lookup_app_r by lia. f_equal. lia.
Qed.

(** The register loop, started at register [length done], reads back the
    registers that follow. *)
Lemma join_registers (hd suf : list Z) (regs done : list Z) :
  length hd = 3%nat ->
  mapM (fun i =>
          hi ← (hd ++ pack_registers done ++ pack_registers regs ++ suf)
                 !! Z.to_nat (3 + i);
          lo ← (hd ++ pack_registers done ++ pack_registers regs ++ suf)
                 !! Z.to_nat (3 + i + 1);
          Some (Z.lor (Z.shiftl hi 8) lo))
       (map (fun k => 2 * Z.of_nat k) (seq (length done) (length regs)))
  = Some regs.
Proof.
  intros Hhd. revert done.
  induction regs as [|v regs IH]; intros done; [reflexivity|].
  cbn [length seq map mapM].
  replace (Z.to_nat (3 + 2 * Z.of_nat (length done)))
    with (length hd + length (pack_registers done) + 0)%nat
    by (rewrite length_pack_registers; lia).
  replace (Z.to_nat (3 + 2 * Z.of_nat (length done) + 1))
    with (length hd + length (pack_registers done) + 1)%nat
    by (rewrite length_pack_registers; lia).
  rewrite !lookup_past_two. cbn [pack_registers flat_map app lookup list_lookup].
  cbn [mbind option_bind]. rewrite join_split_register.
  specialize (IH (done ++ [v])).
  rewrite length_app in IH. cbn [length] in IH.
  replace (length done + 1)%nat with (S (length done)) in IH by lia.
  unfold pack_registers in IH. rewrite flat_map_app in IH.
  cbn [flat_map app] in IH. rewrite <- !app_assoc in IH. cbn [app] in IH.
  unfold pack_registers. rewrite IH. reflexivity.
Qed.

Lemma decode_bits_body (function_code slave_id c1 c2 : Z) (values : list bool) :
  decode_bits function_code slave_id (Z.of_nat (length values))
    (Some ([slave_id; function_code; Z.of_nat (length (pack_bits values))]
           ++ pack_bits values ++ [c1; c2]))
  = Some values.
Proof.
  unfold decode_bits.
  cbn [app length Nat.eqb negb andb lookup list_lookup mbind option_bind].
  rewrite length_app. cbn [length].
  destruct (Z.leb_spec 5 (Z.of_nat (S (S (S (length (pack_bits values) + 2))))));
    [|lia].
  rewrite !Z.eqb_refl. cbn [andb drop].
  rewrite !Nat2Z.id, drop_0, take_app_length, unpack_pack_bits.
  rewrite take_ge by lia. reflexivity.
Qed.

Lemma decode_registers_body (slave_id c1 c2 : Z) (regs : list Z) :
  decode_registers slave_id
    (Some ([slave_id; 0x03; Z.of_nat (length (pack_registers regs))]
           ++ pack_registers regs ++ [c1; c2]))
  = Some regs.
Proof.
  unfold decode_registers.
  cbn [app length Nat.eqb negb andb lookup list_lookup mbind option_bind].
  rewrite length_app, length_pack_registers. cbn [length].
  destruct (Z.leb_spec 5 (Z.of_nat (S (S (S (2 * length regs + 2))))));
    [|lia].
  rewrite !Z.eqb_refl. cbn [andb].
  destruct (Z.leb_spec (3 + Z.of_nat (2 * length regs) + 2)
              (Z.of_nat (S (S (S (2 * length regs + 2)))))); [|lia].
  unfold range_step2.
  replace (Z.to_nat ((Z.of_nat (2 * length regs) + 1) / 2)) with (length regs).
  2:{ replace (Z.of_nat (2 * length regs) + 1) with (1 + Z.of_nat (length regs) * 2)
        by lia.
      rewrite Z.div_add by lia. change (1 / 2) with 0. lia. }
  apply (join_registers [slave_id; 0x03; Z.of_nat (2 * length regs)] [c1; c2]
           regs []).
  reflexivity.
Qed.

Lemma to_bytes2_big_div_mod (n : Z) :
  0 <= n < 65536 -> to_bytes2_big n = Some [n / 256; n mod 256].
Proof.
  intros Hn. unfold to_bytes2_big.
  destruct (Z.leb_spec 0 n); [|lia]. destruct (Z.ltb_spec n 65536); [|lia].
  cbn [andb]. rewrite Z.shiftr_div_pow2 by lia.
  change 255 with (Z.ones 8). rewrite Z.land_ones by lia. reflexivity.
Qed.

Lemma to_bytes2_little_mod_div (n : Z) :
  0 <= n < 65536 -> to_bytes2_little n = Some [n mod 256; n / 256].
Proof.
  intros Hn. unfold to_bytes2_little.
  destruct (Z.leb_spec 0 n); [|lia]. destruct (Z.ltb_spec n 65536); [|lia].
  cbn [andb]. rewrite Z.shiftr_div_pow2 by lia.
  change 255 with (Z.ones 8). rewrite Z.land_ones by lia. reflexivity.
Qed.

Lemma bytearray_ok (l : list Z) : Forall (fun b => 0 <= b < 256) l -> bytearray l = Some l.
Proof.
  intros H. unfold bytearray.
  replace (forallb is_byte l) with true; [reflexivity|].
  symmetry. apply forallb_forall. intros x Hx.
  rewrite Forall_forall in H. specialize (H x). unfold is_byte.
  apply list_elem_of_In in Hx. specialize (H Hx). 
  apply andb_true_intro. split; [apply Z.leb_le|apply Z.ltb_lt]; lia.
Qed.

Lemma bind_Some {A B} (x : A) (f : A -> option B) : Some x ≫= f = f x.
Proof. reflexivity. Qed.

(** The bytes of a request, as the wire format lays them out. *)
Lemma build_request_layout (slave_id function_code start_addr count : Z) :
    0 <= slave_id < 256 -> 0 <= function_code < 256 ->
    0 <= start_addr < 65536 -> 0 <= count < 65536 ->
    let crc := crc16 [slave_id; function_code; start_addr / 256; start_addr mod 256;
                      count / 256; count mod 256] in
    build_request slave_id function_code start_addr count
    = Some [slave_id; function_code; start_addr / 256; start_addr mod 256;
            count / 256; count mod 256; crc mod 256; crc / 256].
Proof.
  intros Hs Hf Ha Hc crc.
  assert (Hcrc : 0 <= crc < 65536).
  { unfold crc. clear crc.
    pose proof (Z.mod_pos_bound start_addr 256).
    pose proof (Z.mod_pos_bound count 256).
    assert (0 <= start_addr / 256 < 256)
      by (split; [apply Z.div_pos; lia|apply Z.div_lt_upper_bound; lia]).
    assert (0 <= count / 256 < 256)
      by (split; [apply Z.div_pos; lia|apply Z.div_lt_upper_bound; lia]).
    apply CodecProps.crc16_range.
    repeat constructor; lia. }
  unfold build_request.
  rewrite bytearray_ok by (repeat constructor; lia).
  rewrite bind_Some.
  rewrite (to_bytes2_big_div_mod start_addr Ha), bind_Some.
  rewrite (to_bytes2_big_div_mod count Hc), bind_Some.
  cbv zeta. cbn [app]. fold crc.
  rewrite (to_bytes2_little_mod_div crc Hcrc), bind_Some.
  reflexivity.
Qed.

Lemma decode_bits_frame (function_code slave_id : Z) (values : list bool) :
  decode_bits function_code slave_id (Z.of_nat (length values))
    (Some (frame slave_id function_code (pack_bits values)))
  = Some values.
Proof.
  unfold frame. cbv zeta. rewrite <- app_assoc. apply decode_bits_body.
Qed.

Lemma decode_registers_frame (slave_id : Z) (regs : list Z) :
  decode_registers slave_id (Some (frame slave_id 0x03 (pack_registers regs)))
  = Some regs.
Proof.
  unfold frame. cbv zeta. rewrite <- app_assoc. apply decode_registers_body.
Qed.

(** C8.  For a count between 1 and 16 and values of that length, on a
    line that answers each read request with the well-formed frame for
    it, [read_coils] and [read_discrete_inputs] return exactly the
    booleans packed least significant bit first into the payload,
    [read_holding_registers] returns exactly the 16-bit integers written
    big-endian into the payload, and [build_request] is
    [slave][func][addr_hi][addr_lo][count_hi][count_lo][crc_lo][crc_hi]. *)
Theorem read_response_round_trip
    (u : uart) (slave_id start_addr count : Z) (bits : list bool) (regs : list Z) :
  1 <= count <= 16 ->
  0 <= slave_id < 256 ->
  0 <= start_addr < 65536 ->
  Z.of_nat (length bits) = count ->
  Z.of_nat (length regs) = count ->
  Forall (fun v => 0 <= v < 65536) regs ->
  (forall req, build_request slave_id 0x01 start_addr count = Some req ->
               u req = Some (frame slave_id 0x01 (pack_bits bits))) ->
  (forall req, build_request slave_id 0x02 start_addr count = Some req ->
               u req = Some (frame slave_id 0x02 (pack_bits bits))) ->
  (forall req, build_request slave_id 0x03 start_addr count = Some req ->
               u req = Some (frame slave_id 0x03 (pack_registers regs))) ->
  read_coils u slave_id start_addr count = Some bits
  /\ read_discrete_inputs u slave_id start_addr count = Some bits
  /\ read_holding_registers u slave_id start_addr count = Some regs
  /\ forall function_code, 0 <= function_code < 256 ->
       build_request slave_id function_code start_addr count
       = Some [slave_id; function_code;
               start_addr / 256; start_addr mod 256;
               count / 256; count mod 256;
               crc16 [slave_id; function_code;
                      start_addr / 256; start_addr mod 256;
                      count / 256; count mod 256] mod 256;
               crc16 [slave_id; function_code;
                      start_addr / 256; start_addr mod 256;
                      count / 256; count mod 256] / 256].
Proof.
  intros Hcount Hslave Haddr Hbits Hregs _ Hu1 Hu2 Hu3.
  assert (Hc : 0 <= count < 65536) by lia.
  pose proof (build_request_layout slave_id 0x01 start_addr count
                Hslave ltac:(lia) Haddr Hc) as Hr1.
  pose proof (build_request_layout slave_id 0x02 start_addr count
                Hslave ltac:(lia) Haddr Hc) as Hr2.
  pose proof (build_request_layout slave_id 0x03 start_addr count
                Hslave ltac:(lia) Haddr Hc) as Hr3.
  cbv zeta in Hr1, Hr2, Hr3.
  repeat split.
  - unfold read_coils. rewrite Hr1, bind_Some, (Hu1 _ Hr1), <- Hbits.
    apply decode_bits_frame.
  - unfold read_discrete_inputs. rewrite Hr2, bind_Some, (Hu2 _ Hr2), <- Hbits.
    apply decode_bits_frame.
  - unfold read_holding_registers. rewrite Hr3, bind_Some, (Hu3 _ Hr3).
    apply decode_registers_frame.
  - intros function_code Hf.
    exact (build_request_layout slave_id function_code start_addr count
             Hslave Hf Haddr Hc).
Qed.

Lemma read_response_round_trip_witness :
  read_coils (loopback [true; false; true] [0x1234; 0; 0xFFFF]) 1 0 3
    = Some [true; false; true]
  /\ read_holding_registers (loopback [true; false; true] [0x1234; 0; 0xFFFF]) 1 0 3
    = Some [0x1234; 0; 0xFFFF].
Proof.
  assert (H : forall fc, fc = 1 \/ fc = 2 \/ fc = 3 ->
            forall req, build_request 1 fc 0 3 = Some req ->
              loopback [true; false; true] [0x1234; 0; 0xFFFF] req
              = Some (frame 1 fc
                        (if fc =? 3 then pack_registers [0x1234; 0; 0xFFFF]
                         else pack_bits [true; false; true]))).
  { intros fc [-> | [-> | ->]] req Hreq; vm_compute in Hreq;
      injection Hreq as <-; reflexivity. }
  pose proof (read_response_round_trip
                (loopback [true; false; true] [0x1234; 0; 0xFFFF])
                1 0 3 [true; false; true] [0x1234; 0; 0xFFFF]
                ltac:(lia) ltac:(lia) ltac:(lia) eq_refl eq_refl
                ltac:(repeat constructor; lia)
                (H 1 ltac:(lia)) (H 2 ltac:(lia)) (H 3 ltac:(lia))) as [H1 [_ [H3 _]]].
  split; assumption.
Defined.

End RoundTrip.

(** ** Rejected and accepted responses *)

Module Boundary.
Import ModbusRTU.

(** A response whose first byte is not the slave id, or whose second byte
    is not the function code, is never decoded. *)
Lemma decode_bits_mismatch (function_code slave_id count : Z) (response : list Z) :
  response !! 0%nat ≠ Some slave_id \/ response !! 1%nat ≠ Some function_code ->
  decode_bits function_code slave_id count (Some response) = None.
Proof.
  intros Hne. unfold decode_bits.
  destruct (negb _ && _); [|reflexivity].
  destruct (response !! 0%nat) as [r0|]; [|reflexivity].
  destruct (response !! 1%nat) as [r1|]; [|reflexivity].
  cbn [mbind option_bind].
  destruct (Z.eqb_spec r0 slave_id) as [->|]; [|reflexivity].
  destruct (Z.eqb_spec r1 function_code) as [->|]; [|reflexivity].
  destruct Hne as [Hne|Hne]; contradiction Hne; reflexivity.
Qed.

Lemma decode_registers_mismatch (slave_id : Z) (response : list Z) :
  response !! 0%nat ≠ Some slave_id \/ response !! 1%nat ≠ Some 0x03 ->
  decode_registers slave_id (Some response) = None.
Proof.
  intros Hne. unfold decode_registers.
  destruct (negb _ && _); [|reflexivity].
  destruct (response !! 0%nat) as [r0|]; [|reflexivity].
  destruct (response !! 1%nat) as [r1|]; [|reflexivity].
  cbn [mbind option_bind].
  destruct (Z.eqb_spec r0 slave_id) as [->|]; [|reflexivity].
  destruct (Z.eqb_spec r1 0x03) as [->|]; [|reflexivity].
  destruct Hne as [Hne|Hne]; contradiction Hne; reflexivity.
Qed.

(** [read_holding_registers] checks the declared byte count against the
    received length: a frame shorter than [3 + byte_count + 2] is dropped. *)
Lemma decode_registers_short (slave_id byte_count : Z) (response : list Z) :
  response !! 2%nat = Some byte_count ->
  Z.of_nat (length response) < 3 + byte_count + 2 ->
  decode_registers slave_id (Some response) = None.
Proof.
  intros Hbc Hshort. unfold decode_registers.
  destruct (negb _ && _); [|reflexivity].
  destruct (response !! 0%nat) as [r0|]; [|reflexivity].
  destruct (response !! 1%nat) as [r1|]; [|reflexivity].
  cbn [mbind option_bind].
  destruct (_ && _); [|reflexivity].
  rewrite Hbc. cbn [mbind option_bind].
  destruct (Z.leb_spec (3 + byte_count + 2) (Z.of_nat (length response)));
    [lia|reflexivity].
Qed.

(** C2.  The five bytes [01 01 02 CD 6B] declare two data bytes, so the
    whole frame would be [3 + 2 + 2 = 7] bytes long.  [read_coils] and
    [read_discrete_inputs] have no length check: they decode the sixteen
    bits of [CD 6B]; with a declared byte count of four and thirty-two
    coils asked for, the same five bytes give a decode of sixteen values.
    [read_holding_registers], which has the check, answers [None]. *)
Theorem short_frame_is_decoded_by_bit_readers :
  Z.of_nat (length [0x01; 0x01; 0x02; 0xCD; 0x6B]) < 3 + 0x02 + 2
  /\ read_coils (fun _ => Some [0x01; 0x01; 0x02; 0xCD; 0x6B]) 1 0 16
     = Some [true; false; true; true; false; false; true; true;
             true; true; false; true; false; true; true; false]
  /\ read_discrete_inputs (fun _ => Some [0x01; 0x02; 0x02; 0xCD; 0x6B]) 1 0 16
     = Some [true; false; true; true; false; false; true; true;
             true; true; false; true; false; true; true; false]
  /\ read_coils (fun _ => Some [0x01; 0x01; 0x04; 0xCD; 0x6B]) 1 0 32
     = Some [true; false; true; true; false; false; true; true;
             true; true; false; true; false; true; true; false]
  /\ read_holding_registers (fun _ => Some [0x01; 0x03; 0x02; 0xCD; 0x6B]) 1 0 1
     = None.
Proof.
  repeat split; vm_compute; reflexivity.
Qed.

End Boundary.

(** ** One poll cycle of the ESP-32 bridge *)

Module BridgePoll.
Import ModbusRTU ESP32PLCBridge.

Section Cycle.
Context {R : Type}.
Variable u : uart.
Variable script_engine : option (plc_data R -> option R).
Variable now : Z.
Variable self : plc_data R.

(** The three reads of a cycle. *)
Definition inputs := read_discrete_inputs u DEVICE_ADDRESS 0 16.
Definition coils := read_coils u DEVICE_ADDRESS 0 16.
Definition registers := read_holding_registers u DEVICE_ADDRESS 0 10.

Definition after := (poll_plc_data (Some u) script_engine now self).1.
Definition returned := (poll_plc_data (Some u) script_engine now self).2.

Ltac run_cycle :=
  unfold after, returned, poll_plc_data;
  fold inputs; fold coils; fold registers;
  destruct (truthy inputs), (truthy coils), (truthy registers);
  destruct script_engine as [engine|];
  try (match goal with |- context [engine ?d] => destruct (engine d) end);
  reflexivity.

Lemma returned_spec :
  returned = truthy inputs || truthy coils || truthy registers.
Proof. run_cycle. Qed.

Lemma last_update_spec : last_update after = now.
Proof. run_cycle. Qed.

Lemma communication_errors_spec :
  communication_errors after
  = communication_errors self
    + (if truthy inputs || truthy coils || truthy registers then 0 else 1).
Proof.
  rewrite <- (Z.add_0_r (communication_errors self)) at 1.
  unfold after, returned, poll_plc_data;
  fold inputs; fold coils; fold registers;
  destruct (truthy inputs), (truthy coils), (truthy registers);
  destruct script_engine as [engine|];
  try (match goal with |- context [engine ?d] => destruct (engine d) end);
  cbn; lia.
Qed.

Lemma input_status_spec :
  input_status after
  = (if truthy inputs then status_dict "X" (default [] inputs) else input_status self)
  /\ digital_inputs after
     = (if truthy inputs then numbered_dict (default [] inputs)
        else digital_inputs self).
Proof. split; run_cycle. Qed.

Lemma coil_status_spec :
  coil_status after
  = (if truthy coils then status_dict "Y" (default [] coils) else coil_status self)
  /\ digital_outputs after
     = (if truthy coils then numbered_dict (default [] coils)
        else digital_outputs self).
Proof. split; run_cycle. Qed.

Lemma data_registers_spec :
  data_registers after
  = (if truthy registers then registers_dict (default [] registers)
     else data_registers self).
Proof. run_cycle. Qed.

End Cycle.

(** A line on which nothing answers. *)
Definition silent : uart := fun _ => None.

(** A line on which a slave answers every request with a frame that
    declares no data bytes: [slave, function, 00, crc, crc]. *)
Definition empty_frames : uart :=
  fun req =>
    match req with
    | slave_id :: function_code :: _ => Some (Synthetic.frame slave_id function_code [])
    | _ => None
    end.

(** The status dict right after [__init__], with one earlier reading of
    the inputs in it. *)
Definition earlier : plc_data unit :=
  {| connected := true; last_update := 0; communication_errors := 0;
     digital_inputs := {[1 := true]}; digital_outputs := ∅;
     input_status := {["X000"%string := true]}; coil_status := ∅;
     data_registers := ∅; stored_script_results := None |}.

End BridgePoll.

(** ** One poll cycle of the Raspberry Pi communicator *)

Module CommunicatorPoll.
Import PLCCommunicator.

Lemma new_dict_fresh (d : gmap string pyval) (self : communicator) :
  heap self !! (new_dict d self).1 = None.
Proof.
  unfold new_dict. cbn. apply not_elem_of_dom, is_fresh.
Qed.

Lemma init_wf (modbus_available : bool) (c : config) : wf (init modbus_available c).
Proof. intros []; unfold nested; cbn; eexists; reflexivity. Qed.

Section StoreRead.
Context {A : Type}.
Variable mk : list A -> gmap string pyval.
Variable r : read_result A.
Variable self : communicator.
Hypothesis Hwf : wf self.

Lemma store_read_ok (set : loc -> plc_status -> plc_status) :
  (store_read mk set r self).2 = negb (raises r).
Proof. destruct r; reflexivity. Qed.

Ltac other_group g' :=
  unfold nested; cbn;
  destruct (Hwf g') as [x Hx]; unfold nested in Hx; cbn in Hx;
  rewrite lookup_insert_ne; [reflexivity|];
  intros Heq; pose proof (new_dict_fresh ∅ self) as Hf;
  unfold new_dict in Hf; cbn in Hf; rewrite Heq in Hf; congruence.

Lemma store_read_coils (g : group) :
  nested g (store_read mk st_set_coil_status r self).1
  = match g, stored true r with
    | Coils, Some vals => Some (mk vals)
    | _, _ => nested g self
    end.
Proof.
  destruct r as [vals| |]; [|destruct g; reflexivity..].
  destruct g; [unfold nested; cbn; apply lookup_insert_eq| | |].
  - other_group Inputs.
  - other_group Registers.
  - other_group SystemInfo.
Qed.

Lemma store_read_inputs (g : group) :
  nested g (store_read mk st_set_input_status r self).1
  = match g, stored true r with
    | Inputs, Some vals => Some (mk vals)
    | _, _ => nested g self
    end.
Proof.
  destruct r as [vals| |]; [|destruct g; reflexivity..].
  destruct g; [|unfold nested; cbn; apply lookup_insert_eq| |].
  - other_group Coils.
  - other_group Registers.
  - other_group SystemInfo.
Qed.

Lemma store_read_registers (g : group) :
  nested g (store_read mk st_set_data_registers r self).1
  = match g, stored true r with
    | Registers, Some vals => Some (mk vals)
    | _, _ => nested g self
    end.
Proof.
  destruct r as [vals| |]; [|destruct g; reflexivity..].
  destruct g; [| |unfold nested; cbn; apply lookup_insert_eq|].
  - other_group Coils.
  - other_group Inputs.
  - other_group SystemInfo.
Qed.

End StoreRead.

Lemma store_read_wf {A} (mk : list A -> gmap string pyval) (r : read_result A)
    (self : communicator) :
  wf self ->
  wf (store_read mk st_set_coil_status r self).1
  /\ wf (store_read mk st_set_input_status r self).1
  /\ wf (store_read mk st_set_data_registers r self).1.
Proof.
  intros Hwf. repeat split; intros g.
  - rewrite (store_read_coils mk r self Hwf g).
    destruct g, (stored true r); eauto; apply Hwf.
  - rewrite (store_read_inputs mk r self Hwf g).
    destruct g, (stored true r); eauto; apply Hwf.
  - rewrite (store_read_registers mk r self Hwf g).
    destruct g, (stored true r); eauto; apply Hwf.
Qed.

Lemma store_read_scalars {A} (mk : list A -> gmap string pyval) (r : read_result A)
    (self : communicator) :
  scalars (store_read mk st_set_coil_status r self).1 = scalars self
  /\ scalars (store_read mk st_set_input_status r self).1 = scalars self
  /\ scalars (store_read mk st_set_data_registers r self).1 = scalars self.
Proof. destruct r; repeat split; reflexivity. Qed.

Section ReadGroups.
Variables coil_result input_result : read_result bool.
Variable register_result : read_result Z.
Variable self : communicator.
Hypothesis Hwf : wf self.
Hypothesis Havailable : MODBUS_AVAILABLE self = true.

(** The state after the coil read, and after the input read. *)
Let s1 := (store_read (bits_dict "Y") st_set_coil_status coil_result self).1.
Let s2 := (store_read (bits_dict "X") st_set_input_status input_result s1).1.
Let s3 := (store_read registers_dict st_set_data_registers register_result s2).1.

Lemma read_groups_steps :
  read_groups coil_result input_result register_result self
  = if raises coil_result then (s1, false)
    else if raises input_result then (s2, false)
    else (s3, negb (raises register_result)).
Proof.
  unfold read_groups. rewrite Havailable.
  pose proof (store_read_ok (bits_dict "Y") coil_result self st_set_coil_status) as H1.
  pose proof (store_read_ok (bits_dict "X") input_result s1 st_set_input_status) as H2.
  pose proof (store_read_ok registers_dict register_result s2 st_set_data_registers)
    as H3.
  unfold s3, s2, s1 in *.
  destruct (store_read (bits_dict "Y") st_set_coil_status coil_result self)
    as [t1 ok1]. cbn [fst snd] in *. subst ok1.
  destruct (raises coil_result); cbn [negb]; [reflexivity|].
  destruct (store_read (bits_dict "X") st_set_input_status input_result t1)
    as [t2 ok2]. cbn [fst snd] in *. subst ok2.
  destruct (raises input_result); cbn [negb]; [reflexivity|].
  destruct (store_read registers_dict st_set_data_registers register_result t2)
    as [t3 ok3]. cbn [fst snd] in *. subst ok3. reflexivity.
Qed.

Lemma read_groups_ok :
  (read_groups coil_result input_result register_result self).2
  = negb (raises coil_result) && negb (raises input_result)
    && negb (raises register_result).
Proof.
  rewrite read_groups_steps.
  destruct (raises coil_result), (raises input_result); reflexivity.
Qed.

Lemma read_groups_scalars :
  scalars (read_groups coil_result input_result register_result self).1
  = scalars self.
Proof.
  rewrite read_groups_steps.
  pose proof (store_read_scalars (bits_dict "Y") coil_result self) as [H1 _].
  pose proof (store_read_scalars (bits_dict "X") input_result s1) as [_ [H2 _]].
  pose proof (store_read_scalars registers_dict register_result s2) as [_ [_ H3]].
  fold s1 in H1. fold s2 in H2. fold s3 in H3.
  destruct (raises coil_result), (raises input_result); cbn [fst]; congruence.
Qed.

Lemma s1_wf : wf s1.
Proof. apply (store_read_wf (bits_dict "Y") coil_result self Hwf). Qed.

Lemma s2_wf : wf s2.
Proof. apply (store_read_wf (bits_dict "X") input_result s1 s1_wf). Qed.

Lemma read_groups_wf :
  wf (read_groups coil_result input_result register_result self).1.
Proof.
  rewrite read_groups_steps.
  destruct (raises coil_result); [exact s1_wf|].
  destruct (raises input_result); [exact s2_wf|].
  apply (store_read_wf registers_dict register_result s2 s2_wf).
Qed.

(** Each nested dict after the three reads: the dict built from the
    values of its own read when that read was reached and was not an
    error, the dict it was before otherwise. *)
Lemma read_groups_nested (g : group) :
  nested g (read_groups coil_result input_result register_result self).1
  = match g with
    | Coils =>
        match stored true coil_result with
        | Some vals => Some (bits_dict "Y" vals)
        | None => nested Coils self
        end
    | Inputs =>
        match stored (negb (raises coil_result)) input_result with
        | Some vals => Some (bits_dict "X" vals)
        | None => nested Inputs self
        end
    | Registers =>
        match stored (negb (raises coil_result) && negb (raises input_result))
                register_result with
        | Some vals => Some (registers_dict vals)
        | None => nested Registers self
        end
    | SystemInfo => nested SystemInfo self
    end.
Proof.
  rewrite read_groups_steps.
  pose proof (store_read_coils (bits_dict "Y") coil_result self Hwf) as H1.
  pose proof (store_read_inputs (bits_dict "X") input_result s1 s1_wf) as H2.
  pose proof (store_read_registers registers_dict register_result s2 s2_wf) as H3.
  fold s1 in H1. fold s2 in H2. fold s3 in H3.
  destruct (raises coil_result) eqn:R1; cbn [fst negb andb].
  - rewrite H1. destruct g, coil_result; try discriminate; reflexivity.
  - destruct (raises input_result) eqn:R2; cbn [fst negb andb].
    + rewrite H2, H1.
      destruct g, coil_result, input_result; try discriminate; reflexivity.
    + rewrite H3, H2, H1.
      destruct g, coil_result, input_result, register_result;
        try discriminate; reflexivity.
Qed.

End ReadGroups.

Lemma scalars_fields (a b : communicator) :
  scalars a = scalars b ->
  last_update a = last_update b
  /\ st_last_update (status a) = st_last_update (status b)
  /\ st_communication_errors (status a) = st_communication_errors (status b).
Proof. unfold scalars. intros H. injection H. intros. auto. Qed.

Section PollData.
Variables coil_result input_result : read_result bool.
Variable register_result : read_result Z.
Variable draws : sim_draws.
Variable now_iso : string.
Variable now : Q.
Variable self : communicator.
Variable c : client_obj.
Hypothesis Hwf : wf self.
Hypothesis Havailable : MODBUS_AVAILABLE self = true.
Hypothesis Hconnected : connected self = true.
Hypothesis Hreal : simulation_mode self = false.
Hypothesis Hclient : client self = Some c.

Let groups := read_groups coil_result input_result register_result self.
Let polled := poll_data coil_result input_result register_result draws now_iso now self.

Lemma poll_data_entered :
  polled
  = if groups.2
    then (set_last_update now (with_status (st_set_last_update now_iso) groups.1), true)
    else (with_status st_incr_communication_errors groups.1, false).
Proof.
  unfold polled, poll_data, groups. rewrite Hconnected, Hreal, Hclient. cbn [negb present].
  destruct (read_groups coil_result input_result register_result self) as [t ok].
  reflexivity.
Qed.

Lemma poll_data_returned :
  polled.2 = negb (raises coil_result) && negb (raises input_result)
             && negb (raises register_result).
Proof.
  rewrite poll_data_entered.
  rewrite <- (read_groups_ok coil_result input_result register_result self Havailable).
  fold groups. destruct groups.2; reflexivity.
Qed.

Lemma poll_data_last_update :
  last_update polled.1 = (if polled.2 then Some now else last_update self)
  /\ st_last_update (status polled.1)
     = (if polled.2 then Some now_iso else st_last_update (status self)).
Proof.
  rewrite poll_data_entered.
  destruct (scalars_fields _ _
              (read_groups_scalars coil_result input_result register_result self
                 Havailable)) as [H1 [H2 _]].
  fold groups in H1, H2.
  destruct groups.2; cbn; auto.
Qed.

Lemma poll_data_errors :
  st_communication_errors (status polled.1)
  = st_communication_errors (status self) + (if polled.2 then 0 else 1).
Proof.
  rewrite poll_data_entered.
  destruct (scalars_fields _ _
              (read_groups_scalars coil_result input_result register_result self
                 Havailable)) as [_ [_ H3]].
  fold groups in H3.
  destruct groups.2; cbn; lia.
Qed.

Lemma poll_data_nested (g : group) :
  nested g polled.1 = nested g groups.1.
Proof.
  rewrite poll_data_entered. destruct groups.2, g; reflexivity.
Qed.

End PollData.

(** Outside a connected, real session nothing is read and nothing changes. *)
Lemma poll_data_not_entered
    (cr ir : read_result bool) (rr : read_result Z) (draws : sim_draws)
    (now_iso : string) (now : Q) (self : communicator) :
  connected self = false \/ (simulation_mode self = false /\ client self = None) ->
  poll_data cr ir rr draws now_iso now self = (self, false).
Proof.
  unfold poll_data. intros [->|[-> ->]]; [reflexivity|].
  destruct (connected self); reflexivity.
Qed.

End CommunicatorPoll.

(** ** What a poll cycle returns, stamps, replaces and counts *)

Module PollClaims.
Import ModbusRTU ESP32PLCBridge PLCCommunicator.

(** A serial configuration, and the communicator after a successful
    [connect()] under it. *)
Definition serial_config : config :=
  {| SIMULATION_MODE := false; CONNECTION_TYPE := "Serial";
     MODBUS_METHOD := "rtu"; BAUD_RATE := 9600; DEVICE_ADDRESS := 1;
     POLL_INTERVAL := 1 |}.

Definition running : communicator :=
  (connect (ConnectReturns true) (init true serial_config)).1.

Definition no_draws : sim_draws :=
  {| rnd_input := fun _ => false; rnd_coil := fun _ => false;
     sine_register := 0; pressure_register := 0; rnd_register := fun _ => 0 |}.

Lemma running_wf : wf running.
Proof. intros []; eexists; reflexivity. Qed.

Definition succeeded {A} (r : read_result A) : bool :=
  match r with
  | ReadOk _ => true
  | _ => false
  end.

(** *** The claims as the specification states them *)

(** "Returns true iff at least one group succeeded; [last_update] is set
    only when [poll()] returns true", for the bridge and for the
    communicator. *)
Definition bridge_returns_iff_some_group
    (u : uart) (now : Z) (self : plc_data unit) : Prop :=
  let p := poll_plc_data (Some u) None now self in
  (p.2 = true <->
     is_Some (BridgePoll.inputs u) \/ is_Some (BridgePoll.coils u)
     \/ is_Some (BridgePoll.registers u))
  /\ (ESP32PLCBridge.last_update p.1 ≠ ESP32PLCBridge.last_update self -> p.2 = true).

Definition communicator_returns_iff_some_group
    (cr ir : read_result bool) (rr : read_result Z)
    (now_iso : string) (now : Q) (self : communicator) : Prop :=
  let p := poll_data cr ir rr no_draws now_iso now self in
  (p.2 = true <-> succeeded cr = true \/ succeeded ir = true \/ succeeded rr = true)
  /\ (PLCCommunicator.last_update p.1 ≠ PLCCommunicator.last_update self -> p.2 = true).

(** "If the read fails (null decode) the mapping is left as it was; if it
    succeeds the mapping is replaced as a whole", for the inputs of the
    bridge. *)
Definition bridge_inputs_kept_or_replaced
    (u : uart) (now : Z) (self : plc_data unit) : Prop :=
  let p := poll_plc_data (Some u) None now self in
  (BridgePoll.inputs u = None -> input_status p.1 = input_status self)
  /\ (forall vals, BridgePoll.inputs u = Some vals ->
        input_status p.1 = status_dict "X" vals).

(** "A cycle in which k groups fail increases the counter by k." *)
Definition failed {A} (r : option A) : Z :=
  match r with
  | None => 1
  | Some _ => 0
  end.

Definition bridge_counts_failed_groups
    (u : uart) (now : Z) (self : plc_data unit) : Prop :=
  let p := poll_plc_data (Some u) None now self in
  communication_errors p.1
  = communication_errors self
    + failed (BridgePoll.inputs u) + failed (BridgePoll.coils u)
    + failed (BridgePoll.registers u).

Definition communicator_counts_failed_groups
    (cr ir : read_result bool) (rr : read_result Z)
    (now_iso : string) (now : Q) (self : communicator) : Prop :=
  let p := poll_data cr ir rr no_draws now_iso now self in
  st_communication_errors (status p.1)
  = st_communication_errors (status self)
    + Z.b2z (negb (succeeded cr)) + Z.b2z (negb (succeeded ir))
    + Z.b2z (negb (succeeded rr)).

(** *** C1 *)

Lemma silent_poll_returns_false :
  (poll_plc_data (Some BridgePoll.silent) None 100 BridgePoll.earlier).2 = false.
Proof. vm_compute. reflexivity. Qed.

Lemma silent_poll_stamps :
  ESP32PLCBridge.last_update
    (poll_plc_data (Some BridgePoll.silent) None 100 BridgePoll.earlier).1
  ≠ ESP32PLCBridge.last_update BridgePoll.earlier.
Proof. vm_compute. discriminate. Qed.

Lemma error_poll_returns_true :
  (poll_data ReadError ReadError ReadError no_draws "2025-01-01T00:00:00" 100
     running).2 = true.
Proof. vm_compute. reflexivity. Qed.

(** C1, as stated, fails.  On a silent line the bridge returns false and
    still stamps [last_update]; with three Modbus error results the
    communicator returns true although no group succeeded. *)
Lemma poll_true_iff_group_succeeded_fails :
  ~ bridge_returns_iff_some_group BridgePoll.silent 100 BridgePoll.earlier
  /\ ~ communicator_returns_iff_some_group ReadError ReadError ReadError
         "2025-01-01T00:00:00" 100 running.
Proof.
  split.
  - intros [_ H]. specialize (H silent_poll_stamps).
    rewrite silent_poll_returns_false in H. discriminate H.
  - intros [[H _] _].
    destruct (H error_poll_returns_true) as [H1|[H1|H1]]; discriminate H1.
Qed.

(** C1, amended.  The bridge, when it has a UART, returns true exactly
    when one of the three reads gave a non-empty list, and stamps
    [last_update] with the current time in every such cycle, whatever it
    returns; without a UART it returns false and changes nothing.  The
    communicator, connected to a real client, returns true exactly when no
    read raised -- Modbus error results included -- and both of its
    [last_update] fields are set to the current time exactly in the cycles
    that return true. *)
Theorem poll_return_and_last_update
    (u : uart) (engine : option (plc_data unit -> option unit)) (t : Z)
    (d : plc_data unit)
    (cr ir : read_result bool) (rr : read_result Z) (draws : sim_draws)
    (now_iso : string) (now : Q) (self : communicator) (c : client_obj) :
  MODBUS_AVAILABLE self = true ->
  PLCCommunicator.connected self = true ->
  simulation_mode self = false ->
  client self = Some c ->
  (poll_plc_data (Some u) engine t d).2
    = truthy (BridgePoll.inputs u) || truthy (BridgePoll.coils u)
      || truthy (BridgePoll.registers u)
  /\ ESP32PLCBridge.last_update (poll_plc_data (Some u) engine t d).1 = t
  /\ poll_plc_data None engine t d = (d, false)
  /\ (poll_data cr ir rr draws now_iso now self).2
     = negb (raises cr) && negb (raises ir) && negb (raises rr)
  /\ PLCCommunicator.last_update (poll_data cr ir rr draws now_iso now self).1
     = (if (poll_data cr ir rr draws now_iso now self).2
        then Some now else PLCCommunicator.last_update self)
  /\ st_last_update (status (poll_data cr ir rr draws now_iso now self).1)
     = (if (poll_data cr ir rr draws now_iso now self).2
        then Some now_iso else st_last_update (status self)).
Proof.
  intros Havailable Hconnected Hreal Hclient.
  split; [exact (BridgePoll.returned_spec u engine t d)|].
  split; [exact (BridgePoll.last_update_spec u engine t d)|].
  split; [reflexivity|].
  split.
  - exact (CommunicatorPoll.poll_data_returned cr ir rr draws now_iso now self c
             Havailable Hconnected Hreal Hclient).
  - exact (CommunicatorPoll.poll_data_last_update cr ir rr draws now_iso now self c
             Havailable Hconnected Hreal Hclient).
Qed.

Lemma poll_return_and_last_update_witness :
  (MODBUS_AVAILABLE running = true
   /\ PLCCommunicator.connected running = true
   /\ simulation_mode running = false
   /\ client running = Some ModbusSerialClient)
  /\ ESP32PLCBridge.last_update
       (poll_plc_data (Some BridgePoll.silent) None 100 BridgePoll.earlier).1 = 100
  /\ (poll_data ReadError ReadError ReadError no_draws "2025-01-01T00:00:00" 100
        running).2
     = negb (raises (@ReadError bool)) && negb (raises (@ReadError bool))
       && negb (raises (@ReadError Z)).
Proof.
  split; [repeat split|].
  pose proof (poll_return_and_last_update BridgePoll.silent None 100
                BridgePoll.earlier ReadError ReadError ReadError no_draws
                "2025-01-01T00:00:00" 100 running ModbusSerialClient
                eq_refl eq_refl eq_refl eq_refl) as [_ [H2 [_ [H4 _]]]].
  split; [exact H2|exact H4].
Defined.

(** *** C4 *)

Lemma empty_frames_inputs : BridgePoll.inputs BridgePoll.empty_frames = Some [].
Proof. vm_compute. reflexivity. Qed.

Lemma empty_frames_keep_inputs :
  input_status
    (poll_plc_data (Some BridgePoll.empty_frames) None 100 BridgePoll.earlier).1
    !! "X000"%string = Some true.
Proof. vm_compute. reflexivity. Qed.

(** C4, as stated, fails.  A frame [01 02 00 crc crc] is decoded by
    [read_discrete_inputs] to the empty list, which is not [None]; the
    poll tests [if inputs:] and leaves the earlier mapping in place instead
    of replacing it by the (empty) mapping of the decode. *)
Lemma inputs_kept_or_replaced_fails :
  ~ bridge_inputs_kept_or_replaced BridgePoll.empty_frames 100 BridgePoll.earlier.
Proof.
  intros [_ H]. specialize (H [] empty_frames_inputs).
  pose proof empty_frames_keep_inputs as Hkept.
  rewrite H in Hkept. discriminate Hkept.
Qed.

(** C4, amended.  In a cycle of the bridge a group whose read gave [None]
    or an empty list keeps its mappings exactly, and a group whose read gave
    a non-empty list has its mappings replaced by the ones built from that
    list alone.  In a cycle of the communicator a group whose read gave a
    Modbus error, raised, or was not made because an earlier read raised
    keeps its dict exactly, and a group whose read gave a result that is not
    an error has its dict replaced by the one built from the values of the
    result alone.  No other outcome exists: a mapping is never a mixture of
    old and new entries. *)
Theorem group_kept_or_replaced
    (u : uart) (engine : option (plc_data unit -> option unit)) (t : Z)
    (d : plc_data unit)
    (cr ir : read_result bool) (rr : read_result Z) (draws : sim_draws)
    (now_iso : string) (now : Q) (self : communicator) (c : client_obj) :
  wf self ->
  MODBUS_AVAILABLE self = true ->
  PLCCommunicator.connected self = true ->
  simulation_mode self = false ->
  client self = Some c ->
  (input_status (poll_plc_data (Some u) engine t d).1
   = (if truthy (BridgePoll.inputs u)
      then status_dict "X" (default [] (BridgePoll.inputs u))
      else input_status d)
   /\ digital_inputs (poll_plc_data (Some u) engine t d).1
      = (if truthy (BridgePoll.inputs u)
         then numbered_dict (default [] (BridgePoll.inputs u))
         else digital_inputs d))
  /\ (ESP32PLCBridge.coil_status (poll_plc_data (Some u) engine t d).1
      = (if truthy (BridgePoll.coils u)
         then status_dict "Y" (default [] (BridgePoll.coils u))
         else ESP32PLCBridge.coil_status d)
      /\ digital_outputs (poll_plc_data (Some u) engine t d).1
         = (if truthy (BridgePoll.coils u)
            then numbered_dict (default [] (BridgePoll.coils u))
            else digital_outputs d))
  /\ data_registers (poll_plc_data (Some u) engine t d).1
     = (if truthy (BridgePoll.registers u)
        then ESP32PLCBridge.registers_dict (default [] (BridgePoll.registers u))
        else data_registers d)
  /\ nested Coils (poll_data cr ir rr draws now_iso now self).1
     = match stored true cr with
       | Some vals => Some (bits_dict "Y" vals)
       | None => nested Coils self
       end
  /\ nested Inputs (poll_data cr ir rr draws now_iso now self).1
     = match stored (negb (raises cr)) ir with
       | Some vals => Some (bits_dict "X" vals)
       | None => nested Inputs self
       end
  /\ nested Registers (poll_data cr ir rr draws now_iso now self).1
     = match stored (negb (raises cr) && negb (raises ir)) rr with
       | Some vals => Some (PLCCommunicator.registers_dict vals)
       | None => nested Registers self
       end.
Proof.
  intros Hwf Havailable Hconnected Hreal Hclient.
  split; [exact (BridgePoll.input_status_spec u engine t d)|].
  split; [exact (BridgePoll.coil_status_spec u engine t d)|].
  split; [exact (BridgePoll.data_registers_spec u engine t d)|].
  pose proof (CommunicatorPoll.poll_data_nested cr ir rr draws now_iso now self c
                Hconnected Hreal Hclient) as Hq.
  pose proof (CommunicatorPoll.read_groups_nested cr ir rr self Hwf Havailable)
    as Hg.
  cbv zeta in Hq.
  split; [rewrite (Hq Coils); exact (Hg Coils)|].
  split; [rewrite (Hq Inputs); exact (Hg Inputs)|].
  rewrite (Hq Registers); exact (Hg Registers).
Qed.

Lemma group_kept_or_replaced_witness :
  (wf running
   /\ MODBUS_AVAILABLE running = true
   /\ PLCCommunicator.connected running = true
   /\ simulation_mode running = false
   /\ client running = Some ModbusSerialClient)
  /\ nested Coils
       (poll_data (ReadOk [true; false]) ReadRaises (ReadOk [7]) no_draws
          "2025-01-01T00:00:00" 100 running).1
     = match stored true (ReadOk [true; false]) with
       | Some vals => Some (bits_dict "Y" vals)
       | None => nested Coils running
       end
  /\ nested Registers
       (poll_data (ReadOk [true; false]) ReadRaises (ReadOk [7]) no_draws
          "2025-01-01T00:00:00" 100 running).1
     = match stored (negb (raises (ReadOk [true; false]))
                     && negb (raises (@ReadRaises bool))) (ReadOk [7]) with
       | Some vals => Some (PLCCommunicator.registers_dict vals)
       | None => nested Registers running
       end.
Proof.
  split; [split; [exact running_wf|repeat split]|].
  pose proof (group_kept_or_replaced BridgePoll.silent None 100 BridgePoll.earlier
                (ReadOk [true; false]) ReadRaises (ReadOk [7]) no_draws
                "2025-01-01T00:00:00" 100 running ModbusSerialClient
                running_wf eq_refl eq_refl eq_refl eq_refl)
    as [_ [_ [_ [H1 [_ H3]]]]].
  split; [exact H1|exact H3].
Defined.

(** *** C5 *)

Lemma silent_poll_counts_once :
  communication_errors
    (poll_plc_data (Some BridgePoll.silent) None 100 BridgePoll.earlier).1 = 1.
Proof. vm_compute. reflexivity. Qed.

Lemma silent_poll_fails_thrice :
  communication_errors BridgePoll.earlier
  + failed (BridgePoll.inputs BridgePoll.silent)
  + failed (BridgePoll.coils BridgePoll.silent)
  + failed (BridgePoll.registers BridgePoll.silent) = 3.
Proof. vm_compute. reflexivity. Qed.

Lemma error_poll_counts_nothing :
  st_communication_errors
    (status (poll_data ReadError ReadError ReadError no_draws
               "2025-01-01T00:00:00" 100 running).1) = 0.
Proof. vm_compute. reflexivity. Qed.

(** C5, as stated, fails.  On a silent line all three groups of the
    bridge fail and the counter goes up by one, not by three; three Modbus
    error results leave the counter of the communicator where it was. *)
Lemma counter_counts_failed_groups_fails :
  ~ bridge_counts_failed_groups BridgePoll.silent 100 BridgePoll.earlier
  /\ ~ communicator_counts_failed_groups ReadError ReadError ReadError
         "2025-01-01T00:00:00" 100 running.
Proof.
  split.
  - unfold bridge_counts_failed_groups. cbv zeta.
    rewrite silent_poll_counts_once, silent_poll_fails_thrice. discriminate.
  - unfold communicator_counts_failed_groups. cbv zeta.
    rewrite error_poll_counts_nothing. vm_compute. discriminate.
Qed.

(** C5, amended.  A cycle of the bridge adds one to
    [communication_errors] when all three reads gave [None] or an empty
    list, and nothing when at least one gave a non-empty list.  A cycle of
    the communicator adds one when a read raised -- the reads after it are
    then not made -- and nothing otherwise, Modbus error results
    included.  No cycle adds more than one. *)
Theorem counter_counts_failed_cycles
    (u : uart) (engine : option (plc_data unit -> option unit)) (t : Z)
    (d : plc_data unit)
    (cr ir : read_result bool) (rr : read_result Z) (draws : sim_draws)
    (now_iso : string) (now : Q) (self : communicator) (c : client_obj) :
  MODBUS_AVAILABLE self = true ->
  PLCCommunicator.connected self = true ->
  simulation_mode self = false ->
  client self = Some c ->
  communication_errors (poll_plc_data (Some u) engine t d).1
  = communication_errors d
    + (if truthy (BridgePoll.inputs u) || truthy (BridgePoll.coils u)
          || truthy (BridgePoll.registers u)
       then 0 else 1)
  /\ st_communication_errors (status (poll_data cr ir rr draws now_iso now self).1)
     = st_communication_errors (status self)
       + (if raises cr || raises ir || raises rr then 1 else 0).
Proof.
  intros Havailable Hconnected Hreal Hclient.
  split; [exact (BridgePoll.communication_errors_spec u engine t d)|].
  pose proof (CommunicatorPoll.poll_data_errors cr ir rr draws now_iso now self c
                Havailable Hconnected Hreal Hclient) as He.
  pose proof (CommunicatorPoll.poll_data_returned cr ir rr draws now_iso now self c
                Havailable Hconnected Hreal Hclient) as Hr.
  cbv zeta in He, Hr. rewrite He, Hr.
  destruct (raises cr), (raises ir), (raises rr); reflexivity.
Qed.

Lemma counter_counts_failed_cycles_witness :
  (MODBUS_AVAILABLE running = true
   /\ PLCCommunicator.connected running = true
   /\ simulation_mode running = false
   /\ client running = Some ModbusSerialClient)
  /\ st_communication_errors
       (status (poll_data (ReadOk [true]) ReadRaises ReadError no_draws
                  "2025-01-01T00:00:00" 100 running).1)
     = st_communication_errors (status running)
       + (if raises (ReadOk [true]) || raises (@ReadRaises bool)
             || raises (@ReadError Z)
          then 1 else 0).
Proof.
  split; [repeat split|].
  exact (proj2 (counter_counts_failed_cycles BridgePoll.silent None 100
                  BridgePoll.earlier (ReadOk [true]) ReadRaises ReadError no_draws
                  "2025-01-01T00:00:00" 100 running ModbusSerialClient
                  eq_refl eq_refl eq_refl eq_refl)).
Defined.

End PollClaims.

(** ** Snapshots handed out by [get_status] *)

Module Snapshots.
Import PLCCommunicator.

(** Two views agree on every field but [data_age_seconds]. *)
Definition same_except_age (a b : status_view) : Prop :=
  v_connected a = v_connected b
  /\ v_last_update a = v_last_update b
  /\ v_communication_errors a = v_communication_errors b
  /\ v_data_registers a = v_data_registers b
  /\ v_coil_status a = v_coil_status b
  /\ v_input_status a = v_input_status b
  /\ v_system_info a = v_system_info b
  /\ v_data_fresh a = v_data_fresh b.

(** Two views agree on every field but [data_age_seconds] and
    [data_fresh]. *)
Definition same_except_derived (a b : status_view) : Prop :=
  v_connected a = v_connected b
  /\ v_last_update a = v_last_update b
  /\ v_communication_errors a = v_communication_errors b
  /\ v_data_registers a = v_data_registers b
  /\ v_coil_status a = v_coil_status b
  /\ v_input_status a = v_input_status b
  /\ v_system_info a = v_system_info b.

(** "Calling [get_status()] twice with no poll in between returns
    snapshots identical except for [data_age_seconds]." *)
Definition two_calls_agree (now1 now2 : Q) (self : communicator) : Prop :=
  let first := get_status now1 self in
  let second := get_status now2 first.1 in
  same_except_age (view second.1 first.2) (view second.1 second.2).

(** "Mutating the returned snapshot does not change what a later
    [get_status()] returns." *)
Definition snapshot_is_detached
    (now1 now2 : Q) (m : mutation) (self : communicator) : Prop :=
  let first := get_status now1 self in
  let touched := mutate m first.2 first.1 in
  let later := get_status now2 touched.2 in
  let untouched := get_status now2 first.1 in
  view later.1 later.2 = view untouched.1 untouched.2.

(** The communicator of [PollClaims.running] after one cycle at time 100;
    its poll interval is one second. *)
Definition polled_at_100 : communicator :=
  (poll_data ReadError ReadError ReadError PollClaims.no_draws
     "2025-01-01T00:00:00" 100 PollClaims.running).1.

Definition tamper : mutation :=
  StoreNested st_system_info "plc_model" (VStr "tampered").

Lemma fresh_then_stale :
  v_data_fresh (view (get_status 103 (get_status 101 polled_at_100).1).1
                  (get_status 101 polled_at_100).2) = Some true
  /\ v_data_fresh (view (get_status 103 (get_status 101 polled_at_100).1).1
                     (get_status 103 (get_status 101 polled_at_100).1).2)
     = Some false.
Proof. split; vm_compute; reflexivity. Qed.

Lemma tampered_model_is_served :
  (v_system_info
     (view (get_status 103 (mutate tamper (get_status 101 polled_at_100).2
                              (get_status 101 polled_at_100).1).2).1
           (get_status 103 (mutate tamper (get_status 101 polled_at_100).2
                              (get_status 101 polled_at_100).1).2).2)
   ≫= fun d => d !! "plc_model"%string) = Some (VStr "tampered")
  /\ (v_system_info
        (view (get_status 103 (get_status 101 polled_at_100).1).1
              (get_status 103 (get_status 101 polled_at_100).1).2)
      ≫= fun d => d !! "plc_model"%string) = Some (VStr "AutomationDirect CLICK").
Proof. split; vm_compute; reflexivity. Qed.

(** C6, as stated, fails twice.  One second after the poll the snapshot
    says [data_fresh = True], three seconds after it says [False]: the two
    snapshots differ in a field other than [data_age_seconds].  And a store
    into the [system_info] dict of a returned snapshot is what the next
    [get_status()] returns, because the copy is shallow. *)
Lemma get_status_idempotent_detached_fails :
  ~ two_calls_agree 101 103 polled_at_100
  /\ ~ snapshot_is_detached 101 103 tamper polled_at_100.
Proof.
  split.
  - intros (_ & _ & _ & _ & _ & _ & _ & H).
    destruct fresh_then_stale as [H1 H2].
    cbv zeta in H. rewrite H1, H2 in H. discriminate H.
  - intros H. unfold snapshot_is_detached in H. cbv zeta in H.
    destruct tampered_model_is_served as [H1 H2].
    rewrite H in H1. rewrite H2 in H1. discriminate H1.
Qed.

(** C6, amended.  Two calls of [get_status()] with no poll in between
    return snapshots that agree on every field except [data_age_seconds]
    and [data_fresh]; the call leaves the store of nested dicts as it was.
    The snapshot is a copy of the top level of the live status: rebinding
    its keys leaves the communicator as it is.  Its nested dicts are the
    live ones: a store into one of them is a store into the dict the
    communicator serves. *)
Theorem get_status_twice_and_copy
    (now1 now2 : Q) (self : communicator)
    (f : plc_status -> plc_status) (g : group) (key : string) (v : pyval) :
  same_except_derived
    (view (get_status now2 (get_status now1 self).1).1 (get_status now1 self).2)
    (view (get_status now2 (get_status now1 self).1).1
       (get_status now2 (get_status now1 self).1).2)
  /\ heap (get_status now1 self).1 = heap self
  /\ (get_status now1 self).2 = status (get_status now1 self).1
  /\ (mutate (Rebind f) (get_status now1 self).2 (get_status now1 self).1).2
     = (get_status now1 self).1
  /\ nested g (mutate (StoreNested (ref_of g) key v) (get_status now1 self).2
                 (get_status now1 self).1).2
     = (fun d => <[key := v]> d) <$> nested g (get_status now1 self).1.
Proof.
  assert (Hheap : forall now s, heap (get_status now s).1 = heap s).
  { intros now s. unfold get_status.
    destruct (last_update s); [destruct (truthy_time _)|]; reflexivity. }
  assert (Hrefs : forall now s k,
             ref_of k (status (get_status now s).1) = ref_of k (status s)).
  { intros now s k. unfold get_status.
    destruct (last_update s); [destruct (truthy_time _)|]; destruct k; reflexivity. }
  split; [|split; [apply Hheap|split; [reflexivity|split; [reflexivity|]]]].
  - unfold same_except_derived, view. cbn [v_connected v_last_update
      v_communication_errors v_data_registers v_coil_status v_input_status
      v_system_info].
    pose proof (Hrefs now2 (get_status now1 self).1) as Hk.
    pose proof (Hk Registers) as Hr. pose proof (Hk Coils) as Hc.
    pose proof (Hk Inputs) as Hi. pose proof (Hk SystemInfo) as Hs.
    cbn [ref_of] in Hr, Hc, Hi, Hs.
    change ((get_status now2 (get_status now1 self).1).2)
      with (status (get_status now2 (get_status now1 self).1).1).
    change ((get_status now1 self).2) with (status (get_status now1 self).1).
    rewrite Hr, Hc, Hi, Hs.
    assert (Htop : forall now s,
               st_connected (status (get_status now s).1) = st_connected (status s)
               /\ st_last_update (status (get_status now s).1)
                  = st_last_update (status s)
               /\ st_communication_errors (status (get_status now s).1)
                  = st_communication_errors (status s)).
    { intros now s. unfold get_status.
      destruct (last_update s); [destruct (truthy_time _)|]; repeat split. }
    destruct (Htop now2 (get_status now1 self).1) as (-> & -> & ->).
    repeat split.
  - unfold nested, mutate. cbn [snd heap set_heap status].
    change ((get_status now1 self).2) with (status (get_status now1 self).1).
    rewrite lookup_alter_eq. reflexivity.
Qed.

End Snapshots.

(** ** Simulation mode *)

Module Simulation.
Import PLCCommunicator.

(** In simulation mode no call creates a client. *)
Lemma do_call_keeps_simulation (c : call) (self : communicator) :
  simulation_mode self = true -> client self = None ->
  simulation_mode (do_call c self) = true /\ client (do_call c self) = None.
Proof.
  intros Hsim Hclient. destruct c; cbn [do_call].
  - unfold connect. rewrite Hsim. auto.
  - unfold disconnect. rewrite Hclient. auto.
  - unfold poll_data. destruct (connected self); cbn [negb]; [|auto].
    rewrite Hsim. auto.
  - unfold get_status.
    destruct (last_update self); [destruct (truthy_time _)|]; auto.
  - unfold write_coil. destruct (_ || _); auto.
  - unfold write_register. destruct (_ || _); auto.
Qed.

Lemma do_calls_keep_simulation (cs : list call) (self : communicator) :
  simulation_mode self = true -> client self = None ->
  simulation_mode (do_calls cs self) = true /\ client (do_calls cs self) = None.
Proof.
  revert self. induction cs as [|c cs IH]; intros self Hsim Hclient; [auto|].
  cbn [do_calls fold_left].
  destruct (do_call_keeps_simulation c self Hsim Hclient) as [Hsim' Hclient'].
  exact (IH _ Hsim' Hclient').
Qed.

(** C10.  With [SIMULATION_MODE] configured, [connect()] on a fresh
    communicator returns true, sets [connected] (also in the status) and
    creates no client; after that, and after any further calls of
    [connect], [disconnect], [poll_data], [get_status], [write_coil] and
    [write_register], [write_coil] and [write_register] answer
    [(False, "PLC not connected")] for every address and value and leave
    the communicator, simulated data included, as it is. *)
Theorem simulation_refuses_writes
    (modbus_available : bool) (c : config) (io : connect_io) (calls : list call)
    (wio : write_io) (address register_value : Z) (coil_value : bool) :
  SIMULATION_MODE c = true ->
  (connect io (init modbus_available c)).2 = true
  /\ connected (connect io (init modbus_available c)).1 = true
  /\ st_connected (status (connect io (init modbus_available c)).1) = true
  /\ client (connect io (init modbus_available c)).1 = None
  /\ write_coil wio address coil_value
       (do_calls calls (connect io (init modbus_available c)).1)
     = (do_calls calls (connect io (init modbus_available c)).1,
        (false, "PLC not connected"%string))
  /\ write_register wio address register_value
       (do_calls calls (connect io (init modbus_available c)).1)
     = (do_calls calls (connect io (init modbus_available c)).1,
        (false, "PLC not connected"%string)).
Proof.
  intros Hsim.
  assert (Hconnect : connect io (init modbus_available c)
                     = (with_status (st_set_connected true)
                          (set_connected true (init modbus_available c)), true)).
  { unfold connect. cbn [simulation_mode init]. rewrite Hsim. reflexivity. }
  rewrite Hconnect. cbn [fst snd].
  repeat (split; [reflexivity|]).
  destruct (do_calls_keep_simulation calls
              (with_status (st_set_connected true)
                 (set_connected true (init modbus_available c))))
    as [_ Hclient]; [exact Hsim|reflexivity|].
  unfold write_coil, write_register. rewrite Hclient.
  cbn [present negb]. rewrite orb_true_r. split; reflexivity.
Qed.

Definition demo_config : config :=
  {| SIMULATION_MODE := true; CONNECTION_TYPE := "serial";
     MODBUS_METHOD := "rtu"; BAUD_RATE := 9600; DEVICE_ADDRESS := 1;
     POLL_INTERVAL := 1 |}.

Lemma simulation_refuses_writes_witness :
  SIMULATION_MODE demo_config = true
  /\ write_coil WriteOk 5 true
       (do_calls [PollData ReadError ReadError ReadError PollClaims.no_draws
                    "2025-01-01T00:00:00" 100]
          (connect (ConnectReturns true) (init true demo_config)).1)
     = (do_calls [PollData ReadError ReadError ReadError PollClaims.no_draws
                    "2025-01-01T00:00:00" 100]
          (connect (ConnectReturns true) (init true demo_config)).1,
        (false, "PLC not connected"%string)).
Proof.
  split; [reflexivity|].
  exact (proj1 (proj2 (proj2 (proj2 (proj2
    (simulation_refuses_writes true demo_config (ConnectReturns true)
       [PollData ReadError ReadError ReadError PollClaims.no_draws
          "2025-01-01T00:00:00" 100]
       WriteOk 5 0 true eq_refl)))))).
Defined.

End Simulation.


(** ** Scripts: contained errors, kept state *)

Module ScriptProps.
Import ScriptEngine.

Section Dicts.
Context {V : Type}.
Implicit Types (d : list (string * V)) (k : string).

Lemma dict_get_alter (f : V -> V) k k' d :
  dict_get k' (dict_alter f k d)
  = (if String.eqb k' k then f else fun v => v) <$> dict_get k' d.
Proof.
  induction d as [|[k0 v] d IH]; cbn.
  - destruct (String.eqb k' k); reflexivity.
  - destruct (String.eqb_spec k0 k) as [->|Hne0]; cbn.
    + destruct (String.eqb_spec k k') as [->|Hne]; [rewrite String.eqb_refl; reflexivity|].
      exact IH.
    + destruct (String.eqb_spec k0 k') as [->|Hne]; [|exact IH].
      destruct (String.eqb_spec k' k) as [->|_]; [contradiction|reflexivity].
Qed.

Lemma dict_get_In k v d : dict_get k d = Some v -> In (k, v) d.
Proof.
  induction d as [|[k0 v0] d IH]; cbn; [discriminate|].
  destruct (String.eqb_spec k0 k) as [->|Hne].
  - intros [= ->]. left. reflexivity.
  - intros H. right. exact (IH H).
Qed.

Lemma In_dict_get k v d : NoDup (map fst d) -> In (k, v) d -> dict_get k d = Some v.
Proof.
  induction d as [|[k0 v0] d IH]; cbn; [contradiction|].
  intros Hnd Hin. apply NoDup_cons in Hnd as [Hnotin Hnd].
  destruct Hin as [[= -> ->]|Hin].
  - rewrite String.eqb_refl. reflexivity.
  - destruct (String.eqb_spec k0 k) as [->|Hne]; [|exact (IH Hnd Hin)].
    exfalso. apply Hnotin. apply list_elem_of_In.
    change k with (fst (k, v)). apply in_map. exact Hin.
Qed.

End Dicts.

Section Exec.
Context {plc_data outside : Type}.
Implicit Types (e : engine plc_data outside) (w : world outside)
  (s : script plc_data outside) (o : outcome outside).

Lemma conclude_scripts id s e o : scripts (conclude id s e o).1.2 = scripts e.
Proof. destruct o as [[d|v] w st|msg w st|w]; reflexivity. Qed.

Lemma conclude_other_state id s e o k :
  k ≠ id -> script_states (conclude id s e o).1.2 !! k = script_states e !! k.
Proof.
  intros Hne.
  destruct o as [[d|v] w st|msg w st|w]; cbn; try reflexivity;
    apply lookup_insert_ne; congruence.
Qed.

Lemma ensure_state_scripts id e : scripts (ensure_state id e) = scripts e.
Proof. unfold ensure_state. destruct (script_states e !! id); reflexivity. Qed.

Lemma ensure_state_other id e k :
  k ≠ id -> script_states (ensure_state id e) !! k = script_states e !! k.
Proof.
  intros Hne. unfold ensure_state.
  destruct (script_states e !! id); [reflexivity|].
  cbn. apply lookup_insert_ne. congruence.
Qed.

Lemma ensure_state_known id e st :
  script_states e !! id = Some st -> ensure_state id e = e.
Proof. intros H. unfold ensure_state. rewrite H. reflexivity. Qed.

(** [execute_script] never touches the registry. *)
Lemma execute_script_scripts id (data : plc_data) e w :
  scripts (execute_script id data e w).1.2 = scripts e.
Proof.
  unfold execute_script.
  destruct (dict_get id (scripts e)) as [s|]; [|reflexivity].
  destruct (enabled s); cbn [negb]; [|reflexivity].
  rewrite conclude_scripts. apply ensure_state_scripts.
Qed.

(** [execute_script] touches no state but the one of the script it runs. *)
Lemma execute_script_other_state id (data : plc_data) e w k :
  k ≠ id ->
  script_states (execute_script id data e w).1.2 !! k = script_states e !! k.
Proof.
  intros Hne. unfold execute_script.
  destruct (dict_get id (scripts e)) as [s|]; [|reflexivity].
  destruct (enabled s); cbn [negb]; [|reflexivity].
  rewrite conclude_other_state by exact Hne. apply ensure_state_other, Hne.
Qed.

(** A disabled script is not run. *)
Lemma execute_script_disabled id (data : plc_data) e w s :
  dict_get id (scripts e) = Some s -> enabled s = false ->
  (execute_script id data e w).1.2 = e /\ (execute_script id data e w).2 = w.
Proof.
  intros Hget Hoff. unfold execute_script. rewrite Hget, Hoff. split; reflexivity.
Qed.

(** An enabled script is run on the state stored for it. *)
Lemma execute_script_enabled id (data : plc_data) e w s :
  dict_get id (scripts e) = Some s -> enabled s = true ->
  execute_script id data e w
  = conclude id s (ensure_state id e)
      (code s data (setup_pins (gpio_pins s) w) (state_for id (ensure_state id e))).
Proof.
  intros Hget Hon. unfold execute_script. rewrite Hget, Hon. reflexivity.
Qed.

Section Disabled.
Variable id : string.
Variable off : script plc_data outside.
Variable data : plc_data.
Hypothesis Hoff : enabled off = false.

(** While the script is disabled, the loop leaves its state alone. *)
Lemma execute_each_disabled (items : list (string * script plc_data outside))
    (results : gmap string entry) e w :
  dict_get id (scripts e) = Some off ->
  scripts (execute_each data items (results, e, w)).1.2 = scripts e
  /\ script_states (execute_each data items (results, e, w)).1.2 !! id
     = script_states e !! id.
Proof.
  revert results e w.
  induction items as [|[k sc] items IH]; intros results e w Hget; [auto|].
  cbn [execute_each fold_left snd fst].
  destruct (enabled sc).
  - pose proof (execute_script_scripts k data e w) as Hs.
    assert (Hst : script_states (execute_script k data e w).1.2 !! id
                  = script_states e !! id).
    { destruct (String.eqb_spec id k) as [<-|Hne].
      - destruct (execute_script_disabled id data e w off Hget Hoff) as [-> _].
        reflexivity.
      - apply execute_script_other_state, Hne. }
    destruct (execute_script k data e w) as [[r e'] w']. cbn [fst snd] in *.
    fold (execute_each data items (<[k := ScriptResult r]> results, e', w')).
    destruct (IH (<[k := ScriptResult r]> results) e' w') as [H1 H2];
      [rewrite Hs; exact Hget|].
    rewrite H1, H2. auto.
  - fold (execute_each data items (results, e, w)). apply IH, Hget.
Qed.

Lemma execute_all_disabled e w :
  dict_get id (scripts e) = Some off ->
  scripts (execute_all_enabled_scripts data e w).1.2 = scripts e
  /\ script_states (execute_all_enabled_scripts data e w).1.2 !! id
     = script_states e !! id.
Proof.
  intros Hget. unfold execute_all_enabled_scripts.
  pose proof (execute_each_disabled (scripts e) ∅ e w Hget) as H.
  destruct (execute_each data (scripts e) (∅, e, w)) as [[results e'] w'].
  exact H.
Qed.

End Disabled.

Lemma run_cycles_disabled id (off : script plc_data outside)
    (snapshots : list plc_data) e w :
  enabled off = false ->
  dict_get id (scripts e) = Some off ->
  scripts (run_cycles snapshots e w).1 = scripts e
  /\ script_states (run_cycles snapshots e w).1 !! id = script_states e !! id.
Proof.
  intros Hoff. revert e w.
  induction snapshots as [|data snapshots IH]; intros e w Hget; [auto|].
  cbn [run_cycles fold_left fst snd].
  destruct (execute_all_disabled id off data Hoff e w Hget) as [H1 H2].
  destruct (execute_all_enabled_scripts data e w) as [[results e'] w'].
  cbn [fst snd] in *.
  fold (run_cycles snapshots e' w').
  destruct (IH e' w') as [H3 H4]; [rewrite H1; exact Hget|].
  rewrite H3, H4. auto.
Qed.

Lemma toggle_twice id e : scripts (toggle id (toggle id e)) = scripts e.
Proof.
  unfold toggle, dict_alter. cbn [scripts set_scripts].
  rewrite map_map. rewrite <- (map_id (scripts e)) at 2.
  apply map_ext. intros [k [n d b p c]]. cbn.
  destruct (String.eqb_spec k id) as [->|Hne]; cbn.
  - rewrite String.eqb_refl. cbn. unfold set_enabled. cbn.
    rewrite negb_involutive. reflexivity.
  - destruct (String.eqb_spec k id); [contradiction|reflexivity].
Qed.

Lemma executed_toggled_off id e s :
  NoDup (map fst (scripts e)) ->
  dict_get id (scripts e) = Some s -> enabled s = true ->
  id ∉ executed (toggle id e).
Proof.
  intros Hnd Hget Hon Hin. unfold executed in Hin.
  apply list_elem_of_In, in_map_iff in Hin as [[k sc] [Hk Hin]].
  cbn in Hk. subst k.
  apply list_elem_of_In, list_elem_of_filter in Hin as [Hen Hmem].
  unfold toggle, dict_alter in Hmem. cbn [scripts set_scripts] in Hmem.
  apply list_elem_of_In, in_map_iff in Hmem as [[k0 sc0] [Heq Hin0]].
  cbn in Heq. destruct (String.eqb_spec k0 id) as [->|Hne].
  - injection Heq as <-.
    rewrite (In_dict_get id sc0 (scripts e) Hnd Hin0) in Hget.
    injection Hget as ->. cbn in Hen. rewrite Hon in Hen. exact Hen.
  - injection Heq as -> _. contradiction.
Qed.

Lemma executed_enabled id e s :
  dict_get id (scripts e) = Some s -> enabled s = true -> id ∈ executed e.
Proof.
  intros Hget Hon. unfold executed.
  apply list_elem_of_In, in_map_iff. exists (id, s). split; [reflexivity|].
  apply list_elem_of_In, list_elem_of_filter. split.
  - cbn. rewrite Hon. exact I.
  - apply list_elem_of_In, dict_get_In, Hget.
Qed.

End Exec.

(** The enabled set of the ESP-32 engine. *)
Lemma esp_disable_enable (id : string) (e : ESP32ScriptEngine.engine) :
  (id ∉ ESP32ScriptEngine.executed (ESP32ScriptEngine.disable_script id e).1)
  /\ (is_Some (ESP32ScriptEngine.scripts e !! id) ->
      id ∈ ESP32ScriptEngine.executed
             (ESP32ScriptEngine.enable_script id
                (ESP32ScriptEngine.disable_script id e).1).1).
Proof.
  unfold ESP32ScriptEngine.executed, ESP32ScriptEngine.disable_script,
    ESP32ScriptEngine.enable_script.
  destruct (ESP32ScriptEngine.scripts e !! id) as [s|] eqn:Hs; cbn; split.
  - intros Hin. apply elem_of_filter in Hin as [_ Hmem].
    apply elem_of_difference in Hmem as [_ Hn]. apply Hn, elem_of_singleton.
    reflexivity.
  - intros _. rewrite lookup_insert_eq. cbn.
    apply elem_of_filter. split; [|set_solver].
    rewrite lookup_insert_eq. eauto.
  - intros Hin. apply elem_of_filter in Hin as [Hin _].
    rewrite Hs in Hin. destruct Hin as [? ?]. discriminate.
  - intros [? ?]. discriminate.
Qed.

(** C9.  Disabling a script that has a stored state takes it out of the
    ids the cycle runs and leaves every stored state, its own included, in
    place; the cycles that run while it is disabled do not touch its state;
    and once it is enabled again it is back among the ids the cycle runs
    and its next execution runs its code on exactly the state that was
    stored before it was disabled.  On the ESP-32, whose engine stores no
    state for a script, [disable_script] removes the id from the enabled
    set and [enable_script] puts it back. *)
Theorem disable_keeps_state_enable_resumes
    {plc_data outside : Type}
    (e : engine plc_data outside) (id : string) (s : script plc_data outside)
    (st : script_state) (snapshots : list plc_data)
    (w w' : world outside) (data : plc_data)
    (esp : ESP32ScriptEngine.engine) :
  NoDup (map fst (scripts e)) ->
  dict_get id (scripts e) = Some s ->
  enabled s = true ->
  script_states e !! id = Some st ->
  (id ∉ executed (toggle id e))
  /\ script_states (toggle id e) = script_states e
  /\ script_states (run_cycles snapshots (toggle id e) w).1 !! id = Some st
  /\ id ∈ executed (toggle id (run_cycles snapshots (toggle id e) w).1)
  /\ execute_script id data (toggle id (run_cycles snapshots (toggle id e) w).1) w'
     = conclude id s (toggle id (run_cycles snapshots (toggle id e) w).1)
         (code s data (setup_pins (gpio_pins s) w') st)
  /\ (id ∉ ESP32ScriptEngine.executed (ESP32ScriptEngine.disable_script id esp).1)
  /\ (is_Some (ESP32ScriptEngine.scripts esp !! id) ->
      id ∈ ESP32ScriptEngine.executed
             (ESP32ScriptEngine.enable_script id
                (ESP32ScriptEngine.disable_script id esp).1).1).
Proof.
  intros Hnd Hget Hon Hst.
  assert (Hoff : dict_get id (scripts (toggle id e))
                 = Some (set_enabled false s)).
  { unfold toggle. cbn [scripts set_scripts].
    rewrite dict_get_alter, Hget, String.eqb_refl. cbn. rewrite Hon. reflexivity. }
  destruct (run_cycles_disabled id (set_enabled false s) snapshots (toggle id e) w
              eq_refl Hoff) as [Hscripts Hstate].
  set (later := (run_cycles snapshots (toggle id e) w).1) in *.
  assert (Hlater : scripts (toggle id later) = scripts e).
  { rewrite <- (toggle_twice id e). unfold toggle at 1 3.
    cbn [scripts set_scripts]. rewrite Hscripts. reflexivity. }
  assert (Hst' : script_states (toggle id later) !! id = Some st).
  { unfold toggle. cbn [script_states set_scripts]. rewrite Hstate. exact Hst. }
  split; [exact (executed_toggled_off id e s Hnd Hget Hon)|].
  split; [reflexivity|].
  split; [rewrite Hstate; exact Hst|].
  split; [apply (executed_enabled id _ s); [rewrite Hlater; exact Hget|exact Hon]|].
  split; [|exact (esp_disable_enable id esp)].
  rewrite (execute_script_enabled id data (toggle id later) w' s)
    by (rewrite ?Hlater; assumption).
  rewrite (ensure_state_known id _ st Hst').
  unfold state_for. rewrite Hst'. reflexivity.
Qed.


Lemma error_record_fields (id msg : string) (timestamp : Q) :
  error_record id msg timestamp !! "error"%string
  = Some (VStr ("Script execution failed: " +:+ msg))
  /\ error_record id msg timestamp !! "script_id"%string = Some (VStr id)
  /\ error_record id msg timestamp !! "timestamp"%string = Some (VFloat timestamp).
Proof. repeat split; vm_compute; reflexivity. Qed.

(** *** A registry of one script with a stored state *)

Definition timer : script unit unit :=
  {| name := "Timer Control"; description := "counts its runs"; enabled := true;
     gpio_pins := [19];
     code := fun _ w st =>
               Returns (RDict {["status"%string := default VNone (st !! "runs"%string)]})
                       w st |}.

Definition one_script : engine unit unit :=
  {| scripts := [("timer_example"%string, timer)];
     script_states := {["timer_example"%string := {["runs"%string := VInt 7]}]} |}.

Definition at_dawn : world unit :=
  {| pin_states := ∅; clock := 21600; plc := tt |}.

Lemma disable_keeps_state_enable_resumes_witness :
  (NoDup (map fst (scripts one_script))
   /\ dict_get "timer_example" (scripts one_script) = Some timer
   /\ enabled timer = true
   /\ script_states one_script !! "timer_example"%string
      = Some {["runs"%string := VInt 7]})
  /\ script_states (run_cycles [tt; tt] (toggle "timer_example" one_script) at_dawn).1
       !! "timer_example"%string
     = Some {["runs"%string := VInt 7]}.
Proof.
  assert (Hnd : NoDup (map fst (scripts one_script)))
    by (apply (bool_decide_unpack _); vm_compute; exact I).
  split; [split; [exact Hnd|repeat split]|].
  exact (proj1 (proj2 (proj2
           (disable_keeps_state_enable_resumes one_script "timer_example" timer
              {["runs"%string := VInt 7]} [tt; tt] at_dawn at_dawn tt
              {| ESP32ScriptEngine.scripts := ∅;
                 ESP32ScriptEngine.enabled_scripts := ∅ |}
              Hnd eq_refl eq_refl eq_refl)))).
Defined.

End ScriptProps.


(** ** The script executor in full: pins, exceptions and results *)

Module ExecutorProps.
Import ScriptExecutor.

Section Exec.
Context {outside : Type}.
Variable gpio_setup : ScriptEngine.world outside -> Z -> option string.

Implicit Types (e : engine outside) (w : ScriptEngine.world outside)
  (s : script outside) (o : outcome outside) (c : machine outside)
  (items : list (string * script outside)).

Abbreviation setup_pins := (setup_pins gpio_setup).
Abbreviation pin_loop := (pin_loop gpio_setup).
Abbreviation execute_script := (execute_script gpio_setup).
Abbreviation step := (step gpio_setup).
Abbreviation execute_each := (execute_each gpio_setup).
Abbreviation execute_all_enabled_scripts := (execute_all_enabled_scripts gpio_setup).

(** *** The pin loop *)

Definition output_pin : ScriptEngine.pin_state :=
  {| ScriptEngine.mode := "output"; ScriptEngine.value := false |}.

Lemma setup_pins_spec (pins : list Z) w :
  ScriptEngine.clock (setup_pins pins w).1 = ScriptEngine.clock w
  /\ ScriptEngine.plc (setup_pins pins w).1 = ScriptEngine.plc w
  /\ (forall pin p, ScriptEngine.pin_states w !! pin = Some p ->
        ScriptEngine.pin_states (setup_pins pins w).1 !! pin = Some p)
  /\ (forall pin, ScriptEngine.pin_states w !! pin = None ->
        ScriptEngine.pin_states (setup_pins pins w).1 !! pin = None
        \/ (pin ∈ pins
            /\ ScriptEngine.pin_states (setup_pins pins w).1 !! pin
               = Some output_pin))
  /\ ((setup_pins pins w).2 = None ->
      forall pin, pin ∈ pins ->
        is_Some (ScriptEngine.pin_states (setup_pins pins w).1 !! pin))
  /\ (forall msg, (setup_pins pins w).2 = Some msg ->
        exists pin, pin ∈ pins
          /\ ScriptEngine.pin_states (setup_pins pins w).1 !! pin = None
          /\ gpio_setup (setup_pins pins w).1 pin = Some msg).
Proof.
  revert w. induction pins as [|p pins IH]; intros w.
  - cbn. repeat split; auto.
    + intros _ pin Hin. apply elem_of_nil in Hin. contradiction.
    + intros msg [=].
  - cbn [ScriptExecutor.setup_pins].
    destruct (ScriptEngine.pin_states w !! p) as [st|] eqn:Hp.
    + destruct (IH w) as (H1 & H2 & H3 & H4 & H5 & H6).
      split; [exact H1|]. split; [exact H2|]. split; [exact H3|]. split; [|split].
      * intros pin Hpin. destruct (H4 pin Hpin) as [Hn|[Hin Hs]]; [left; exact Hn|].
        right. split; [apply list_elem_of_further, Hin|exact Hs].
      * intros Hok pin Hin. apply elem_of_cons in Hin as [->|Hin].
        -- rewrite (H3 _ _ Hp). eauto.
        -- exact (H5 Hok pin Hin).
      * intros msg Hmsg. destruct (H6 msg Hmsg) as (pin & Hin & Hn & Hr).
        exists pin. split; [apply list_elem_of_further, Hin|]. split; assumption.
    + destruct (gpio_setup w p) as [m|] eqn:Hraise.
      * cbn [fst snd]. split; [reflexivity|]. split; [reflexivity|].
        split; [auto|]. split; [auto|]. split; [intros [=]|].
        intros msg [= <-]. exists p.
        split; [apply list_elem_of_here|]. split; assumption.
      * destruct (IH (ScriptEngine.setup_pin p "output" w))
          as (H1 & H2 & H3 & H4 & H5 & H6).
        split; [exact H1|]. split; [exact H2|]. split; [|split; [|split]].
        -- intros pin st Hpin. apply H3.
           cbn [ScriptEngine.setup_pin ScriptEngine.set_pin_states
                ScriptEngine.pin_states].
           rewrite lookup_insert_ne; [exact Hpin|]. intros <-. congruence.
        -- intros pin Hpin. destruct (decide (pin = p)) as [->|Hne].
           ++ right. split; [apply list_elem_of_here|]. apply H3.
              cbn [ScriptEngine.setup_pin ScriptEngine.set_pin_states
                   ScriptEngine.pin_states].
              apply lookup_insert_eq.
           ++ destruct (H4 pin) as [Hn|[Hin Hs]].
              ** cbn [ScriptEngine.setup_pin ScriptEngine.set_pin_states
                      ScriptEngine.pin_states].
                 rewrite lookup_insert_ne by congruence. exact Hpin.
              ** left. exact Hn.
              ** right. split; [apply list_elem_of_further, Hin|exact Hs].
        -- intros Hok pin Hin. apply elem_of_cons in Hin as [->|Hin].
           ++ rewrite (H3 p output_pin); [eauto|].
              cbn [ScriptEngine.setup_pin ScriptEngine.set_pin_states
                   ScriptEngine.pin_states].
              apply lookup_insert_eq.
           ++ exact (H5 Hok pin Hin).
        -- intros msg Hmsg. destruct (H6 msg Hmsg) as (pin & Hin & Hn & Hr).
           exists pin. split; [apply list_elem_of_further, Hin|]. split; assumption.
Qed.

Lemma state_after_ensure (id : string) e :
  script_states (ensure_state id e) !! id
  = Some (default ∅ (script_states e !! id)).
Proof.
  unfold ensure_state. destruct (script_states e !! id) as [st|] eqn:Hst.
  - rewrite Hst. reflexivity.
  - cbn. apply lookup_insert_eq.
Qed.

Lemma ensure_keeps_registry (id : string) e : scripts (ensure_state id e) = scripts e.
Proof. unfold ensure_state. destruct (script_states e !! id); reflexivity. Qed.

Lemma ensure_keeps_others (id k : string) e :
  k ≠ id -> script_states (ensure_state id e) !! k = script_states e !! k.
Proof.
  intros Hne. unfold ensure_state. destruct (script_states e !! id); [reflexivity|].
  cbn. apply lookup_insert_ne. congruence.
Qed.

(** *** One script *)

(** [execute_script] on a registered, enabled script whose pin loop went
    through. *)
Lemma execute_script_runs (id : string) c s w1 :
  dict_get id (scripts (the_engine c)) = Some s -> enabled s = true ->
  pin_loop (gpio_pins s) (the_world c) = (w1, None) ->
  execute_script id c
  = conclude id s (ensure_state id (the_engine c)) (the_data c)
      (code s (the_data c) w1 (default ∅ (script_states (the_engine c) !! id))).
Proof.
  intros Hget Hon Hpins. unfold ScriptExecutor.execute_script.
  rewrite Hget, Hon. cbn [negb]. rewrite Hpins.
  cbv zeta. rewrite state_after_ensure. reflexivity.
Qed.

(** [execute_script] on a registered, enabled script whose pin loop
    raised. *)
Lemma execute_script_no_pins (id : string) c s w1 (msg : string) :
  dict_get id (scripts (the_engine c)) = Some s -> enabled s = true ->
  pin_loop (gpio_pins s) (the_world c) = (w1, Some msg) ->
  execute_script id c
  = (Some (RDict (ScriptEngine.error_record id msg (ScriptEngine.clock w1))),
     {| the_engine := the_engine c; the_world := w1; the_data := the_data c |}).
Proof.
  intros Hget Hon Hpins. unfold ScriptExecutor.execute_script.
  rewrite Hget, Hon. cbn [negb]. rewrite Hpins. reflexivity.
Qed.

Lemma conclude_engine (id : string) s e (d0 : plc_data) o :
  scripts (the_engine (conclude id s e d0 o).2) = scripts e
  /\ (forall k, k ≠ id ->
        script_states (the_engine (conclude id s e d0 o).2) !! k
        = script_states e !! k)
  /\ (forall k, is_Some (script_states e !! k) ->
        is_Some (script_states (the_engine (conclude id s e d0 o).2) !! k)).
Proof.
  destruct o as [[x| | |key|v] d w st|msg d w st|d w st|w]; cbn;
    try (destruct (d !! key) as [[?|?]|]; cbn);
    (split; [reflexivity|]); split;
    try (intros k Hne; apply lookup_insert_ne; congruence);
    try (intros k Hk; destruct (decide (k = id)) as [->|Hne];
         [rewrite lookup_insert_eq; eauto
         |rewrite lookup_insert_ne by congruence; exact Hk]);
    auto.
Qed.

Lemma execute_script_engine (id : string) c :
  scripts (the_engine (execute_script id c).2) = scripts (the_engine c)
  /\ (forall k, k ≠ id ->
        script_states (the_engine (execute_script id c).2) !! k
        = script_states (the_engine c) !! k)
  /\ (forall k, is_Some (script_states (the_engine c) !! k) ->
        is_Some (script_states (the_engine (execute_script id c).2) !! k)).
Proof.
  unfold ScriptExecutor.execute_script.
  destruct (dict_get id (scripts (the_engine c))) as [s|]; [|auto].
  destruct (enabled s); cbn [negb]; [|auto].
  destruct (pin_loop (gpio_pins s) (the_world c)) as [w1 [msg|]]; [cbn; auto|].
  cbv zeta.
  destruct (conclude_engine id s (ensure_state id (the_engine c)) (the_data c)
              (code s (the_data c) w1
                 (default ∅ (script_states (ensure_state id (the_engine c)) !! id))))
    as (H1 & H2 & H3).
  split; [rewrite H1; apply ensure_keeps_registry|]. split.
  - intros k Hne. rewrite (H2 k Hne). apply ensure_keeps_others, Hne.
  - intros k Hk. apply H3. destruct (decide (k = id)) as [->|Hne].
    + rewrite state_after_ensure. eauto.
    + rewrite ensure_keeps_others by exact Hne. exact Hk.
Qed.

(** *** The loop of a batch *)

(** The ids of the enabled entries of [items], in order. *)
Definition enabled_ids items : list string :=
  map fst (filter (fun item => enabled item.2) items).

Lemma enabled_ids_step (k : string) s items :
  enabled_ids ((k, s) :: items)
  = if enabled s then k :: enabled_ids items else enabled_ids items.
Proof.
  unfold enabled_ids. rewrite filter_cons. cbn [snd].
  destruct (enabled s); cbn; reflexivity.
Qed.

Lemma enabled_ids_keys (k : string) items : k ∈ enabled_ids items -> k ∈ map fst items.
Proof.
  induction items as [|[k0 s] items IH]; [auto|].
  rewrite enabled_ids_step. cbn [map fst]. intros Hin.
  destruct (enabled s).
  - apply elem_of_cons in Hin as [->|Hin];
      [apply list_elem_of_here|apply list_elem_of_further, IH, Hin].
  - apply list_elem_of_further, IH, Hin.
Qed.

Lemma execute_each_app items1 items2
    (acc : option (gmap string entry) * machine outside) :
  execute_each (items1 ++ items2) acc = execute_each items2 (execute_each items1 acc).
Proof. unfold ScriptExecutor.execute_each. apply fold_left_app. Qed.

Lemma execute_each_step (item : string * script outside) items
    (acc : option (gmap string entry) * machine outside) :
  execute_each (item :: items) acc = execute_each items (step acc item).
Proof. reflexivity. Qed.

(** Once an exception has left the loop, no further script is run. *)
Lemma execute_each_gone items c : execute_each items (None, c) = (None, c).
Proof. induction items as [|item items IH]; [reflexivity|exact IH]. Qed.

(** The loop reaches the end only if it got past every part of it. *)
Lemma execute_each_prefix items1 items2
    (acc : option (gmap string entry) * machine outside) :
  is_Some (execute_each (items1 ++ items2) acc).1 ->
  is_Some (execute_each items1 acc).1.
Proof.
  rewrite execute_each_app.
  destruct (execute_each items1 acc) as [[res|] c1]; [eauto|].
  rewrite execute_each_gone. intros [? [=]].
Qed.

Lemma step_engine (acc : option (gmap string entry) * machine outside)
    (item : string * script outside) :
  scripts (the_engine (step acc item).2) = scripts (the_engine acc.2)
  /\ (forall k, (enabled item.2 = true -> k ≠ item.1) ->
        script_states (the_engine (step acc item).2) !! k
        = script_states (the_engine acc.2) !! k)
  /\ (forall k, is_Some (script_states (the_engine acc.2) !! k) ->
        is_Some (script_states (the_engine (step acc item).2) !! k)).
Proof.
  unfold ScriptExecutor.step. destruct acc as [[res|] c]; cbn [fst snd]; [|auto].
  destruct (enabled item.2) eqn:Hon; [|auto].
  destruct (execute_script_engine item.1 c) as (H1 & H2 & H3).
  destruct (execute_script item.1 c) as [[r|] c1]; cbn [fst snd] in *;
    (split; [exact H1|]); (split; [intros k Hk; apply H2; auto|exact H3]).
Qed.

Lemma execute_each_engine items
    (acc : option (gmap string entry) * machine outside) :
  scripts (the_engine (execute_each items acc).2) = scripts (the_engine acc.2)
  /\ (forall k, k ∉ enabled_ids items ->
        script_states (the_engine (execute_each items acc).2) !! k
        = script_states (the_engine acc.2) !! k)
  /\ (forall k, is_Some (script_states (the_engine acc.2) !! k) ->
        is_Some (script_states (the_engine (execute_each items acc).2) !! k)).
Proof.
  revert acc. induction items as [|[k0 s] items IH]; intros acc; [auto|].
  rewrite execute_each_step.
  destruct (IH (step acc (k0, s))) as (I1 & I2 & I3).
  destruct (step_engine acc (k0, s)) as (S1 & S2 & S3).
  split; [rewrite I1; exact S1|]. split.
  - intros k Hk. rewrite enabled_ids_step in Hk. cbn [fst snd] in S2.
    destruct (enabled s) eqn:Hon.
    + rewrite not_elem_of_cons in Hk. destruct Hk as [Hne Hk].
      rewrite (I2 k Hk). apply S2. auto.
    + rewrite (I2 k Hk). apply S2. intros [=].
  - intros k Hk. apply I3, S3, Hk.
Qed.

Lemma execute_each_entries items (res : gmap string entry) c
    (res' : gmap string entry) :
  (execute_each items (Some res, c)).1 = Some res' ->
  forall k,
    (k ∈ enabled_ids items -> exists r, res' !! k = Some (ScriptResult r))
    /\ (k ∉ enabled_ids items -> res' !! k = res !! k).
Proof.
  revert res c.
  induction items as [|[k0 s] items IH]; intros res c Hrun k.
  - cbn in Hrun. injection Hrun as <-. split; [|reflexivity].
    intros Hin. apply elem_of_nil in Hin. contradiction.
  - rewrite execute_each_step in Hrun. rewrite enabled_ids_step.
    unfold ScriptExecutor.step in Hrun. cbn [fst snd] in Hrun.
    destruct (enabled s); [|exact (IH res c Hrun k)].
    destruct (execute_script k0 c) as [[r|] c1].
    + destruct (IH _ _ Hrun k) as [IH1 IH2]. split.
      * intros Hin. destruct (decide (k ∈ enabled_ids items)) as [Hlater|Hnot];
          [exact (IH1 Hlater)|].
        apply elem_of_cons in Hin as [->|Hin]; [|contradiction].
        rewrite (IH2 Hnot), lookup_insert_eq. eauto.
      * intros Hnot. rewrite not_elem_of_cons in Hnot. destruct Hnot as [Hne Hnot].
        rewrite (IH2 Hnot). apply lookup_insert_ne. congruence.
    + rewrite execute_each_gone in Hrun. discriminate Hrun.
Qed.

(** In a registry with distinct ids, the entry of an id is the script
    the id is bound to, and no entry before or after it has the id. *)
Lemma registry_split (k : string) s registry before after :
  NoDup (map fst registry) -> registry = before ++ (k, s) :: after ->
  dict_get k registry = Some s
  /\ (k ∉ map fst before) /\ (k ∉ map fst after)
  /\ (k ∉ enabled_ids before) /\ (k ∉ enabled_ids after).
Proof.
  intros Hnd ->. split.
  - apply ScriptProps.In_dict_get; [exact Hnd|].
    apply in_or_app. right. left. reflexivity.
  - rewrite map_app in Hnd. cbn [map fst] in Hnd.
    apply NoDup_app in Hnd as (_ & Hdisj & Hrest).
    apply NoDup_cons in Hrest as [Hafter _].
    assert (Hbefore : k ∉ map fst before).
    { intros Hin. apply (Hdisj k Hin). apply list_elem_of_here. }
    split; [exact Hbefore|]. split; [exact Hafter|]. split.
    + intros Hin. apply Hbefore, enabled_ids_keys, Hin.
    + intros Hin. apply Hafter, enabled_ids_keys, Hin.
Qed.

(** The loop runs a script on what the scripts before it left, and the
    scripts after it on what it left. *)
Lemma execute_each_turn (k : string) s before after (res0 : gmap string entry)
    (c c0 : machine outside) :
  enabled s = true ->
  execute_each before (Some ∅, c) = (Some res0, c0) ->
  execute_each (before ++ (k, s) :: after) (Some ∅, c)
  = execute_each after
      (match execute_script k c0 with
       | (Some r, c1) => (Some (<[k := ScriptResult r]> res0), c1)
       | (None, c1) => (None, c1)
       end).
Proof.
  intros Hon Hbefore. rewrite execute_each_app, Hbefore, execute_each_step.
  unfold ScriptExecutor.step. cbn [fst snd]. rewrite Hon. reflexivity.
Qed.

(** The batch ends with the pin table under ["gpio_states"]. *)
Lemma execute_all_unfold c :
  execute_all_enabled_scripts c
  = ((fun results => <["gpio_states" :=
                         GpioStates (ScriptEngine.pin_states
                           (the_world (execute_each (scripts (the_engine c))
                                         (Some ∅, c)).2))]> results)
       <$> (execute_each (scripts (the_engine c)) (Some ∅, c)).1,
     (execute_each (scripts (the_engine c)) (Some ∅, c)).2).
Proof.
  unfold ScriptExecutor.execute_all_enabled_scripts.
  destruct (execute_each (scripts (the_engine c)) (Some ∅, c)) as [[res|] c1];
    reflexivity.
Qed.

(** *** What a run leaves *)



(** X17.  [execute_script] on a registered, enabled script runs the pin
    loop first, inside the [try].  The loop keeps the clock, the PLC and
    the pins already configured, and configures none but listed pins, as
    outputs with value false.  When it completes, every listed pin is
    configured and the code runs in the world the loop left; when it
    raises (a value that is no list, or [GPIO.setup] raising on a listed
    pin not yet configured), the result is the error record with the text
    of the exception, the code is not run, and the engine and the
    [plc_data] are unchanged. *)
Theorem script_runs_after_its_pin_loop (id : string) c s :
  dict_get id (scripts (the_engine c)) = Some s ->
  enabled s = true ->
  let w0 := the_world c in
  let w1 := (pin_loop (gpio_pins s) w0).1 in
  ScriptEngine.clock w1 = ScriptEngine.clock w0
  /\ ScriptEngine.plc w1 = ScriptEngine.plc w0
  /\ (forall pin p, ScriptEngine.pin_states w0 !! pin = Some p ->
        ScriptEngine.pin_states w1 !! pin = Some p)
  /\ (forall pin, ScriptEngine.pin_states w0 !! pin = None ->
        ScriptEngine.pin_states w1 !! pin = None
        \/ (exists pins, gpio_pins s = Pins pins /\ pin ∈ pins
            /\ ScriptEngine.pin_states w1 !! pin = Some output_pin))
  /\ ((pin_loop (gpio_pins s) w0).2 = None ->
      (exists pins, gpio_pins s = Pins pins
         /\ forall pin, pin ∈ pins -> is_Some (ScriptEngine.pin_states w1 !! pin))
      /\ execute_script id c
         = conclude id s (ensure_state id (the_engine c)) (the_data c)
             (code s (the_data c) w1
                (default ∅ (script_states (the_engine c) !! id))))
  /\ (forall msg, (pin_loop (gpio_pins s) w0).2 = Some msg ->
        execute_script id c
        = (Some (RDict (ScriptEngine.error_record id msg (ScriptEngine.clock w1))),
           {| the_engine := the_engine c; the_world := w1; the_data := the_data c |})
        /\ ((gpio_pins s = NotIterable msg /\ w1 = w0)
            \/ (exists pins pin, gpio_pins s = Pins pins /\ pin ∈ pins
                /\ ScriptEngine.pin_states w1 !! pin = None
                /\ gpio_setup w1 pin = Some msg))).
Proof.
  intros Hget Hon w0 w1.
  assert (Hworld :
    ScriptEngine.clock w1 = ScriptEngine.clock w0
    /\ ScriptEngine.plc w1 = ScriptEngine.plc w0
    /\ (forall pin p, ScriptEngine.pin_states w0 !! pin = Some p ->
          ScriptEngine.pin_states w1 !! pin = Some p)
    /\ (forall pin, ScriptEngine.pin_states w0 !! pin = None ->
          ScriptEngine.pin_states w1 !! pin = None
          \/ (exists pins, gpio_pins s = Pins pins /\ pin ∈ pins
              /\ ScriptEngine.pin_states w1 !! pin = Some output_pin))).
  { subst w1. destruct (gpio_pins s) as [pins|m]; cbn [ScriptExecutor.pin_loop fst].
    - destruct (setup_pins_spec pins w0) as (H1 & H2 & H3 & H4 & _).
      split; [exact H1|]. split; [exact H2|]. split; [exact H3|].
      intros pin Hpin. destruct (H4 pin Hpin) as [Hn|[Hin Hs]]; [left; exact Hn|].
      right. exists pins. auto.
    - split; [reflexivity|]. split; [reflexivity|]. split; [auto|]. left. assumption. }
  destruct Hworld as (W1 & W2 & W3 & W4).
  split; [exact W1|]. split; [exact W2|]. split; [exact W3|]. split; [exact W4|].
  split.
  - intros Hdone. split.
    + subst w1. destruct (gpio_pins s) as [pins|m];
        cbn [ScriptExecutor.pin_loop fst snd] in *; [|discriminate Hdone].
      exists pins. split; [reflexivity|].
      destruct (setup_pins_spec pins w0) as (_ & _ & _ & _ & H5 & _).
      exact (H5 Hdone).
    + apply (execute_script_runs id c s w1 Hget Hon).
      apply injective_projections; [reflexivity|exact Hdone].
  - intros msg Hmsg. split.
    + apply (execute_script_no_pins id c s w1 msg Hget Hon).
      apply injective_projections; [reflexivity|exact Hmsg].
    + subst w1. destruct (gpio_pins s) as [pins|m];
        cbn [ScriptExecutor.pin_loop fst snd] in *.
      * right. destruct (setup_pins_spec pins w0) as (_ & _ & _ & _ & _ & H6).
        destruct (H6 msg Hmsg) as (pin & Hin & Hn & Hr). exists pins, pin. auto.
      * left. injection Hmsg as ->. auto.
Qed.


(** X18.  In a batch over a registry with distinct ids, the loop runs
    every enabled script by [execute_script], on the machine the scripts
    before it left, a script with the id ["gpio_states"] included.  If
    that call lets an exception through, the batch returns nothing.  When
    the batch returns, its dict holds the pin table of the end of the
    batch under ["gpio_states"], under the id of every other enabled
    script what [execute_script] returned at its turn, and nothing under
    any other key. *)
Theorem batch_reports_each_result
    c (k : string) s before after (res0 : gmap string entry) c0 :
  NoDup (map fst (scripts (the_engine c))) ->
  scripts (the_engine c) = before ++ (k, s) :: after ->
  enabled s = true ->
  execute_each before (Some ∅, c) = (Some res0, c0) ->
  execute_each (scripts (the_engine c)) (Some ∅, c)
  = execute_each after
      (match execute_script k c0 with
       | (Some r, c1) => (Some (<[k := ScriptResult r]> res0), c1)
       | (None, c1) => (None, c1)
       end)
  /\ ((execute_script k c0).1 = None -> (execute_all_enabled_scripts c).1 = None)
  /\ (forall results, (execute_all_enabled_scripts c).1 = Some results ->
        results !! "gpio_states"%string
        = Some (GpioStates (ScriptEngine.pin_states
                              (the_world (execute_all_enabled_scripts c).2)))
        /\ (k ≠ "gpio_states"%string ->
            exists r, (execute_script k c0).1 = Some r
                      /\ results !! k = Some (ScriptResult r))
        /\ (forall j, j ≠ "gpio_states"%string -> j ∉ executed (the_engine c) ->
              results !! j = None)).
Proof.
  intros Hnd Hsplit Hon Hbefore.
  destruct (registry_split k s _ before after Hnd Hsplit)
    as (_ & _ & _ & _ & Hna).
  assert (Hturn := execute_each_turn k s before after res0 c c0 Hon Hbefore).
  rewrite <- Hsplit in Hturn.
  split; [exact Hturn|].
  rewrite execute_all_unfold. cbn [fst snd]. split.
  - intros Hnone. rewrite Hturn.
    destruct (execute_script k c0) as [[r|] c1]; cbn [fst] in Hnone;
      [discriminate Hnone|].
    rewrite execute_each_gone. reflexivity.
  - intros results Hres.
    pose proof (execute_each_entries (scripts (the_engine c)) ∅ c) as Hwhole.
    rewrite Hturn in Hres, Hwhole |- *.
    destruct (execute_script k c0) as [[r|] c1]; cbn [fst];
      [|rewrite execute_each_gone in Hres; discriminate Hres].
    pose proof (execute_each_entries after (<[k := ScriptResult r]> res0) c1)
      as Hr.
    destruct (execute_each after (Some (<[k := ScriptResult r]> res0), c1))
      as [[res|] c2]; cbn [fst snd fmap option_fmap option_map] in *;
      [|discriminate Hres].
    injection Hres as <-.
    split; [apply lookup_insert_eq|]. split.
    + intros Hgpio. rewrite lookup_insert_ne by congruence.
      exists r. split; [reflexivity|].
      destruct (Hr res eq_refl k) as [_ Hkeep].
      rewrite (Hkeep Hna). apply lookup_insert_eq.
    + intros j Hgpio Hj. rewrite lookup_insert_ne by congruence.
      destruct (Hwhole res eq_refl j) as [_ Hkeep].
      rewrite (Hkeep Hj). apply lookup_empty.
Qed.

(** X19.  A batch, whether it returns or an exception ends it, leaves the
    registry as it found it, changes the stored state of no script but
    those it runs, and drops no stored state.  In a registry with
    distinct ids, an enabled script that the loop reaches has a stored
    state after the batch if its pin loop completed; if its pin loop
    raised, its stored state, or the lack of one, is as before the
    batch. *)
Theorem batch_touches_only_what_it_runs
    c (k : string) s before after (res0 : gmap string entry) c0 :
  NoDup (map fst (scripts (the_engine c))) ->
  scripts (the_engine c) = before ++ (k, s) :: after ->
  enabled s = true ->
  execute_each before (Some ∅, c) = (Some res0, c0) ->
  let left := (execute_all_enabled_scripts c).2 in
  scripts (the_engine left) = scripts (the_engine c)
  /\ (forall j, j ∉ executed (the_engine c) ->
        script_states (the_engine left) !! j = script_states (the_engine c) !! j)
  /\ (forall j, is_Some (script_states (the_engine c) !! j) ->
        is_Some (script_states (the_engine left) !! j))
  /\ ((pin_loop (gpio_pins s) (the_world c0)).2 = None ->
      is_Some (script_states (the_engine left) !! k))
  /\ (is_Some (pin_loop (gpio_pins s) (the_world c0)).2 ->
      script_states (the_engine left) !! k = script_states (the_engine c) !! k).
Proof.
  intros Hnd Hsplit Hon Hbefore left. subst left.
  rewrite execute_all_unfold. cbn [snd].
  destruct (execute_each_engine (scripts (the_engine c)) (Some ∅, c))
    as (E1 & E2 & E3). cbn [snd] in E1, E2, E3.
  split; [exact E1|]. split; [exact E2|]. split; [exact E3|].
  destruct (registry_split k s _ before after Hnd Hsplit)
    as (Hget & _ & _ & Hnb & Hna).
  pose proof (execute_each_engine before (Some ∅, c)) as (B1 & B2 & _).
  rewrite Hbefore in B1, B2. cbn [snd] in B1, B2.
  assert (Hget0 : dict_get k (scripts (the_engine c0)) = Some s)
    by (rewrite B1; exact Hget).
  assert (Hturn := execute_each_turn k s before after res0 c c0 Hon Hbefore).
  rewrite <- Hsplit in Hturn. rewrite Hturn.
  assert (Hafter : forall acc,
    script_states (the_engine (execute_each after acc).2) !! k
    = script_states (the_engine acc.2) !! k).
  { intros acc. destruct (execute_each_engine after acc) as (_ & A2 & _).
    exact (A2 k Hna). }
  rewrite Hafter.
  assert (Hstate :
    script_states
      (the_engine
         (match execute_script k c0 with
          | (Some r, c1) => (Some (<[k := ScriptResult r]> res0), c1)
          | (None, c1) => (None, c1)
          end).2) !! k
    = script_states (the_engine (execute_script k c0).2) !! k).
  { destruct (execute_script k c0) as [[r|] c1]; reflexivity. }
  rewrite Hstate. split.
  - intros Hdone.
    rewrite (execute_script_runs k c0 s (pin_loop (gpio_pins s) (the_world c0)).1
               Hget0 Hon)
      by (apply injective_projections; [reflexivity|exact Hdone]).
    destruct (conclude_engine k s (ensure_state k (the_engine c0)) (the_data c0)
                (code s (the_data c0) (pin_loop (gpio_pins s) (the_world c0)).1
                   (default ∅ (script_states (the_engine c0) !! k))))
      as (_ & _ & C3).
    apply C3. rewrite state_after_ensure. eauto.
  - intros [msg Hmsg].
    rewrite (execute_script_no_pins k c0 s (pin_loop (gpio_pins s) (the_world c0)).1
               msg Hget0 Hon)
      by (apply injective_projections; [reflexivity|exact Hmsg]).
    cbn [snd the_engine]. exact (B2 k Hnb).
Qed.

(** *** A registry in which one script has other code *)

Definition engine_with_code (id : string) (calm : behaviour outside) e
  : engine outside :=
  {| scripts := dict_alter (set_code calm) id (scripts e);
     script_states := script_states e |}.

(** The machine [c] with the code of script [id] replaced by [calm]. *)
Definition with_code (id : string) (calm : behaviour outside) c
  : machine outside :=
  {| the_engine := engine_with_code id calm (the_engine c);
     the_world := the_world c; the_data := the_data c |}.

(** The object [execute] returns is one nothing else refers to. *)
Definition own_object (r : returned) : Prop :=
  match r with
  | Fresh _ | NotDict _ => True
  | TheState | TheData | Inside _ => False
  end.

(** Two batches both return or both do not, and when they return, their
    results agree at every key but [id]. *)
Definition agree_off (id : string) (o o' : option (gmap string entry)) : Prop :=
  match o, o' with
  | Some results, Some results' =>
      forall k, k ≠ id -> results !! k = results' !! k
  | None, None => True
  | _, _ => False
  end.

Lemma ensure_state_with_code (id k : string) calm e :
  ensure_state k (engine_with_code id calm e)
  = engine_with_code id calm (ensure_state k e).
Proof.
  unfold ScriptExecutor.ensure_state, engine_with_code. cbn [script_states scripts].
  destruct (script_states e !! k); reflexivity.
Qed.

Lemma conclude_with_code (id k : string) calm s e (d0 : plc_data) o :
  conclude k s (engine_with_code id calm e) d0 o
  = ((conclude k s e d0 o).1,
     with_code id calm (conclude k s e d0 o).2).
Proof.
  destruct o as [[x| | |key|v] d w st|msg d w st|d w st|w]; cbn;
    try (destruct (d !! key) as [[?|?]|]; cbn); reflexivity.
Qed.

Lemma execute_script_with_code (id k : string) calm c :
  k ≠ id ->
  execute_script k (with_code id calm c)
  = ((execute_script k c).1, with_code id calm (execute_script k c).2).
Proof.
  intros Hne. unfold ScriptExecutor.execute_script.
  cbn [with_code the_engine the_world the_data engine_with_code scripts].
  rewrite ScriptProps.dict_get_alter.
  destruct (String.eqb_spec k id) as [->|_]; [contradiction|].
  destruct (dict_get k (scripts (the_engine c))) as [s|]; cbn [fmap option_fmap option_map];
    [|reflexivity].
  destruct (enabled s); cbn [negb]; [|reflexivity].
  destruct (pin_loop (gpio_pins s) (the_world c)) as [w1 [msg|]]; [reflexivity|].
  cbv zeta.
  change {| scripts := dict_alter (set_code calm) id (scripts (the_engine c));
            script_states := script_states (the_engine c) |}
    with (engine_with_code id calm (the_engine c)).
  rewrite ensure_state_with_code. exact (conclude_with_code id k calm s _ _ _).
Qed.

(** The loop looks at the id and the [enabled] flag of an entry only. *)
Lemma execute_each_relabel (id : string) calm items
    (acc : option (gmap string entry) * machine outside) :
  execute_each (dict_alter (set_code calm) id items) acc = execute_each items acc.
Proof.
  revert acc. induction items as [|[k0 s] items IH]; intros acc; [reflexivity|].
  unfold dict_alter. cbn [map fst snd]. fold (dict_alter (set_code calm) id items).
  rewrite !execute_each_step, IH. f_equal.
  unfold ScriptExecutor.step.
  destruct (String.eqb k0 id); reflexivity.
Qed.

Lemma execute_each_with_code (id : string) calm items
    (res res' : gmap string entry) c :
  id ∉ enabled_ids items ->
  (forall k, k ≠ id -> res !! k = res' !! k) ->
  (execute_each items (Some res', with_code id calm c)).2
  = with_code id calm (execute_each items (Some res, c)).2
  /\ agree_off id (execute_each items (Some res, c)).1
       (execute_each items (Some res', with_code id calm c)).1.
Proof.
  revert res res' c.
  induction items as [|[k0 s] items IH]; intros res res' c Hnot Hres.
  - split; [reflexivity|exact Hres].
  - rewrite enabled_ids_step in Hnot. rewrite !execute_each_step.
    unfold ScriptExecutor.step. cbn [fst snd].
    destruct (enabled s); [|exact (IH res res' c Hnot Hres)].
    rewrite not_elem_of_cons in Hnot. destruct Hnot as [Hne Hnot].
    rewrite (execute_script_with_code id k0 calm c) by congruence.
    destruct (execute_script k0 c) as [[r|] c1]; cbn [fst snd].
    + apply (IH _ _ c1 Hnot). intros k Hk.
      destruct (decide (k0 = k)) as [->|Hk0].
      * rewrite !lookup_insert_eq. reflexivity.
      * rewrite !lookup_insert_ne by exact Hk0. exact (Hres k Hk).
    + rewrite !execute_each_gone. split; [reflexivity|exact I].
Qed.

(** C7 as stated, of a batch in which the code of script [id] raises:
    the batch returns, and its entry for the script is a record with an
    [error] field, the script's id and a timestamp. *)
Definition exception_is_contained c (id : string) : Prop :=
  exists results msg timestamp,
    (execute_all_enabled_scripts c).1 = Some results
    /\ results !! id
       = Some (ScriptResult (RDict (ScriptEngine.error_record id msg timestamp))).

(** C7, amended.  In a batch over a registry with distinct ids, let the
    code of the enabled script [id], at its turn (after the scripts
    [before] it, which left the machine [c0], and after its pin loop,
    which left the world [w1]), raise an [Exception] with text [msg],
    leaving the [plc_data] [d'], the world [w'] and its state [st'].  Then
    [execute_script] returns the record with the [error] field, the
    script's id and the time; the loop goes on with the scripts [after]
    it; and against the batch in which the script has the code [calm],
    which at that turn has the same effects and returns an object of its
    own, the batch returns or not alike, with the same result at every
    other key, the same stored states, world and [plc_data]; when the
    batch returns, the record is its entry for the script (unless the id
    is ["gpio_states"], the key the batch stores the pin table under). *)
Theorem script_exception_is_contained
    c (id : string) s before after (res0 : gmap string entry) c0 w1
    (msg : string) (d' : plc_data) w' (st' : dict) (calm : behaviour outside)
    (r : returned) :
  NoDup (map fst (scripts (the_engine c))) ->
  scripts (the_engine c) = before ++ (id, s) :: after ->
  enabled s = true ->
  execute_each before (Some ∅, c) = (Some res0, c0) ->
  pin_loop (gpio_pins s) (the_world c0) = (w1, None) ->
  code s (the_data c0) w1 (default ∅ (script_states (the_engine c0) !! id))
  = Raises msg d' w' st' ->
  calm (the_data c0) w1 (default ∅ (script_states (the_engine c0) !! id))
  = Returns r d' w' st' ->
  own_object r ->
  let record := ScriptEngine.error_record id msg (ScriptEngine.clock w') in
  let c1 := left_by id st' (ensure_state id (the_engine c0)) w' d' in
  execute_script id c0 = (Some (RDict record), c1)
  /\ record !! "error"%string = Some (VStr ("Script execution failed: " +:+ msg))
  /\ record !! "script_id"%string = Some (VStr id)
  /\ record !! "timestamp"%string = Some (VFloat (ScriptEngine.clock w'))
  /\ execute_each (scripts (the_engine c)) (Some ∅, c)
     = execute_each after (Some (<[id := ScriptResult (RDict record)]> res0), c1)
  /\ (forall results, (execute_all_enabled_scripts c).1 = Some results ->
        id ≠ "gpio_states"%string ->
        results !! id = Some (ScriptResult (RDict record)))
  /\ agree_off id (execute_all_enabled_scripts c).1
       (execute_all_enabled_scripts (with_code id calm c)).1
  /\ (execute_all_enabled_scripts (with_code id calm c)).2
     = with_code id calm (execute_all_enabled_scripts c).2.
Proof.
  intros Hnd Hsplit Hon Hbefore Hpins Hraises Hcalm Hown record c1.
  destruct (registry_split id s _ before after Hnd Hsplit)
    as (Hget & _ & _ & Hnb & Hna).
  assert (Hget0 : dict_get id (scripts (the_engine c0)) = Some s).
  { pose proof (execute_each_engine before (Some ∅, c)) as (Hsc & _).
    rewrite Hbefore in Hsc. cbn [fst snd] in Hsc. rewrite Hsc. exact Hget. }
  assert (Hrun : execute_script id c0 = (Some (RDict record), c1)).
  { rewrite (execute_script_runs id c0 s w1 Hget0 Hon Hpins).
    rewrite Hraises. reflexivity. }
  assert (Hturn : execute_each (scripts (the_engine c)) (Some ∅, c)
                  = execute_each after
                      (Some (<[id := ScriptResult (RDict record)]> res0), c1)).
  { rewrite Hsplit, (execute_each_turn id s before after res0 c c0 Hon Hbefore).
    rewrite Hrun. reflexivity. }
  split; [exact Hrun|].
  destruct (ScriptProps.error_record_fields id msg (ScriptEngine.clock w'))
    as (F1 & F2 & F3).
  split; [exact F1|]. split; [exact F2|]. split; [exact F3|].
  split; [exact Hturn|].
  (* the batch with the calm code *)
  destruct (execute_each_with_code id calm before ∅ ∅ c Hnb (fun _ _ => eq_refl))
    as [Hb2 Hb1].
  rewrite Hbefore in Hb2, Hb1. cbn [fst snd] in Hb2, Hb1.
  destruct (execute_each before (Some ∅, with_code id calm c))
    as [[res0'|] c0'] eqn:Hbefore'; cbn [fst snd] in Hb2, Hb1; [|contradiction].
  subst c0'.
  assert (Hget' : dict_get id (scripts (the_engine (with_code id calm c0)))
                  = Some (set_code calm s)).
  { cbn [with_code the_engine engine_with_code scripts].
    rewrite ScriptProps.dict_get_alter, Hget0, String.eqb_refl. reflexivity. }
  assert (Hrun' : exists r', execute_script id (with_code id calm c0)
                             = (Some r', with_code id calm c1)).
  { rewrite (execute_script_runs id (with_code id calm c0) (set_code calm s) w1
               Hget' Hon Hpins).
    cbn [with_code the_engine the_world the_data engine_with_code script_states
         set_code code].
    rewrite Hcalm.
    change {| scripts := dict_alter (set_code calm) id (scripts (the_engine c0));
              script_states := script_states (the_engine c0) |}
      with (engine_with_code id calm (the_engine c0)).
    rewrite ensure_state_with_code.
    destruct r as [x| | |key|v]; try contradiction; cbn; eauto. }
  destruct Hrun' as [r' Hrun'].
  assert (Hturn' : execute_each (scripts (the_engine (with_code id calm c)))
                     (Some ∅, with_code id calm c)
                   = execute_each after
                       (Some (<[id := ScriptResult r']> res0'), with_code id calm c1)).
  { cbn [with_code the_engine engine_with_code scripts].
    rewrite execute_each_relabel, Hsplit.
    rewrite (execute_each_turn id s before after res0' _ _ Hon Hbefore').
    rewrite Hrun'. reflexivity. }
  destruct (execute_each_with_code id calm after
              (<[id := ScriptResult (RDict record)]> res0)
              (<[id := ScriptResult r']> res0') c1 Hna) as [Ha2 Ha1].
  { intros k Hk. rewrite !lookup_insert_ne by congruence. exact (Hb1 k Hk). }
  rewrite !execute_all_unfold. cbn [fst snd].
  rewrite Hturn', Hturn, Ha2.
  split; [|split; [|reflexivity]].
  - intros results Hres Hgpio.
    destruct (execute_each after
                (Some (<[id := ScriptResult (RDict record)]> res0), c1))
      as [[res1|] c2] eqn:Hafter; cbn [fst snd fmap option_fmap option_map] in Hres;
      [|discriminate Hres].
    injection Hres as <-. rewrite lookup_insert_ne by congruence.
    pose proof (execute_each_entries after
                  (<[id := ScriptResult (RDict record)]> res0) c1 res1) as Hr.
    rewrite Hafter in Hr. destruct (Hr eq_refl id) as [_ Hkeep].
    rewrite (Hkeep Hna). apply lookup_insert_eq.
  - destruct (execute_each after
                (Some (<[id := ScriptResult (RDict record)]> res0), c1)) as [[res1|] c2];
      destruct (execute_each after
                  (Some (<[id := ScriptResult r']> res0'), with_code id calm c1))
        as [[res1'|] c2']; cbn [fst snd fmap option_fmap option_map agree_off] in *;
      try contradiction; [|exact I].
    intros k Hk. subst c2'.
    cbn [with_code the_world].
    destruct (decide ("gpio_states"%string = k)) as [<-|Hg].
    + rewrite !lookup_insert_eq. reflexivity.
    + rewrite !lookup_insert_ne by exact Hg. exact (Ha1 k Hk).
Qed.

End Exec.

(** *** The runs that [ScriptEngine] follows

    A script of [ScriptEngine] is a script here whose pins are a list,
    whose code lets no exception through, leaves the [plc_data] alone and
    returns an object of its own.  Without the GPIO hardware, whose
    [setup] could raise, the executor does on such scripts what
    [ScriptEngine] does. *)

Section Plain.
Context {outside : Type}.

Definition no_raise : ScriptEngine.world outside -> Z -> option string :=
  fun _ _ => None.

Definition plain_result (r : ScriptEngine.result) : result :=
  match r with
  | ScriptEngine.RDict d => RDict d
  | ScriptEngine.ROther v => ROther v
  end.

Definition plain_entry (x : ScriptEngine.entry) : entry :=
  match x with
  | ScriptEngine.ScriptResult r => ScriptResult (plain_result r)
  | ScriptEngine.GpioStates p => GpioStates p
  end.

Definition plain_code (c : ScriptEngine.behaviour plc_data outside)
  : behaviour outside :=
  fun d w st =>
    match c d w st with
    | ScriptEngine.Returns (ScriptEngine.RDict x) w' st' => Returns (Fresh x) d w' st'
    | ScriptEngine.Returns (ScriptEngine.ROther v) w' st' => Returns (NotDict v) d w' st'
    | ScriptEngine.Raises msg w' st' => Raises msg d w' st'
    | ScriptEngine.NoExecute w' => NoExecute w'
    end.

Definition plain_script (s : ScriptEngine.script plc_data outside) : script outside :=
  {| name := ScriptEngine.name s; description := ScriptEngine.description s;
     enabled := ScriptEngine.enabled s; gpio_pins := Pins (ScriptEngine.gpio_pins s);
     code := plain_code (ScriptEngine.code s) |}.

Definition plain_items (items : list (string * ScriptEngine.script plc_data outside))
  : list (string * script outside) :=
  map (fun item => (item.1, plain_script item.2)) items.

Definition plain (data : plc_data) (e : ScriptEngine.engine plc_data outside)
    (w : ScriptEngine.world outside) : machine outside :=
  {| the_engine := {| scripts := plain_items (ScriptEngine.scripts e);
                      script_states := ScriptEngine.script_states e |};
     the_world := w; the_data := data |}.

Lemma plain_setup_pins (pins : list Z) (w : ScriptEngine.world outside) :
  setup_pins no_raise pins w = (ScriptEngine.setup_pins pins w, None).
Proof.
  revert w. induction pins as [|pin pins IH]; intros w; [reflexivity|].
  cbn [ScriptExecutor.setup_pins]. unfold ScriptEngine.setup_pins. cbn [fold_left].
  fold (@ScriptEngine.setup_pins outside pins).
  destruct (ScriptEngine.pin_states w !! pin); [apply IH|].
  unfold no_raise at 1. apply IH.
Qed.

Lemma plain_dict_get (id : string)
    (items : list (string * ScriptEngine.script plc_data outside)) :
  dict_get id (plain_items items) = plain_script <$> dict_get id items.
Proof.
  induction items as [|[k s] items IH]; [reflexivity|].
  cbn. destruct (String.eqb k id); [reflexivity|exact IH].
Qed.

Lemma plain_ensure_state (id : string) (data : plc_data)
    (e : ScriptEngine.engine plc_data outside) (w : ScriptEngine.world outside) :
  ensure_state id (the_engine (plain data e w))
  = the_engine (plain data (ScriptEngine.ensure_state id e) w).
Proof.
  unfold ScriptExecutor.ensure_state, ScriptEngine.ensure_state.
  cbn [plain the_engine script_states].
  destruct (ScriptEngine.script_states e !! id); reflexivity.
Qed.

(** [execute_script] of the executor on a machine of plain scripts is
    [execute_script] of [ScriptEngine]. *)
Lemma plain_execute_script (id : string) (data : plc_data)
    (e : ScriptEngine.engine plc_data outside) (w : ScriptEngine.world outside) :
  execute_script no_raise id (plain data e w)
  = (Some (plain_result (ScriptEngine.execute_script id data e w).1.1),
     plain data (ScriptEngine.execute_script id data e w).1.2
       (ScriptEngine.execute_script id data e w).2).
Proof.
  unfold ScriptExecutor.execute_script, ScriptEngine.execute_script.
  rewrite plain_ensure_state.
  cbn [plain the_engine the_world the_data scripts script_states].
  rewrite plain_dict_get.
  destruct (dict_get id (ScriptEngine.scripts e)) as [s|];
    cbn [fmap option_fmap option_map]; [|reflexivity].
  cbn [plain_script enabled gpio_pins code ScriptExecutor.pin_loop].
  destruct (ScriptEngine.enabled s); cbn [negb]; [|reflexivity].
  rewrite plain_setup_pins. cbv zeta. unfold ScriptEngine.state_for, plain_code.
  destruct (ScriptEngine.code s data (ScriptEngine.setup_pins (ScriptEngine.gpio_pins s) w)
              (default ∅ (ScriptEngine.script_states (ScriptEngine.ensure_state id e)
                            !! id)))
    as [[x|v] w' st|msg w' st|w']; reflexivity.
Qed.

Lemma plain_execute_each (data : plc_data)
    (items : list (string * ScriptEngine.script plc_data outside))
    (results : gmap string ScriptEngine.entry)
    (e : ScriptEngine.engine plc_data outside) (w : ScriptEngine.world outside) :
  execute_each no_raise (plain_items items) (Some (plain_entry <$> results), plain data e w)
  = (Some (plain_entry <$> (ScriptEngine.execute_each data items (results, e, w)).1.1),
     plain data (ScriptEngine.execute_each data items (results, e, w)).1.2
       (ScriptEngine.execute_each data items (results, e, w)).2).
Proof.
  revert results e w.
  induction items as [|[k s] items IH]; intros results e w; [reflexivity|].
  cbn [plain_items map fst snd]. fold (plain_items items).
  rewrite execute_each_step. unfold ScriptExecutor.step.
  cbn [fst snd plain_script enabled].
  unfold ScriptEngine.execute_each. cbn [fold_left fst snd].
  fold (@ScriptEngine.execute_each plc_data outside data items).
  destruct (ScriptEngine.enabled s); [|apply IH].
  rewrite plain_execute_script.
  destruct (ScriptEngine.execute_script k data e w) as [[r e1] w1].
  cbv beta iota. cbn [fst snd].
  specialize (IH (<[k := ScriptEngine.ScriptResult r]> results) e1 w1).
  rewrite fmap_insert in IH. exact IH.
Qed.

(** A batch of the executor over plain scripts is a batch of
    [ScriptEngine]: it returns, with the same results, stored states and
    world, and the [plc_data] as it was. *)
Lemma plain_batch (data : plc_data)
    (e : ScriptEngine.engine plc_data outside) (w : ScriptEngine.world outside) :
  execute_all_enabled_scripts no_raise (plain data e w)
  = (Some (plain_entry <$> (ScriptEngine.execute_all_enabled_scripts data e w).1.1),
     plain data (ScriptEngine.execute_all_enabled_scripts data e w).1.2
       (ScriptEngine.execute_all_enabled_scripts data e w).2).
Proof.
  unfold ScriptExecutor.execute_all_enabled_scripts,
    ScriptEngine.execute_all_enabled_scripts.
  change (scripts (the_engine (plain data e w)))
    with (plain_items (ScriptEngine.scripts e)).
  pose proof (plain_execute_each data (ScriptEngine.scripts e) ∅ e w) as H.
  rewrite fmap_empty in H. rewrite H.
  destruct (ScriptEngine.execute_each data (ScriptEngine.scripts e) (∅, e, w))
    as [[results e1] w1]. cbn [fst snd plain the_world].
  rewrite fmap_insert. reflexivity.
Qed.

End Plain.

(** *** A registry of three scripts, without the GPIO hardware *)

Definition no_hardware : ScriptEngine.world unit -> Z -> option string :=
  fun _ _ => None.

(** Counts its runs in its state, which it returns. *)
Definition counter : script unit :=
  {| name := "Counter"; description := "counts its runs"; enabled := true;
     gpio_pins := Pins [17];
     code := fun d w st =>
               Returns TheState d w
                 (<["runs" := VInt (match st !! "runs"%string with
                                    | Some (VInt n) => n + 1
                                    | _ => 1
                                    end)]> st) |}.

(** Marks the [plc_data] and its state, then divides by zero. *)
Definition boom : script unit :=
  {| name := "Boom"; description := "divides by zero"; enabled := true;
     gpio_pins := Pins [18];
     code := fun d w st =>
               Raises "division by zero" (<["seen" := Plain (VBool true)]> d) w
                 (<["runs" := VInt 1]> st) |}.

(** Reports whether pin 18 is configured and what it finds in the
    [plc_data]. *)
Definition mirror : script unit :=
  {| name := "Mirror"; description := "reports pin 18"; enabled := true;
     gpio_pins := Pins [];
     code := fun d w st =>
               Returns
                 (Fresh {["pin"%string :=
                            VBool (bool_decide
                                     (is_Some (ScriptEngine.pin_states w !! 18)));
                          "seen"%string :=
                            VBool (bool_decide (is_Some (d !! "seen"%string)))]})
                 d w st |}.

(** The effects of [boom], without the exception. *)
Definition quiet_code : behaviour unit :=
  fun d w st =>
    Returns (NotDict VNone) (<["seen" := Plain (VBool true)]> d) w
      (<["runs" := VInt 1]> st).

Definition at_noon : ScriptEngine.world unit :=
  {| ScriptEngine.pin_states := ∅; ScriptEngine.clock := 43200;
     ScriptEngine.plc := tt |}.

Definition workshop : machine unit :=
  {| the_engine :=
       {| scripts := [("counter"%string, counter); ("boom"%string, boom);
                      ("mirror"%string, mirror)];
          script_states := {["boom"%string := {["runs"%string := VInt 0]}]} |};
     the_world := at_noon;
     the_data := {["connected"%string := Plain (VBool true)]} |}.

Definition workshop_after_counter
  : option (gmap string entry) * machine unit :=
  execute_each no_hardware [("counter"%string, counter)] (Some ∅, workshop).

Lemma workshop_counter_is_run :
  match workshop_after_counter.1 with Some _ => true | None => false end = true.
Proof. vm_compute. reflexivity. Qed.

Lemma workshop_counter_returns :
  workshop_after_counter
  = (Some (default ∅ workshop_after_counter.1), workshop_after_counter.2).
Proof.
  pose proof workshop_counter_is_run as H.
  destruct workshop_after_counter as [[res|] c]; [reflexivity|discriminate H].
Qed.

Lemma workshop_pins_of_boom :
  (pin_loop no_hardware (gpio_pins boom) (the_world workshop_after_counter.2)).2
  = None.
Proof. vm_compute. reflexivity. Qed.

Lemma workshop_distinct_ids : NoDup (map fst (scripts (the_engine workshop))).
Proof.
  cbn. repeat (apply NoDup_cons; split; [|]); try apply NoDup_nil_2;
    rewrite ?elem_of_cons, ?elem_of_nil; intuition discriminate.
Qed.

Lemma script_exception_is_contained_witness :
  agree_off "boom"
    (execute_all_enabled_scripts no_hardware workshop).1
    (execute_all_enabled_scripts no_hardware
       (with_code "boom" quiet_code workshop)).1.
Proof.
  set (c0 := workshop_after_counter.2).
  set (w1 := (pin_loop no_hardware (gpio_pins boom) (the_world c0)).1).
  refine (proj1 (proj2 (proj2 (proj2 (proj2 (proj2 (proj2
    (script_exception_is_contained no_hardware workshop "boom" boom
       [("counter"%string, counter)] [("mirror"%string, mirror)]
       (default ∅ workshop_after_counter.1) c0 w1
       "division by zero" (<["seen" := Plain (VBool true)]> (the_data c0)) w1
       (<["runs" := VInt 1]>
          (default ∅ (script_states (the_engine c0) !! "boom"%string)))
       quiet_code (NotDict VNone)
       workshop_distinct_ids eq_refl eq_refl workshop_counter_returns
       _ eq_refl eq_refl I)))))))).
  apply injective_projections; [reflexivity|exact workshop_pins_of_boom].
Defined.

Lemma batch_reports_each_result_witness :
  execute_each no_hardware (scripts (the_engine workshop)) (Some ∅, workshop)
  = execute_each no_hardware [("mirror"%string, mirror)]
      (match execute_script no_hardware "boom" workshop_after_counter.2 with
       | (Some r, c1) =>
           (Some (<["boom"%string := ScriptResult r]>
                    (default ∅ workshop_after_counter.1)), c1)
       | (None, c1) => (None, c1)
       end).
Proof.
  exact (proj1 (batch_reports_each_result no_hardware workshop "boom" boom
                  [("counter"%string, counter)] [("mirror"%string, mirror)]
                  (default ∅ workshop_after_counter.1) workshop_after_counter.2
                  workshop_distinct_ids eq_refl eq_refl workshop_counter_returns)).
Defined.

Lemma batch_touches_only_what_it_runs_witness :
  is_Some (script_states
             (the_engine (execute_all_enabled_scripts no_hardware workshop).2)
           !! "boom"%string).
Proof.
  exact (proj1 (proj2 (proj2 (proj2
           (batch_touches_only_what_it_runs no_hardware workshop "boom" boom
              [("counter"%string, counter)] [("mirror"%string, mirror)]
              (default ∅ workshop_after_counter.1) workshop_after_counter.2
              workshop_distinct_ids eq_refl eq_refl workshop_counter_returns))))
           workshop_pins_of_boom).
Defined.



(** *** Hardware that refuses pin 18 *)

Definition stubborn : ScriptEngine.world unit -> Z -> option string :=
  fun _ pin => if pin =? 18 then Some "Invalid channel"%string else None.

Lemma stubborn_pins_of_boom :
  (pin_loop stubborn (gpio_pins boom) (the_world workshop)).2
  = Some "Invalid channel"%string.
Proof. vm_compute. reflexivity. Qed.

Lemma script_runs_after_its_pin_loop_witness :
  let w1 := (pin_loop stubborn (gpio_pins boom) (the_world workshop)).1 in
  execute_script stubborn "boom" workshop
  = (Some (RDict (ScriptEngine.error_record "boom" "Invalid channel"
                    (ScriptEngine.clock w1))),
     {| the_engine := the_engine workshop; the_world := w1;
        the_data := the_data workshop |}).
Proof.
  exact (proj1 (proj2 (proj2 (proj2 (proj2 (proj2
           (script_runs_after_its_pin_loop stubborn "boom" workshop boom
              eq_refl eq_refl)))))
           "Invalid channel"%string stubborn_pins_of_boom)).
Defined.

(** *** A script that raises [SystemExit] *)

Definition quitter : script unit :=
  {| name := "Quitter"; description := "raises SystemExit"; enabled := true;
     gpio_pins := Pins [];
     code := fun d w st => Escapes d w st |}.

Definition office : machine unit :=
  {| the_engine :=
       {| scripts := [("quitter"%string, quitter); ("mirror"%string, mirror)];
          script_states := ∅ |};
     the_world := at_noon;
     the_data := ∅ |}.

Lemma office_batch_does_not_return :
  (execute_all_enabled_scripts no_hardware office).1 = None.
Proof. vm_compute. reflexivity. Qed.

(** C7, as stated, fails.  The code of [quitter] raises an exception that
    is no [Exception]: [except Exception] does not catch it, it leaves
    [execute_script] and the loop of the batch, and the batch returns no
    results, for [quitter] or for [mirror]. *)
Lemma any_exception_is_contained_fails :
  code quitter (the_data office) (the_world office)
    (default ∅ (script_states (the_engine office) !! "quitter"%string))
  = Escapes (the_data office) (the_world office) ∅
  /\ ~ exception_is_contained no_hardware office "quitter".
Proof.
  split; [reflexivity|].
  intros (results & msg & timestamp & Hreturns & _).
  rewrite office_batch_does_not_return in Hreturns. discriminate Hreturns.
Qed.

End ExecutorProps.

(** * Further properties of the code *)

(** ** The codec: requests and what the readers accept *)

Module CodecMore.
Import ModbusRTU.

Lemma crc_shift_double (y : Z) : crc_shift (2 * y) = y.
Proof.
  unfold crc_shift. rewrite land_1_testbit, Z.testbit_even_0.
  rewrite Z.shiftr_div_pow2 by lia. change (2 ^ 1) with 2.
  rewrite Z.mul_comm. apply Z.div_mul. lia.
Qed.

(** Absorbing the low byte of the accumulator leaves its high byte. *)
Lemma crc_update_low (c : Z) : crc_update c (c mod 256) = c / 256.
Proof.
  unfold crc_update.
  pose proof (Z.mod_pos_bound c 256 ltac:(lia)) as Hm.
  rewrite <- (xor_low_byte_lxor c (c mod 256) Hm).
  unfold CrcSpec.xor_low_byte. rewrite Z.lxor_nilpotent, Z.add_0_r.
  replace (c / 256 * 256)
    with (2 * (2 * (2 * (2 * (2 * (2 * (2 * (2 * (c / 256))))))))) by lia.
  cbn [seq fold_left]. rewrite !crc_shift_double. reflexivity.
Qed.

Lemma crc_update_self (h : Z) : crc_update h h = 0.
Proof. unfold crc_update. rewrite Z.lxor_nilpotent. reflexivity. Qed.

Lemma crc16_app (data tail : list Z) :
  crc16 (data ++ tail) = fold_left crc_update tail (crc16 data).
Proof. unfold crc16. apply fold_left_app. Qed.

(** A frame followed by its own CRC, low byte first, has CRC zero: this is
    the check a receiver makes. *)
Lemma crc16_residue (data : list Z) :
  crc16 (data ++ [crc16 data mod 256; crc16 data / 256]) = 0.
Proof.
  rewrite crc16_app. cbn [fold_left].
  rewrite crc_update_low. apply crc_update_self.
Qed.

(** X1.  For arguments in range [build_request] gives eight bytes, and the
    CRC of the eight bytes is zero: the two CRC bytes it appends are the
    ones a receiver checks the first six against. *)
Theorem build_request_checks_out (slave_id function_code start_addr count : Z) :
  0 <= slave_id < 256 -> 0 <= function_code < 256 ->
  0 <= start_addr < 65536 -> 0 <= count < 65536 ->
  exists request,
    build_request slave_id function_code start_addr count = Some request
    /\ length request = 8%nat
    /\ Forall (fun b => 0 <= b < 256) request
    /\ crc16 request = 0.
Proof.
  intros Hs Hf Ha Hc.
  pose proof (RoundTrip.build_request_layout slave_id function_code start_addr count
                Hs Hf Ha Hc) as Hreq.
  cbv zeta in Hreq.
  set (six := [slave_id; function_code; start_addr / 256; start_addr mod 256;
               count / 256; count mod 256]) in *.
  assert (Hsix : Forall (fun b => 0 <= b < 256) six).
  { pose proof (Z.mod_pos_bound start_addr 256).
    pose proof (Z.mod_pos_bound count 256).
    assert (0 <= start_addr / 256 < 256)
      by (split; [apply Z.div_pos; lia|apply Z.div_lt_upper_bound; lia]).
    assert (0 <= count / 256 < 256)
      by (split; [apply Z.div_pos; lia|apply Z.div_lt_upper_bound; lia]).
    unfold six. repeat constructor; lia. }
  pose proof (CodecProps.crc16_range six Hsix) as Hcrc.
  exists (six ++ [crc16 six mod 256; crc16 six / 256]).
  split; [exact Hreq|]. split; [reflexivity|]. split.
  - apply Forall_app. split; [exact Hsix|].
    pose proof (Z.mod_pos_bound (crc16 six) 256).
    assert (0 <= crc16 six / 256 < 256)
      by (split; [apply Z.div_pos; lia|apply Z.div_lt_upper_bound; lia]).
    repeat constructor; lia.
  - apply crc16_residue.
Qed.

Lemma build_request_checks_out_witness :
  exists request,
    build_request 1 3 0 10 = Some request
    /\ length request = 8%nat
    /\ Forall (fun b => 0 <= b < 256) request
    /\ crc16 request = 0.
Proof.
  exact (build_request_checks_out 1 3 0 10 ltac:(lia) ltac:(lia) ltac:(lia) ltac:(lia)).
Defined.

(** *** When a request is built at all *)

Lemma to_bytes2_big_None (n : Z) :
  to_bytes2_big n = None <-> ~ 0 <= n < 65536.
Proof.
  unfold to_bytes2_big.
  destruct (Z.leb_spec 0 n), (Z.ltb_spec n 65536); cbn; split;
    try discriminate; try lia; reflexivity.
Qed.

Lemma bytearray_None (l : list Z) :
  bytearray l = None <-> ~ Forall (fun b => 0 <= b < 256) l.
Proof.
  unfold bytearray. destruct (forallb is_byte l) eqn:Hall; split.
  - discriminate.
  - intros Hn. exfalso. apply Hn. apply Forall_forall. intros x Hx.
    rewrite forallb_forall in Hall. apply list_elem_of_In in Hx.
    specialize (Hall x Hx). unfold is_byte in Hall.
    apply andb_true_iff in Hall as [H1 H2].
    apply Z.leb_le in H1. apply Z.ltb_lt in H2. lia.
  - intros _ Hall'. pose proof (RoundTrip.bytearray_ok l Hall') as Hok.
    unfold bytearray in Hok. rewrite Hall in Hok. discriminate.
  - reflexivity.
Qed.

Lemma build_request_None_iff (slave_id f start_addr count : Z) :
  build_request slave_id f start_addr count = None
  <-> ~ (0 <= slave_id < 256 /\ 0 <= f < 256
         /\ 0 <= start_addr < 65536 /\ 0 <= count < 65536).
Proof.
  split.
  - intros Hnone (Hs & Hf & Ha & Hc).
    pose proof (RoundTrip.build_request_layout slave_id f start_addr count
                  Hs Hf Ha Hc) as Hsome.
    cbv zeta in Hsome. rewrite Hsome in Hnone. discriminate.
  - intros Hout. unfold build_request.
    destruct (bytearray [slave_id; f]) as [hd|] eqn:Hb; [|reflexivity].
    rewrite RoundTrip.bind_Some.
    destruct (to_bytes2_big start_addr) as [addr|] eqn:Ha; [|reflexivity].
    rewrite RoundTrip.bind_Some.
    destruct (to_bytes2_big count) as [cnt|] eqn:Hc; [|reflexivity].
    exfalso. apply Hout.
    assert (Hb' : Forall (fun b => 0 <= b < 256) [slave_id; f]).
    { destruct (decide (Forall (fun b => 0 <= b < 256) [slave_id; f]))
        as [H|H]; [exact H|].
      apply bytearray_None in H. congruence. }
    inversion Hb' as [|? ? Hs Hrest]; subst.
    inversion Hrest as [|? ? Hf _]; subst.
    assert (Ha' : 0 <= start_addr < 65536).
    { destruct (decide (0 <= start_addr < 65536)) as [H|H]; [exact H|].
      apply to_bytes2_big_None in H. congruence. }
    assert (Hc' : 0 <= count < 65536).
    { destruct (decide (0 <= count < 65536)) as [H|H]; [exact H|].
      apply to_bytes2_big_None in H. congruence. }
    auto.
Qed.


(** *** What the readers reject and what they return *)

Lemma build_request_head (slave_id function_code start_addr count : Z)
    (request : list Z) :
  build_request slave_id function_code start_addr count = Some request ->
  request !! 0%nat = Some slave_id /\ request !! 1%nat = Some function_code.
Proof.
  intros Hreq.
  destruct (decide (0 <= slave_id < 256 /\ 0 <= function_code < 256
                    /\ 0 <= start_addr < 65536 /\ 0 <= count < 65536))
    as [(Hs & Hf & Ha & Hc)|Hout].
  - pose proof (RoundTrip.build_request_layout slave_id function_code start_addr
                  count Hs Hf Ha Hc) as Hsome.
    cbv zeta in Hsome. rewrite Hsome in Hreq. injection Hreq as <-.
    split; reflexivity.
  - apply build_request_None_iff in Hout. congruence.
Qed.

(** X3.  A reader answers [None] whenever the frame read back does not
    start with the slave id and the function code of the request it
    answers. *)
Theorem readers_reject_foreign_frames
    (u : uart) (slave_id start_addr count : Z) :
  (forall request response, u request = Some response ->
     response !! 0%nat ≠ request !! 0%nat \/ response !! 1%nat ≠ request !! 1%nat) ->
  read_coils u slave_id start_addr count = None
  /\ read_discrete_inputs u slave_id start_addr count = None
  /\ read_holding_registers u slave_id start_addr count = None.
Proof.
  intros Hforeign.
  unfold read_coils, read_discrete_inputs, read_holding_registers.
  repeat split.
  - destruct (build_request slave_id 1 start_addr count) as [req|] eqn:Hreq;
      [|reflexivity].
    rewrite RoundTrip.bind_Some.
    destruct (u req) as [resp|] eqn:Hu; [|reflexivity].
    destruct (build_request_head _ _ _ _ _ Hreq) as [H0 H1].
    apply Boundary.decode_bits_mismatch.
    rewrite <- H0, <- H1. exact (Hforeign req resp Hu).
  - destruct (build_request slave_id 2 start_addr count) as [req|] eqn:Hreq;
      [|reflexivity].
    rewrite RoundTrip.bind_Some.
    destruct (u req) as [resp|] eqn:Hu; [|reflexivity].
    destruct (build_request_head _ _ _ _ _ Hreq) as [H0 H1].
    apply Boundary.decode_bits_mismatch.
    rewrite <- H0, <- H1. exact (Hforeign req resp Hu).
  - destruct (build_request slave_id 3 start_addr count) as [req|] eqn:Hreq;
      [|reflexivity].
    rewrite RoundTrip.bind_Some.
    destruct (u req) as [resp|] eqn:Hu; [|reflexivity].
    destruct (build_request_head _ _ _ _ _ Hreq) as [H0 H1].
    apply Boundary.decode_registers_mismatch.
    rewrite <- H0, <- H1. exact (Hforeign req resp Hu).
Qed.

(** A line on which slave 5 answers every request, with the function code
    asked. *)
Definition slave_five : uart :=
  fun request =>
    match request with
    | slave_id :: function_code :: _ =>
        if slave_id =? 5 then None
        else Some (Synthetic.frame 5 function_code [0xFF; 0xFF])
    | _ => None
    end.

Lemma readers_reject_foreign_frames_witness :
  read_coils slave_five 1 0 16 = None
  /\ read_discrete_inputs slave_five 1 0 16 = None
  /\ read_holding_registers slave_five 1 0 1 = None.
Proof.
  assert (H : forall request response, slave_five request = Some response ->
                response !! 0%nat ≠ request !! 0%nat
                \/ response !! 1%nat ≠ request !! 1%nat).
  { intros [|a [|f rest]] response; cbn; try discriminate.
    destruct (Z.eqb_spec a 5) as [->|Hne]; [discriminate|].
    intros [= <-]. left. cbn. congruence. }
  split; [exact (proj1 (readers_reject_foreign_frames slave_five 1 0 16 H))|].
  split; [exact (proj1 (proj2 (readers_reject_foreign_frames slave_five 1 0 16 H)))|].
  exact (proj2 (proj2 (readers_reject_foreign_frames slave_five 1 0 1 H))).
Defined.

(** The bits of the data bytes in the order the readers take them: bit 0
    of the first byte first. *)
Definition bits_of (data_bytes : list Z) : list bool :=
  flat_map (fun byte_val => map (fun i => Z.testbit byte_val (Z.of_nat i)) (seq 0 8))
           data_bytes.

Lemma append_bits_take (count byte_val : Z) (m i0 : nat) (bits : list bool) :
  fold_left (RoundTrip.append_bit count byte_val) (seq i0 m) bits
  = bits ++ take (Z.to_nat count - length bits)
              (map (fun i => Z.testbit byte_val (Z.of_nat i)) (seq i0 m)).
Proof.
  revert i0 bits. induction m as [|m IH]; intros i0 bits.
  - cbn. rewrite take_nil, app_nil_r. reflexivity.
  - cbn [seq fold_left map]. rewrite IH. unfold RoundTrip.append_bit.
    destruct (Z.ltb_spec (Z.of_nat (length bits)) count) as [Hlt|Hge].
    + rewrite land_shiftl_testbit by lia.
      rewrite length_app. cbn [length].
      replace (Z.to_nat count - length bits)%nat
        with (S (Z.to_nat count - (length bits + 1))) by lia.
      cbn [take]. rewrite <- app_assoc. reflexivity.
    + replace (Z.to_nat count - length bits)%nat with 0%nat by lia.
      reflexivity.
Qed.

Lemma unpack_bytes_from (count : Z) (data_bytes : list Z) (bits : list bool) :
  fold_left
    (fun bits byte_val =>
       fold_left (RoundTrip.append_bit count byte_val) (seq 0 8) bits)
    data_bytes bits
  = bits ++ take (Z.to_nat count - length bits) (bits_of data_bytes).
Proof.
  revert bits. induction data_bytes as [|b rest IH]; intros bits.
  - cbn. rewrite take_nil, app_nil_r. reflexivity.
  - cbn [fold_left bits_of flat_map]. rewrite append_bits_take, IH.
    fold (bits_of rest).
    rewrite <- app_assoc. f_equal.
    rewrite take_app. f_equal.
    rewrite length_app, length_take, length_map, length_seq. f_equal. lia.
Qed.

Lemma unpack_bits_take (count : Z) (data_bytes : list Z) :
  unpack_bits count data_bytes = take (Z.to_nat count) (bits_of data_bytes).
Proof.
  change (unpack_bits count data_bytes)
    with (fold_left
            (fun bits byte_val =>
               fold_left (RoundTrip.append_bit count byte_val) (seq 0 8) bits)
            data_bytes []).
  rewrite unpack_bytes_from. cbn [app length]. rewrite Nat.sub_0_r. reflexivity.
Qed.

(** X4.  On a frame of at least five bytes that starts with the slave id
    and the function code, the bit readers return the first [count] bits
    of the data bytes they find after the byte count -- as many of the
    declared bytes as were received -- bit 0 of the first byte first; so
    never more than [count] values, and fewer when the data is short. *)
Theorem decode_bits_takes_leading_bits
    (function_code slave_id count byte_count : Z) (response : list Z) :
  (5 <= length response)%nat ->
  response !! 0%nat = Some slave_id ->
  response !! 1%nat = Some function_code ->
  response !! 2%nat = Some byte_count ->
  decode_bits function_code slave_id count (Some response)
  = Some (take (Z.to_nat count)
            (bits_of (take (Z.to_nat byte_count) (drop 3 response))))
  /\ (length (take (Z.to_nat count)
               (bits_of (take (Z.to_nat byte_count) (drop 3 response))))
      = Z.to_nat count `min` (8 * (Z.to_nat byte_count `min` (length response - 3))))%nat.
Proof.
  intros Hlen H0 H1 H2. split.
  - unfold decode_bits.
    destruct (Nat.eqb_spec (length response) 0) as [Hz|_]; [lia|].
    destruct (Z.leb_spec 5 (Z.of_nat (length response))); [|lia].
    cbn [negb andb]. rewrite H0, H1, !RoundTrip.bind_Some, !Z.eqb_refl.
    cbn [andb]. rewrite H2, RoundTrip.bind_Some.
    rewrite unpack_bits_take, take_take, Nat.min_id. reflexivity.
  - rewrite length_take. f_equal.
    assert (Hbits : forall l, length (bits_of l) = (8 * length l)%nat).
    { induction l as [|b l IH]; [reflexivity|].
      cbn [bits_of flat_map]. rewrite length_app, length_map, length_seq.
      fold (bits_of l). rewrite IH. cbn [length]. lia. }
    rewrite Hbits, length_take, length_drop. reflexivity.
Qed.

Lemma decode_bits_takes_leading_bits_witness :
  decode_bits 1 1 10 (Some [0x01; 0x01; 0x02; 0xCD; 0x6B; 0xB2; 0x0E])
  = Some (take (Z.to_nat 10)
            (bits_of (take (Z.to_nat 2)
                        (drop 3 [0x01; 0x01; 0x02; 0xCD; 0x6B; 0xB2; 0x0E])))).
Proof.
  exact (proj1 (decode_bits_takes_leading_bits 1 1 10 2
                  [0x01; 0x01; 0x02; 0xCD; 0x6B; 0xB2; 0x0E]
                  ltac:(cbn; lia) eq_refl eq_refl eq_refl)).
Defined.

Lemma join_bytes (hi lo : Z) :
  0 <= lo < 256 -> Z.lor (Z.shiftl hi 8) lo = 256 * hi + lo.
Proof.
  intros Hlo.
  pose proof (RoundTrip.join_split_register (256 * hi + lo)) as H.
  rewrite Z.shiftr_div_pow2 in H by lia. change 255 with (Z.ones 8) in H.
  rewrite Z.land_ones in H by lia. change (2 ^ 8) with 256 in H.
  replace (256 * hi + lo) with (lo + hi * 256) in H by lia.
  rewrite Z.div_add, Z.mod_add, Z.div_small, Z.mod_small in H by lia.
  rewrite Z.add_0_l in H. lia.
Qed.

Lemma mapM_pointwise {A B} (f : A -> option B) (g : A -> B) (l : list A) :
  (forall x, In x l -> f x = Some (g x)) -> mapM f l = Some (map g l).
Proof.
  induction l as [|x l IH]; intros H; [reflexivity|].
  cbn [mapM map]. rewrite (H x) by (left; reflexivity).
  rewrite RoundTrip.bind_Some, IH by (intros y Hy; apply H; right; exact Hy).
  reflexivity.
Qed.

(** X5.  On a whole frame for function code 3 -- slave id and function
    code right, at least [3 + byte_count + 2] bytes -- the register reader
    returns one register for every two declared data bytes, rounded up, and
    not the number of registers that was asked for; register [k] is
    [256 * response[3+2k] + response[4+2k]], a 16-bit value. *)
Theorem decode_registers_pairs_bytes
    (slave_id byte_count : Z) (response : list Z) :
  Forall (fun b => 0 <= b < 256) response ->
  response !! 0%nat = Some slave_id ->
  response !! 1%nat = Some 0x03 ->
  response !! 2%nat = Some byte_count ->
  3 + byte_count + 2 <= Z.of_nat (length response) ->
  exists registers,
    decode_registers slave_id (Some response) = Some registers
    /\ length registers = Z.to_nat ((byte_count + 1) / 2)
    /\ Forall (fun r => 0 <= r < 65536) registers
    /\ forall k, (k < length registers)%nat ->
         registers !! k
         = Some (256 * nth (3 + 2 * k) response 0 + nth (4 + 2 * k) response 0).
Proof.
  intros Hbytes H0 H1 H2 Hlen.
  assert (Hbc : 0 <= byte_count < 256).
  { rewrite Forall_forall in Hbytes. apply Hbytes.
    apply list_elem_of_lookup. eauto. }
  set (n := Z.to_nat ((byte_count + 1) / 2)).
  assert (Hn : (2 * n <= Z.to_nat byte_count + 1)%nat).
  { unfold n. pose proof (Z.div_mod (byte_count + 1) 2 ltac:(lia)).
    pose proof (Z.mod_pos_bound (byte_count + 1) 2 ltac:(lia)).
    assert (0 <= (byte_count + 1) / 2) by (apply Z.div_pos; lia). lia. }
  assert (Hnth : forall i, (i < length response)%nat ->
                   response !! i = Some (nth i response 0)
                   /\ 0 <= nth i response 0 < 256).
  { intros i Hi. destruct (lookup_lt_is_Some_2 response i Hi) as [x Hx].
    rewrite (nth_lookup_Some _ _ 0 _ Hx). split; [exact Hx|].
    rewrite Forall_forall in Hbytes. apply Hbytes.
    apply list_elem_of_lookup. eauto. }
  set (g := fun i : Z => Z.lor (Z.shiftl (nth (Z.to_nat (3 + i)) response 0) 8)
                           (nth (Z.to_nat (3 + i + 1)) response 0)).
  exists (map g (range_step2 byte_count)).
  assert (Hrange : range_step2 byte_count
                   = map (fun k => 2 * Z.of_nat k) (seq 0 n)) by reflexivity.
  split; [|split; [|split]].
  - unfold decode_registers.
    destruct (Nat.eqb_spec (length response) 0) as [Hz|_]; [lia|].
    destruct (Z.leb_spec 5 (Z.of_nat (length response))); [|lia].
    cbn [negb andb]. rewrite H0, H1, !RoundTrip.bind_Some, !Z.eqb_refl.
    cbn [andb]. rewrite H2, RoundTrip.bind_Some.
    destruct (Z.leb_spec (3 + byte_count + 2) (Z.of_nat (length response))); [|lia].
    apply mapM_pointwise. intros i Hi. rewrite Hrange in Hi.
    apply in_map_iff in Hi as (k & <- & Hk). apply in_seq in Hk.
    destruct (Hnth (Z.to_nat (3 + 2 * Z.of_nat k)) ltac:(lia)) as [-> _].
    destruct (Hnth (Z.to_nat (3 + 2 * Z.of_nat k + 1)) ltac:(lia)) as [-> _].
    reflexivity.
  - rewrite length_map, Hrange, length_map, length_seq. reflexivity.
  - apply Forall_forall. intros r Hr.
    apply list_elem_of_In, in_map_iff in Hr as (i & <- & Hi).
    rewrite Hrange in Hi. apply in_map_iff in Hi as (k & <- & Hk).
    apply in_seq in Hk. unfold g.
    destruct (Hnth (Z.to_nat (3 + 2 * Z.of_nat k)) ltac:(lia)) as [_ Hhi].
    destruct (Hnth (Z.to_nat (3 + 2 * Z.of_nat k + 1)) ltac:(lia)) as [_ Hlo].
    rewrite join_bytes by exact Hlo. lia.
  - intros k Hk. rewrite length_map, Hrange, length_map, length_seq in Hk.
    assert (Hlook : map g (map (fun k => 2 * Z.of_nat k) (seq 0 n)) !! k
                    = Some (g (2 * Z.of_nat k))).
    { rewrite map_map.
      change (map (fun x => g (2 * Z.of_nat x)) (seq 0 n))
        with ((fun x => g (2 * Z.of_nat x)) <$> seq 0 n).
      rewrite list_lookup_fmap, lookup_seq_lt by exact Hk. reflexivity. }
    rewrite Hrange, Hlook. unfold g.
    replace (Z.to_nat (3 + 2 * Z.of_nat k)) with (3 + 2 * k)%nat by lia.
    replace (Z.to_nat (3 + 2 * Z.of_nat k + 1)) with (4 + 2 * k)%nat by lia.
    destruct (Hnth (4 + 2 * k)%nat ltac:(lia)) as [_ Hlo].
    rewrite join_bytes by exact Hlo. reflexivity.
Qed.

Lemma decode_registers_pairs_bytes_witness :
  exists registers,
    decode_registers 1 (Some [0x01; 0x03; 0x04; 0x12; 0x34; 0xAB; 0xCD; 0x00; 0x00])
    = Some registers
    /\ length registers = Z.to_nat ((4 + 1) / 2).
Proof.
  destruct (decode_registers_pairs_bytes 1 4
              [0x01; 0x03; 0x04; 0x12; 0x34; 0xAB; 0xCD; 0x00; 0x00]
              ltac:(repeat constructor; lia) eq_refl eq_refl eq_refl
              ltac:(cbn; lia)) as (registers & H1 & H2 & _).
  exists registers. split; assumption.
Defined.

End CodecMore.

(** ** Dicts built by comprehensions *)

Module DictKeys.

Lemma fmt03d_keys_distinct : NoDup (map fmt03d (seq 0 1000)).
Proof. apply (bool_decide_unpack _). vm_compute. exact I. Qed.

(** The keys [f'{i:03d}'] of fewer than a thousand entries are distinct. *)
Lemma fmt03d_inj (i j : nat) :
  (i < 1000)%nat -> (j < 1000)%nat -> fmt03d i = fmt03d j -> i = j.
Proof.
  intros Hi Hj Heq.
  pose proof fmt03d_keys_distinct as Hnd.
  change (map fmt03d (seq 0 1000)) with (fmt03d <$> seq 0 1000) in Hnd.
  apply (proj1 (NoDup_alt _) Hnd i j (fmt03d i)).
  - rewrite list_lookup_fmap, lookup_seq_lt by exact Hi. reflexivity.
  - rewrite list_lookup_fmap, lookup_seq_lt by exact Hj. cbn. congruence.
Qed.

Section Fold.
Context `{Countable K} {V A : Type}.
Variable key : nat -> K.
Variable pair : nat -> V -> A.
Variable step : gmap K V -> A -> gmap K V.
Hypothesis Hstep : forall d i v, step d (pair i v) = <[key i := v]> d.

Lemma fold_imap_snoc (xs : list V) (x : V) (d0 : gmap K V) :
  fold_left step (imap pair (xs ++ [x])) d0
  = <[key (length xs) := x]> (fold_left step (imap pair xs) d0).
Proof.
  rewrite imap_app, fold_left_app. cbn [imap fold_left].
  rewrite Nat.add_0_r. unfold compose. apply Hstep.
Qed.

(** A key that no index produces keeps the value it had. *)
Lemma fold_imap_other (xs : list V) (d0 : gmap K V) (k : K) :
  (forall i, (i < length xs)%nat -> key i ≠ k) ->
  fold_left step (imap pair xs) d0 !! k = d0 !! k.
Proof.
  induction xs as [|x xs IH] using rev_ind; intros Hk; [reflexivity|].
  rewrite fold_imap_snoc, lookup_insert_ne.
  - apply IH. intros i Hi. apply Hk. rewrite length_app. cbn. lia.
  - apply Hk. rewrite length_app. cbn. lia.
Qed.

(** The key of index [j] is bound to element [j]. *)
Lemma fold_imap_lookup (xs : list V) (d0 : gmap K V) (j : nat) :
  (forall i i', (i < length xs)%nat -> (i' < length xs)%nat ->
     key i = key i' -> i = i') ->
  (j < length xs)%nat ->
  fold_left step (imap pair xs) d0 !! key j = xs !! j.
Proof.
  induction xs as [|x xs IH] using rev_ind; intros Hinj Hj; [cbn in Hj; lia|].
  rewrite length_app in Hinj, Hj. cbn [length] in Hinj, Hj.
  rewrite fold_imap_snoc.
  destruct (decide (j = length xs)) as [->|Hne].
  - rewrite lookup_insert_eq, lookup_app_r, Nat.sub_diag by lia. reflexivity.
  - rewrite lookup_insert_ne.
    + rewrite lookup_app_l by lia. apply IH; [|lia].
      intros i i' Hi Hi'. apply Hinj; lia.
    + intros Heq. apply Hne. symmetry. apply Hinj; [lia|lia|exact Heq].
Qed.

End Fold.

Section FoldSeq.
Context `{Countable K} {V : Type}.
Variable key : nat -> K.
Variable val : nat -> V.

(** A loop [for i in range(n): d[key(i)] = val(i)] binds the key of every
    index below [n] to its value, when the keys are distinct. *)
Lemma fold_seq_lookup (n : nat) (d0 : gmap K V) (j : nat) :
  (forall i i', (i < n)%nat -> (i' < n)%nat -> key i = key i' -> i = i') ->
  (j < n)%nat ->
  fold_left (fun d i => <[key i := val i]> d) (seq 0 n) d0 !! key j = Some (val j).
Proof.
  induction n as [|n IH]; intros Hinj Hj; [lia|].
  rewrite seq_S, fold_left_app. cbn [fold_left Nat.add].
  destruct (decide (j = n)) as [->|Hne].
  - apply lookup_insert_eq.
  - rewrite lookup_insert_ne.
    + apply IH; [|lia]. intros i i' Hi Hi'. apply Hinj; lia.
    + intros Heq. apply Hne. symmetry. apply Hinj; [lia|lia|exact Heq].
Qed.

End FoldSeq.

Lemma append_inj (prefix a b : string) : prefix +:+ a = prefix +:+ b -> a = b.
Proof.
  induction prefix as [|c p IH]; cbn; [auto|]. intros [= Heq]. auto.
Qed.

Import ESP32PLCBridge.

Lemma status_dict_lookup {V} (prefix : string) (xs : list V) (j : nat) :
  (length xs <= 1000)%nat -> (j < length xs)%nat ->
  status_dict prefix xs !! (prefix +:+ fmt03d j) = xs !! j.
Proof.
  intros Hlen Hj. unfold status_dict, dict_of.
  apply (fold_imap_lookup (fun i => prefix +:+ fmt03d i)
           (fun i x => (prefix +:+ fmt03d i, x))
           (fun d kv => <[kv.1 := kv.2]> d)); [reflexivity| |exact Hj].
  intros i i' Hi Hi' Heq. apply fmt03d_inj; [lia|lia|].
  exact (append_inj prefix _ _ Heq).
Qed.

Lemma numbered_dict_lookup {V} (xs : list V) (j : nat) :
  (j < length xs)%nat ->
  numbered_dict xs !! (Z.of_nat j + 1) = xs !! j.
Proof.
  intros Hj. unfold numbered_dict, dict_of.
  apply (fold_imap_lookup (fun i => Z.of_nat i + 1)
           (fun i x => (Z.of_nat i + 1, x))
           (fun d kv => <[kv.1 := kv.2]> d)); [reflexivity| |exact Hj].
  intros i i' _ _ Heq. lia.
Qed.

Lemma registers_dict_lookup (registers : list Z) (j : nat) :
  (length registers <= 999)%nat -> (j < length registers)%nat ->
  registers_dict registers !! inl ("DS" +:+ fmt03d (j + 1)) = registers !! j
  /\ registers_dict registers !! inr (Z.of_nat j + 1) = registers !! j.
Proof.
  intros Hlen Hj. unfold registers_dict. split.
  - rewrite (fold_imap_other (fun i => inr (Z.of_nat i + 1))
               (fun i v => (i, v))
               (fun d iv => <[inr (Z.of_nat iv.1 + 1) := iv.2]> d))
      by (reflexivity || discriminate).
    unfold dict_of.
    apply (fold_imap_lookup (fun i => inl ("DS" +:+ fmt03d (i + 1)))
             (fun i v => (inl ("DS" +:+ fmt03d (i + 1)), v))
             (fun d kv => <[kv.1 := kv.2]> d)); [reflexivity| |exact Hj].
    intros i i' Hi Hi' [= Heq].
    assert (i + 1 = i' + 1)%nat; [|lia]. apply fmt03d_inj; [lia|lia|exact Heq].
  - apply (fold_imap_lookup (fun i => inr (Z.of_nat i + 1))
             (fun i v => (i, v))
             (fun d iv => <[inr (Z.of_nat iv.1 + 1) := iv.2]> d));
      [reflexivity| |exact Hj].
    intros i i' _ _ [= Heq]. lia.
Qed.

End DictKeys.

(** ** The ESP-32 bridge: a cycle on a healthy line, flags, scripts *)

Module BridgeMore.
Import ModbusRTU ESP32PLCBridge.

Section Cycle.
Context {R : Type}.
Variable u : uart.
Variable script_engine : option (plc_data R -> option R).
Variable now : Z.
Variable self : plc_data R.

Abbreviation inputs := (BridgePoll.inputs u).
Abbreviation coils := (BridgePoll.coils u).
Abbreviation registers := (BridgePoll.registers u).
Abbreviation after := (poll_plc_data (Some u) script_engine now self).1.

(** The status as it is when the script engine is called: the groups
    stored, [last_update] stamped, the earlier script results in place. *)
Definition handed : plc_data R :=
  (poll_plc_data (Some u) None now self).1.

Ltac run_cycle :=
  unfold handed, poll_plc_data;
  fold inputs; fold coils; fold registers;
  destruct (truthy inputs), (truthy coils), (truthy registers);
  destruct script_engine as [engine|];
  try (match goal with |- context [engine ?d] => destruct (engine d) end);
  reflexivity.

Lemma connected_spec : connected after = connected self || truthy inputs.
Proof.
  unfold poll_plc_data; fold inputs; fold coils; fold registers.
  destruct (truthy inputs), (truthy coils), (truthy registers);
  destruct script_engine as [engine|];
  try (match goal with |- context [engine ?d] => destruct (engine d) end);
  cbn; rewrite ?orb_true_r, ?orb_false_r; reflexivity.
Qed.

Lemma script_results_spec :
  stored_script_results after
  = match script_engine with
    | Some engine =>
        if truthy inputs
        then match engine handed with
             | Some r => Some r
             | None => stored_script_results self
             end
        else stored_script_results self
    | None => stored_script_results self
    end.
Proof.
  unfold handed, poll_plc_data; fold inputs; fold coils; fold registers.
  destruct (truthy inputs), (truthy coils), (truthy registers);
  destruct script_engine as [engine|]; cbn [fst snd orb];
  try (match goal with |- context [engine ?d] => destruct (engine d) end);
  reflexivity.
Qed.

Lemma handed_spec :
  last_update handed = now
  /\ input_status handed = input_status after
  /\ digital_inputs handed = digital_inputs after
  /\ coil_status handed = coil_status after
  /\ digital_outputs handed = digital_outputs after
  /\ data_registers handed = data_registers after
  /\ stored_script_results handed = stored_script_results self.
Proof. repeat split; run_cycle. Qed.

End Cycle.

(** X7.  A poll never clears [connected]: the flag is set by a non-empty
    read of the inputs and otherwise left as it was, also on a line that
    has gone silent.  The script engine is called only in a cycle whose
    read of the inputs was non-empty, whatever the coils and registers
    gave; it is handed the status with this cycle's groups and
    [last_update] in it; its answer replaces the stored script results,
    and when it raises, or is not called, the stored results stay. *)
Theorem poll_flags_and_scripts
    {R : Type} (u : uart) (script_engine : option (plc_data R -> option R))
    (now : Z) (self : plc_data R) :
  connected (poll_plc_data (Some u) script_engine now self).1
  = connected self || truthy (BridgePoll.inputs u)
  /\ stored_script_results (poll_plc_data (Some u) script_engine now self).1
     = match script_engine with
       | Some engine =>
           if truthy (BridgePoll.inputs u)
           then match engine (handed u now self) with
                | Some r => Some r
                | None => stored_script_results self
                end
           else stored_script_results self
       | None => stored_script_results self
       end
  /\ last_update (handed u now self) = now
  /\ input_status (handed u now self)
     = input_status (poll_plc_data (Some u) script_engine now self).1
  /\ coil_status (handed u now self)
     = coil_status (poll_plc_data (Some u) script_engine now self).1
  /\ data_registers (handed u now self)
     = data_registers (poll_plc_data (Some u) script_engine now self).1.
Proof.
  split; [exact (connected_spec u script_engine now self)|].
  split; [exact (script_results_spec u script_engine now self)|].
  destruct (handed_spec u script_engine now self) as (H1 & H2 & _ & H4 & _ & H6 & _).
  auto.
Qed.

(** X6.  On a line where slave 1 answers the three requests of a cycle
    with whole frames carrying sixteen inputs, sixteen coils and ten
    registers, the poll returns true, sets [connected], stamps
    [last_update], counts no error, and stores input [i] under ['X00i']
    and under the number [i + 1], coil [i] under ['Y00i'] and [i + 1], and
    register [i] under ['DS' + (i + 1)] and under the number [i + 1]. *)
Theorem poll_stores_what_the_slave_sent
    {R : Type} (u : uart) (script_engine : option (plc_data R -> option R))
    (now : Z) (self : plc_data R)
    (inputs coils : list bool) (registers : list Z) (i : nat) :
  length inputs = 16%nat -> length coils = 16%nat -> length registers = 10%nat ->
  (forall req, build_request 1 0x02 0 16 = Some req ->
     u req = Some (Synthetic.frame 1 0x02 (Synthetic.pack_bits inputs))) ->
  (forall req, build_request 1 0x01 0 16 = Some req ->
     u req = Some (Synthetic.frame 1 0x01 (Synthetic.pack_bits coils))) ->
  (forall req, build_request 1 0x03 0 10 = Some req ->
     u req = Some (Synthetic.frame 1 0x03 (Synthetic.pack_registers registers))) ->
  (poll_plc_data (Some u) script_engine now self).2 = true
  /\ connected (poll_plc_data (Some u) script_engine now self).1 = true
  /\ last_update (poll_plc_data (Some u) script_engine now self).1 = now
  /\ communication_errors (poll_plc_data (Some u) script_engine now self).1
     = communication_errors self
  /\ ((i < 16)%nat ->
      input_status (poll_plc_data (Some u) script_engine now self).1
        !! ("X" +:+ fmt03d i) = inputs !! i
      /\ digital_inputs (poll_plc_data (Some u) script_engine now self).1
           !! (Z.of_nat i + 1) = inputs !! i
      /\ coil_status (poll_plc_data (Some u) script_engine now self).1
           !! ("Y" +:+ fmt03d i) = coils !! i
      /\ digital_outputs (poll_plc_data (Some u) script_engine now self).1
           !! (Z.of_nat i + 1) = coils !! i)
  /\ ((i < 10)%nat ->
      data_registers (poll_plc_data (Some u) script_engine now self).1
        !! inl ("DS" +:+ fmt03d (i + 1)) = registers !! i
      /\ data_registers (poll_plc_data (Some u) script_engine now self).1
           !! inr (Z.of_nat i + 1) = registers !! i).
Proof.
  intros Hni Hnc Hnr Hu2 Hu1 Hu3.
  assert (Hreq : forall f, 0 <= f < 256 -> forall c, 0 <= c < 65536 ->
                   exists req, build_request 1 f 0 c = Some req).
  { intros f Hf c Hc.
    pose proof (RoundTrip.build_request_layout 1 f 0 c ltac:(lia) Hf ltac:(lia) Hc)
      as H. cbv zeta in H. eauto. }
  assert (Hin : BridgePoll.inputs u = Some inputs).
  { unfold BridgePoll.inputs, read_discrete_inputs, DEVICE_ADDRESS.
    destruct (Hreq 2 ltac:(lia) 16 ltac:(lia)) as [req Hr].
    rewrite Hr, RoundTrip.bind_Some, (Hu2 req Hr).
    replace 16 with (Z.of_nat (length inputs)) by lia.
    apply RoundTrip.decode_bits_frame. }
  assert (Hco : BridgePoll.coils u = Some coils).
  { unfold BridgePoll.coils, read_coils, DEVICE_ADDRESS.
    destruct (Hreq 1 ltac:(lia) 16 ltac:(lia)) as [req Hr].
    rewrite Hr, RoundTrip.bind_Some, (Hu1 req Hr).
    replace 16 with (Z.of_nat (length coils)) by lia.
    apply RoundTrip.decode_bits_frame. }
  assert (Hre : BridgePoll.registers u = Some registers).
  { unfold BridgePoll.registers, read_holding_registers, DEVICE_ADDRESS.
    destruct (Hreq 3 ltac:(lia) 10 ltac:(lia)) as [req Hr].
    rewrite Hr, RoundTrip.bind_Some, (Hu3 req Hr).
    apply RoundTrip.decode_registers_frame. }
  assert (Hti : truthy (BridgePoll.inputs u) = true)
    by (rewrite Hin; destruct inputs; [discriminate Hni|reflexivity]).
  assert (Htc : truthy (BridgePoll.coils u) = true)
    by (rewrite Hco; destruct coils; [discriminate Hnc|reflexivity]).
  assert (Htr : truthy (BridgePoll.registers u) = true)
    by (rewrite Hre; destruct registers; [discriminate Hnr|reflexivity]).
  pose proof (BridgePoll.returned_spec u script_engine now self) as Hret.
  pose proof (BridgePoll.last_update_spec u script_engine now self) as Hlast.
  pose proof (BridgePoll.communication_errors_spec u script_engine now self) as Herr.
  pose proof (BridgePoll.input_status_spec u script_engine now self) as [Hi1 Hi2].
  pose proof (BridgePoll.coil_status_spec u script_engine now self) as [Hc1 Hc2].
  pose proof (BridgePoll.data_registers_spec u script_engine now self) as Hr1.
  unfold BridgePoll.returned in Hret.
  unfold BridgePoll.after in Hlast, Herr, Hi1, Hi2, Hc1, Hc2, Hr1.
  rewrite Hti, Htc, Htr in Hret, Herr.
  rewrite Hti, Hin in Hi1, Hi2. rewrite Htc, Hco in Hc1, Hc2.
  rewrite Htr, Hre in Hr1.
  cbn [default from_option id orb] in Hret, Herr, Hi1, Hi2, Hc1, Hc2, Hr1.
  split; [exact Hret|].
  split; [rewrite (connected_spec u script_engine now self), Hti; apply orb_true_r|].
  split; [exact Hlast|].
  split; [rewrite Herr; apply Z.add_0_r|]. split.
  - intros Hi. rewrite Hi1, Hi2, Hc1, Hc2.
    rewrite !DictKeys.status_dict_lookup, !DictKeys.numbered_dict_lookup by lia.
    auto.
  - intros Hi. rewrite Hr1.
    apply DictKeys.registers_dict_lookup; lia.
Qed.

Lemma poll_stores_what_the_slave_sent_witness :
  (poll_plc_data
     (Some (Synthetic.loopback (repeat true 16) (repeat 7 10)))
     None 100 BridgePoll.earlier).2 = true
  /\ connected
       (poll_plc_data
          (Some (Synthetic.loopback (repeat true 16) (repeat 7 10)))
          None 100 BridgePoll.earlier).1 = true.
Proof.
  assert (H : forall f c payload, (f = 1 \/ f = 2 \/ f = 3) -> (c = 16 \/ c = 10) ->
              payload = (if f =? 3 then Synthetic.pack_registers (repeat 7 10)
                         else Synthetic.pack_bits (repeat true 16)) ->
              forall req, build_request 1 f 0 c = Some req ->
                Synthetic.loopback (repeat true 16) (repeat 7 10) req
                = Some (Synthetic.frame 1 f payload)).
  { intros f c payload [-> | [-> | ->]] [-> | ->] -> req Hreq;
      vm_compute in Hreq; injection Hreq as <-; reflexivity. }
  pose proof (poll_stores_what_the_slave_sent
                (Synthetic.loopback (repeat true 16) (repeat 7 10))
                None 100 BridgePoll.earlier (repeat true 16) (repeat true 16)
                (repeat 7 10) 0 eq_refl eq_refl eq_refl
                (H 2 16 _ ltac:(lia) ltac:(lia) eq_refl)
                (H 1 16 _ ltac:(lia) ltac:(lia) eq_refl)
                (H 3 10 _ ltac:(lia) ltac:(lia) eq_refl)) as (H1 & H2 & _).
  split; assumption.
Defined.

End BridgeMore.

(** ** The communicator: states that can be reached *)

Module CommunicatorMore.
Import PLCCommunicator.

(** Every dict of the store of [a] is, unchanged, in the store of [b]. *)
Definition keeps_dicts (a b : communicator) : Prop :=
  forall l d, heap a !! l = Some d -> heap b !! l = Some d.

Lemma keeps_dicts_refl (a : communicator) : keeps_dicts a a.
Proof. intros l d H. exact H. Qed.

Lemma keeps_dicts_trans (a b c : communicator) :
  keeps_dicts a b -> keeps_dicts b c -> keeps_dicts a c.
Proof. intros H1 H2 l d H. apply H2, H1, H. Qed.

Lemma new_dict_keeps (d : gmap string pyval) (self : communicator) :
  keeps_dicts self (new_dict d self).2.
Proof.
  intros l x Hl. unfold new_dict. cbn.
  rewrite lookup_insert_ne; [exact Hl|].
  intros <-. pose proof (CommunicatorPoll.new_dict_fresh d self) as Hf.
  unfold new_dict in Hf. cbn in Hf. congruence.
Qed.

Lemma new_dict_lookup (d : gmap string pyval) (self : communicator) :
  heap (new_dict d self).2 !! (new_dict d self).1 = Some d.
Proof. unfold new_dict. cbn. apply lookup_insert_eq. Qed.

Lemma new_dict_rest (d : gmap string pyval) (self : communicator) :
  scalars (new_dict d self).2 = scalars self
  /\ status (new_dict d self).2 = status self.
Proof. split; reflexivity. Qed.

Lemma store_read_keeps {A} (mk : list A -> gmap string pyval)
    (set : loc -> plc_status -> plc_status) (r : read_result A)
    (self : communicator) :
  keeps_dicts self (store_read mk set r self).1.
Proof.
  destruct r as [vals| |]; try apply keeps_dicts_refl.
  unfold store_read.
  pose proof (new_dict_keeps (mk vals) self) as Hk.
  destruct (new_dict (mk vals) self) as [l s']. exact Hk.
Qed.

Lemma steps_keep (a b c d : communicator) (r1 r2 ok : bool) :
  keeps_dicts a b -> keeps_dicts b c -> keeps_dicts c d ->
  keeps_dicts a (if r1 then (b, false) else if r2 then (c, false) else (d, ok)).1.
Proof.
  intros H1 H2 H3. destruct r1; [exact H1|].
  destruct r2; [exact (keeps_dicts_trans _ _ _ H1 H2)|].
  exact (keeps_dicts_trans _ _ _ H1 (keeps_dicts_trans _ _ _ H2 H3)).
Qed.

Section Groups.
Variables coil_result input_result : read_result bool.
Variable register_result : read_result Z.
Variable self : communicator.

Abbreviation groups := (read_groups coil_result input_result register_result self).

Lemma read_groups_keeps : keeps_dicts self groups.1.
Proof.
  destruct (MODBUS_AVAILABLE self) eqn:Ha.
  - rewrite (CommunicatorPoll.read_groups_steps coil_result input_result
               register_result self Ha).
    apply steps_keep; apply store_read_keeps.
  - unfold read_groups. rewrite Ha. apply keeps_dicts_refl.
Qed.

Lemma read_groups_wf_any : wf self -> wf groups.1.
Proof.
  intros Hwf. destruct (MODBUS_AVAILABLE self) eqn:Ha.
  - exact (CommunicatorPoll.read_groups_wf coil_result input_result register_result
             self Hwf Ha).
  - unfold read_groups. rewrite Ha. exact Hwf.
Qed.

Lemma read_groups_scalars_any : scalars groups.1 = scalars self.
Proof.
  destruct (MODBUS_AVAILABLE self) eqn:Ha.
  - exact (CommunicatorPoll.read_groups_scalars coil_result input_result
             register_result self Ha).
  - unfold read_groups. rewrite Ha. reflexivity.
Qed.

End Groups.

(** *** A simulated cycle *)

Lemma ref_of_sets (g : group) (l1 l2 l3 : loc) (t : string) (s : plc_status) :
  ref_of g (st_set_last_update t
              (st_set_data_registers l3
                 (st_set_coil_status l2 (st_set_input_status l1 s))))
  = match g with
    | Coils => l2
    | Inputs => l1
    | Registers => l3
    | SystemInfo => st_system_info s
    end.
Proof. destruct g; reflexivity. Qed.

Lemma fresh_unbound (h : gmap loc (gmap string pyval)) : h !! fresh (dom h) = None.
Proof. apply not_elem_of_dom, is_fresh. Qed.

Section Simulated.
Variable draws : sim_draws.
Variable now_iso : string.
Variable now : Q.
Variable self : communicator.

Abbreviation simulated := (_simulate_plc_data draws now_iso now self).1.
Abbreviation ticks := (simulation_counter self + 1).

(** The three dict displays of the cycle, one after the other. *)
Definition sim1 := new_dict (sim_input_status ticks draws)
                     (set_simulation_counter ticks self).
Definition sim2 := new_dict (sim_coil_status ticks draws (sim_input_status ticks draws))
                     sim1.2.
Definition sim3 := new_dict (sim_data_registers ticks draws) sim2.2.

Lemma simulate_steps :
  _simulate_plc_data draws now_iso now self
  = (set_last_update now
       (with_status
          (fun s => st_set_last_update now_iso
                      (st_set_data_registers sim3.1
                         (st_set_coil_status sim2.1 (st_set_input_status sim1.1 s))))
          sim3.2), true).
Proof. reflexivity. Qed.

Lemma simulate_heap : heap simulated = heap sim3.2.
Proof. rewrite simulate_steps. reflexivity. Qed.

Lemma simulate_status :
  status simulated
  = st_set_last_update now_iso
      (st_set_data_registers sim3.1
         (st_set_coil_status sim2.1 (st_set_input_status sim1.1 (status self)))).
Proof. rewrite simulate_steps. reflexivity. Qed.

Lemma simulate_keeps : keeps_dicts self simulated.
Proof.
  intros l d Hl. rewrite simulate_heap.
  apply (new_dict_keeps _ sim2.2), (new_dict_keeps _ sim1.2).
  apply (new_dict_keeps _ (set_simulation_counter ticks self)). exact Hl.
Qed.

Lemma simulate_nested :
  nested Inputs simulated = Some (sim_input_status ticks draws)
  /\ nested Coils simulated
     = Some (sim_coil_status ticks draws (sim_input_status ticks draws))
  /\ nested Registers simulated = Some (sim_data_registers ticks draws).
Proof.
  unfold nested. rewrite simulate_status, simulate_heap, !ref_of_sets.
  repeat split.
  - apply (new_dict_keeps _ sim2.2), (new_dict_keeps _ sim1.2). apply new_dict_lookup.
  - apply (new_dict_keeps _ sim2.2). apply new_dict_lookup.
  - apply new_dict_lookup.
Qed.

Lemma simulate_system_info (d : gmap string pyval) :
  nested SystemInfo self = Some d -> nested SystemInfo simulated = Some d.
Proof. intros Hd. apply simulate_keeps. exact Hd. Qed.

Lemma simulate_wf : wf self -> wf simulated.
Proof.
  intros Hwf g. destruct simulate_nested as (Hi & Hc & Hr).
  destruct g; [rewrite Hc|rewrite Hi|rewrite Hr|]; eauto.
  destruct (Hwf SystemInfo) as [d Hd]. rewrite (simulate_system_info d Hd). eauto.
Qed.

Lemma simulate_scalars :
  scalars simulated
  = (MODBUS_AVAILABLE self, cfg self, client self, connected self,
     Some now, simulation_mode self, ticks,
     (st_connected (status self), Some now_iso,
      st_communication_errors (status self),
      st_data_age_seconds (status self), st_data_fresh (status self))).
Proof. reflexivity. Qed.

End Simulated.

(** *** One call *)

Lemma connect_heap (io : connect_io) (self : communicator) :
  heap (connect io self).1 = heap self
  /\ forall g, ref_of g (status (connect io self).1) = ref_of g (status self).
Proof.
  unfold connect, connect_failed.
  destruct (simulation_mode self); [split; [reflexivity|intros []; reflexivity]|].
  destruct (negb (MODBUS_AVAILABLE self)); [split; [reflexivity|intros []; reflexivity]|].
  destruct (String.eqb _ _); [|split; [reflexivity|intros []; reflexivity]].
  destruct io as [|[]|]; split; try reflexivity; intros []; reflexivity.
Qed.

Lemma disconnect_heap (close_raises : bool) (self : communicator) :
  heap (disconnect close_raises self) = heap self
  /\ forall g, ref_of g (status (disconnect close_raises self)) = ref_of g (status self).
Proof.
  unfold disconnect.
  destruct (present (client self) && connected self), close_raises;
    split; try reflexivity; intros []; reflexivity.
Qed.

Lemma get_status_heap (now : Q) (self : communicator) :
  heap (get_status now self).1 = heap self
  /\ forall g, ref_of g (status (get_status now self).1) = ref_of g (status self).
Proof.
  unfold get_status.
  destruct (last_update self) as [t|]; [destruct (truthy_time (Some t))|];
    split; try reflexivity; intros []; reflexivity.
Qed.

Lemma same_heap_keeps (a b : communicator) : heap b = heap a -> keeps_dicts a b.
Proof. intros H l d Hl. rewrite H. exact Hl. Qed.

Lemma same_heap_wf (a b : communicator) :
  heap b = heap a -> (forall g, ref_of g (status b) = ref_of g (status a)) ->
  wf a -> wf b.
Proof.
  intros Hh Hr Hwf g. unfold nested. rewrite Hh, Hr. apply Hwf.
Qed.

Lemma poll_data_keeps (cr ir : read_result bool) (rr : read_result Z)
    (draws : sim_draws) (now_iso : string) (now : Q) (self : communicator) :
  keeps_dicts self (poll_data cr ir rr draws now_iso now self).1.
Proof.
  unfold poll_data.
  destruct (negb (connected self)); [apply keeps_dicts_refl|].
  destruct (simulation_mode self); [apply simulate_keeps|].
  destruct (negb (present (client self))); [apply keeps_dicts_refl|].
  pose proof (read_groups_keeps cr ir rr self) as Hk.
  destruct (read_groups cr ir rr self) as [s ok]. cbn [fst] in Hk.
  destruct ok; exact Hk.
Qed.

Lemma poll_data_wf (cr ir : read_result bool) (rr : read_result Z)
    (draws : sim_draws) (now_iso : string) (now : Q) (self : communicator) :
  wf self -> wf (poll_data cr ir rr draws now_iso now self).1.
Proof.
  intros Hwf. unfold poll_data.
  destruct (negb (connected self)); [exact Hwf|].
  destruct (simulation_mode self); [apply simulate_wf; exact Hwf|].
  destruct (negb (present (client self))); [exact Hwf|].
  pose proof (read_groups_wf_any cr ir rr self Hwf) as Hg.
  destruct (read_groups cr ir rr self) as [s ok]. cbn [fst] in Hg.
  destruct ok; intros g; apply (Hg g).
Qed.

Lemma do_call_keeps (c : call) (self : communicator) :
  keeps_dicts self (do_call c self).
Proof.
  destruct c; cbn [do_call].
  - apply same_heap_keeps, connect_heap.
  - apply same_heap_keeps, disconnect_heap.
  - apply poll_data_keeps.
  - apply same_heap_keeps, get_status_heap.
  - unfold write_coil. destruct (_ || _); apply keeps_dicts_refl.
  - unfold write_register. destruct (_ || _); apply keeps_dicts_refl.
Qed.

Lemma do_call_wf (c : call) (self : communicator) :
  wf self -> wf (do_call c self).
Proof.
  intros Hwf. destruct c; cbn [do_call].
  - exact (same_heap_wf _ _ (proj1 (connect_heap io self))
             (proj2 (connect_heap io self)) Hwf).
  - exact (same_heap_wf _ _ (proj1 (disconnect_heap close_raises self))
             (proj2 (disconnect_heap close_raises self)) Hwf).
  - apply poll_data_wf, Hwf.
  - exact (same_heap_wf _ _ (proj1 (get_status_heap now self))
             (proj2 (get_status_heap now self)) Hwf).
  - unfold write_coil. destruct (_ || _); exact Hwf.
  - unfold write_register. destruct (_ || _); exact Hwf.
Qed.

Lemma do_calls_app (cs : list call) (c : call) (self : communicator) :
  do_calls (cs ++ [c]) self = do_call c (do_calls cs self).
Proof. unfold do_calls. rewrite fold_left_app. reflexivity. Qed.

Lemma do_calls_keeps (cs : list call) (self : communicator) :
  keeps_dicts self (do_calls cs self).
Proof.
  induction cs as [|c cs IH] using rev_ind; [apply keeps_dicts_refl|].
  rewrite do_calls_app.
  exact (keeps_dicts_trans _ _ _ IH (do_call_keeps c _)).
Qed.

Lemma do_calls_wf (cs : list call) (self : communicator) :
  wf self -> wf (do_calls cs self).
Proof.
  intros Hwf. induction cs as [|c cs IH] using rev_ind; [exact Hwf|].
  rewrite do_calls_app. apply do_call_wf, IH.
Qed.

(** *** What a poll does to the fields that hold no dict *)

Lemma scalars_all (a b : communicator) :
  scalars a = scalars b ->
  MODBUS_AVAILABLE a = MODBUS_AVAILABLE b /\ cfg a = cfg b /\ client a = client b
  /\ connected a = connected b /\ simulation_mode a = simulation_mode b
  /\ simulation_counter a = simulation_counter b
  /\ st_connected (status a) = st_connected (status b)
  /\ st_communication_errors (status a) = st_communication_errors (status b).
Proof. unfold scalars. intros H. injection H. intros. repeat split; assumption. Qed.

Section PollFields.
Variables cr ir : read_result bool.
Variable rr : read_result Z.
Variable draws : sim_draws.
Variable now_iso : string.
Variable now : Q.
Variable self : communicator.

Abbreviation polled := (poll_data cr ir rr draws now_iso now self).

Lemma poll_data_fields :
  MODBUS_AVAILABLE polled.1 = MODBUS_AVAILABLE self
  /\ cfg polled.1 = cfg self /\ client polled.1 = client self
  /\ connected polled.1 = connected self
  /\ simulation_mode polled.1 = simulation_mode self
  /\ st_connected (status polled.1) = st_connected (status self)
  /\ simulation_counter polled.1
     = simulation_counter self
       + (if connected self && simulation_mode self then 1 else 0)
  /\ st_communication_errors (status polled.1)
     = st_communication_errors (status self)
       + (if connected self && negb (simulation_mode self)
             && present (client self) && negb polled.2
          then 1 else 0).
Proof.
  unfold poll_data.
  destruct (connected self) eqn:Hc; cbn [negb andb];
    [|repeat split; try reflexivity; cbn [fst]; [exact Hc|lia|lia]].
  destruct (simulation_mode self) eqn:Hs; cbn [negb andb].
  { rewrite simulate_steps. cbn [fst snd]. repeat split; try reflexivity.
    - exact Hc.
    - exact Hs.
    - change (st_communication_errors (status self)
              = st_communication_errors (status self) + 0). lia. }
  destruct (present (client self)); cbn [negb andb];
    [|repeat split; try reflexivity; cbn [fst]; [exact Hc|exact Hs|lia|lia]].
  destruct (scalars_all _ _ (read_groups_scalars_any cr ir rr self))
    as (H1 & H2 & H3 & H4 & H5 & H6 & H7 & H8).
  destruct (read_groups cr ir rr self) as [s ok]. cbn [fst] in *.
  destruct ok; cbn; repeat split; try assumption; try congruence; lia.
Qed.

(** A poll answers true exactly when it was made on a connected
    communicator and, outside simulation, a client exists and no read
    raised. *)
Lemma poll_data_answer :
  polled.2
  = connected self
    && (simulation_mode self
        || present (client self)
           && (negb (MODBUS_AVAILABLE self)
               || negb (raises cr) && negb (raises ir) && negb (raises rr))).
Proof.
  unfold poll_data.
  destruct (connected self); cbn [negb andb orb]; [|reflexivity].
  destruct (simulation_mode self); cbn [negb andb orb]; [reflexivity|].
  destruct (present (client self)); cbn [negb andb orb]; [|reflexivity].
  destruct (MODBUS_AVAILABLE self) eqn:Ha; cbn [negb orb].
  - rewrite <- (CommunicatorPoll.read_groups_ok cr ir rr self Ha).
    destruct (read_groups cr ir rr self) as [s []]; reflexivity.
  - unfold read_groups. rewrite Ha. reflexivity.
Qed.

End PollFields.

(** *** Every state the calls can reach *)

Definition is_poll (c : call) : bool :=
  match c with
  | PollData _ _ _ _ _ _ => true
  | _ => false
  end.

(** How many of the calls are calls of [poll_data]. *)
Definition polls (cs : list call) : Z := Z.of_nat (length (List.filter is_poll cs)).

(** [config.CONNECTION_TYPE.lower() == 'serial'] *)
Definition serial (c : config) : bool :=
  String.eqb (lower (CONNECTION_TYPE c)) "serial".

Definition reachable (modbus_available : bool) (c : config) (n : Z)
    (s : communicator) : Prop :=
  MODBUS_AVAILABLE s = modbus_available /\ cfg s = c
  /\ simulation_mode s = SIMULATION_MODE c
  /\ (connected s = true -> st_connected (status s) = true)
  /\ (connected s = true -> SIMULATION_MODE c = false ->
      client s = Some ModbusSerialClient)
  /\ (client s <> None ->
      modbus_available = true /\ SIMULATION_MODE c = false /\ serial c = true)
  /\ 0 <= st_communication_errors (status s) <= n
  /\ 0 <= simulation_counter s <= n
  /\ (SIMULATION_MODE c = true -> st_communication_errors (status s) = 0)
  /\ (SIMULATION_MODE c = false -> simulation_counter s = 0).

Lemma init_reachable (modbus_available : bool) (c : config) :
  reachable modbus_available c 0 (init modbus_available c).
Proof.
  unfold reachable. cbn. repeat split; try lia; try discriminate; congruence.
Qed.

Ltac settle :=
  repeat split; cbn in *; intros; subst;
  try congruence; try lia; try tauto; auto.

Lemma connect_reachable (ma : bool) (c : config) (n : Z) (io : connect_io)
    (s : communicator) :
  reachable ma c n s -> reachable ma c n (connect io s).1.
Proof.
  intros (H1 & H2 & H3 & H4 & H5 & H6 & H7 & H8 & H9 & H10).
  unfold reachable, connect, connect_failed, serial in *. rewrite H3, H1, H2.
  destruct (SIMULATION_MODE c) eqn:Hs; [settle|].
  destruct ma; cbn [negb]; [|settle].
  destruct (String.eqb (lower (CONNECTION_TYPE c)) "serial") eqn:Hserial; [|settle].
  destruct io as [|[]|]; settle.
Qed.

Lemma disconnect_reachable (ma : bool) (c : config) (n : Z) (close_raises : bool)
    (s : communicator) :
  reachable ma c n s -> reachable ma c n (disconnect close_raises s).
Proof.
  intros (H1 & H2 & H3 & H4 & H5 & H6 & H7 & H8 & H9 & H10).
  unfold reachable, disconnect in *.
  destruct (present (client s) && connected s), close_raises; settle.
Qed.

Lemma get_status_reachable (ma : bool) (c : config) (n : Z) (now : Q)
    (s : communicator) :
  reachable ma c n s -> reachable ma c n (get_status now s).1.
Proof.
  intros (H1 & H2 & H3 & H4 & H5 & H6 & H7 & H8 & H9 & H10).
  unfold reachable, get_status in *.
  destruct (last_update s) as [t|]; [destruct (truthy_time (Some t))|]; settle.
Qed.

Lemma poll_data_reachable (ma : bool) (c : config) (n : Z)
    (cr ir : read_result bool) (rr : read_result Z) (draws : sim_draws)
    (now_iso : string) (now : Q) (s : communicator) :
  reachable ma c n s ->
  reachable ma c (n + 1) (poll_data cr ir rr draws now_iso now s).1.
Proof.
  intros (H1 & H2 & H3 & H4 & H5 & H6 & H7 & H8 & H9 & H10).
  destruct (poll_data_fields cr ir rr draws now_iso now s)
    as (F1 & F2 & F3 & F4 & F5 & F6 & F7 & F8).
  unfold reachable. rewrite F1, F2, F3, F4, F5, F6, F7, F8, H3.
  do 6 (split; [assumption || reflexivity|]).
  destruct (SIMULATION_MODE c), (connected s), (present (client s)),
    (poll_data cr ir rr draws now_iso now s).2; cbn [negb andb];
    intuition lia.
Qed.

Lemma do_call_reachable (ma : bool) (c : config) (n : Z) (x : call)
    (s : communicator) :
  reachable ma c n s ->
  reachable ma c (n + (if is_poll x then 1 else 0)) (do_call x s).
Proof.
  intros H. destruct x; cbn [do_call is_poll]; rewrite ?Z.add_0_r.
  - apply connect_reachable, H.
  - apply disconnect_reachable, H.
  - apply poll_data_reachable, H.
  - apply get_status_reachable, H.
  - unfold write_coil. destruct (_ || _); exact H.
  - unfold write_register. destruct (_ || _); exact H.
Qed.

Lemma polls_app (cs : list call) (x : call) :
  polls (cs ++ [x]) = polls cs + (if is_poll x then 1 else 0).
Proof.
  unfold polls. rewrite List.filter_app, length_app. cbn [List.filter].
  destruct (is_poll x); cbn [length]; lia.
Qed.

Lemma do_calls_reachable (ma : bool) (c : config) (cs : list call) :
  reachable ma c (polls cs) (do_calls cs (init ma c)).
Proof.
  induction cs as [|x cs IH] using rev_ind; [apply init_reachable|].
  rewrite do_calls_app, polls_app. apply do_call_reachable, IH.
Qed.

(** X8.  Whatever sequence of [connect], [disconnect], [poll_data],
    [get_status], [write_coil] and [write_register] is made on a new
    communicator: every nested dict the status refers to exists; the
    configuration and the simulation flag are the ones it was built with;
    when the communicator is connected, its status says so, and outside
    simulation it then has a client; a client exists only when the Modbus
    library is there, simulation is off and the connection type is
    serial. *)
Theorem reachable_states_are_consistent
    (modbus_available : bool) (c : config) (cs : list call) :
  wf (do_calls cs (init modbus_available c))
  /\ MODBUS_AVAILABLE (do_calls cs (init modbus_available c)) = modbus_available
  /\ cfg (do_calls cs (init modbus_available c)) = c
  /\ simulation_mode (do_calls cs (init modbus_available c)) = SIMULATION_MODE c
  /\ (connected (do_calls cs (init modbus_available c)) = true ->
      st_connected (status (do_calls cs (init modbus_available c))) = true)
  /\ (connected (do_calls cs (init modbus_available c)) = true ->
      SIMULATION_MODE c = false ->
      client (do_calls cs (init modbus_available c)) = Some ModbusSerialClient)
  /\ (client (do_calls cs (init modbus_available c)) <> None ->
      modbus_available = true /\ SIMULATION_MODE c = false /\ serial c = true).
Proof.
  split; [apply do_calls_wf, CommunicatorPoll.init_wf|].
  destruct (do_calls_reachable modbus_available c cs)
    as (H1 & H2 & H3 & H4 & H5 & H6 & _).
  repeat split; try assumption; apply H6; assumption.
Qed.

(** X9.  The error counter and the simulation counter of a communicator
    never go down from zero and never exceed the number of polls made; in
    simulation no poll counts an error, outside it no poll advances the
    simulation counter. *)
Theorem counters_are_bounded_by_polls
    (modbus_available : bool) (c : config) (cs : list call) :
  0 <= st_communication_errors (status (do_calls cs (init modbus_available c)))
    <= polls cs
  /\ 0 <= simulation_counter (do_calls cs (init modbus_available c)) <= polls cs
  /\ (SIMULATION_MODE c = true ->
      st_communication_errors (status (do_calls cs (init modbus_available c))) = 0)
  /\ (SIMULATION_MODE c = false ->
      simulation_counter (do_calls cs (init modbus_available c)) = 0).
Proof.
  destruct (do_calls_reachable modbus_available c cs)
    as (_ & _ & _ & _ & _ & _ & H7 & H8 & H9 & H10).
  repeat split; try assumption; lia.
Qed.

(** *** Snapshots and later calls *)

Lemma view_kept (a b : communicator) (snap : plc_status) :
  keeps_dicts a b ->
  (forall g, is_Some (heap a !! ref_of g snap)) ->
  view b snap = view a snap.
Proof.
  intros Hk Hsnap. unfold view.
  destruct (Hsnap Registers) as [d1 H1], (Hsnap Coils) as [d2 H2],
    (Hsnap Inputs) as [d3 H3], (Hsnap SystemInfo) as [d4 H4].
  cbn [ref_of] in H1, H2, H3, H4.
  rewrite (Hk _ _ H1), (Hk _ _ H2), (Hk _ _ H3), (Hk _ _ H4), H1, H2, H3, H4.
  reflexivity.
Qed.

(** X10.  A snapshot returned by [get_status()] reads the same, nested
    dicts included, after any further calls on the communicator: a poll
    binds the keys of the live status to new dicts and stores nothing into
    the dicts a snapshot holds. *)
Theorem snapshot_outlives_later_calls
    (now : Q) (self : communicator) (cs : list call) :
  wf self ->
  view (do_calls cs (get_status now self).1) (get_status now self).2
  = view (get_status now self).1 (get_status now self).2.
Proof.
  intros Hwf. apply view_kept; [apply do_calls_keeps|].
  pose proof (do_call_wf (GetStatus now) self Hwf) as Hwf'.
  cbn [do_call] in Hwf'. intros g.
  replace (get_status now self).2 with (status (get_status now self).1).
  - apply (Hwf' g).
  - unfold get_status. reflexivity.
Qed.

Definition two_polls : list call :=
  [PollData (ReadOk [true; false]) ReadError (ReadOk [7; 8])
     PollClaims.no_draws "2025-01-01T00:00:01" 101;
   Disconnect false;
   PollData ReadRaises ReadError ReadError
     PollClaims.no_draws "2025-01-01T00:00:02" 102].

Lemma snapshot_outlives_later_calls_witness :
  wf PollClaims.running
  /\ view (do_calls two_polls (get_status 100 PollClaims.running).1)
       (get_status 100 PollClaims.running).2
     = view (get_status 100 PollClaims.running).1
         (get_status 100 PollClaims.running).2.
Proof.
  split; [exact PollClaims.running_wf|].
  exact (snapshot_outlives_later_calls 100 PollClaims.running two_polls
           PollClaims.running_wf).
Defined.

(** *** [connect] outside simulation *)

(** X11.  Outside simulation, with the library there and a serial
    connection configured, [connect()] returns what [self.connected] is
    afterwards, and a client exists afterwards unless its constructor
    raised.  The status is set to connected when the client connects and
    to not connected when something raises; when the client reports that
    it could not connect, the status keeps the value it had, so that after
    a failed reconnect it still says connected. *)
Theorem connect_flag_and_status (io : connect_io) (self : communicator) :
  simulation_mode self = false -> MODBUS_AVAILABLE self = true ->
  serial (cfg self) = true ->
  (connect io self).2 = connected (connect io self).1
  /\ (connect io self).2
     = match io with ConnectReturns ok => ok | _ => false end
  /\ st_connected (status (connect io self).1)
     = match io with
       | ConnectReturns true => true
       | ConnectReturns false => st_connected (status self)
       | _ => false
       end
  /\ client (connect io self).1
     = match io with
       | ConstructorRaises => client self
       | _ => Some ModbusSerialClient
       end
  /\ heap (connect io self).1 = heap self.
Proof.
  intros Hs Ha Hserial. unfold connect, connect_failed, serial in *.
  rewrite Hs, Ha, Hserial. cbn [negb].
  destruct io as [|[]|]; repeat split.
Qed.

Lemma connect_flag_and_status_witness :
  simulation_mode PollClaims.running = false
  /\ connected (connect (ConnectReturns false) PollClaims.running).1 = false
  /\ st_connected (status (connect (ConnectReturns false) PollClaims.running).1)
     = true.
Proof.
  split; [reflexivity|].
  destruct (connect_flag_and_status (ConnectReturns false) PollClaims.running
              eq_refl eq_refl eq_refl) as (H1 & H2 & H3 & _).
  split; [rewrite <- H1; exact H2|exact H3].
Defined.

(** *** The values behind the keys *)

(** [self.plc_status[g].get(key)] *)
Definition item (g : group) (key : string) (self : communicator) : option pyval :=
  nested g self ≫= fun d => d !! key.

Lemma prefixed_keys_distinct (prefix : string) (k : nat) (i j : nat) :
  (i + k < 1000)%nat -> (j + k < 1000)%nat ->
  prefix +:+ fmt03d (i + k) = prefix +:+ fmt03d (j + k) -> i = j.
Proof.
  intros Hi Hj Heq.
  pose proof (DictKeys.fmt03d_inj _ _ Hi Hj (DictKeys.append_inj _ _ _ Heq)). lia.
Qed.

Lemma bits_dict_lookup (prefix : string) (bits : list bool) (j : nat) :
  (length bits <= 1000)%nat -> (j < 1000)%nat ->
  bits_dict prefix bits !! (prefix +:+ fmt03d j) = VBool <$> bits !! j.
Proof.
  intros Hlen Hj. unfold bits_dict, dict_of.
  replace (imap (fun i b => (prefix +:+ fmt03d i, VBool b)) bits)
    with (imap (fun i v => (prefix +:+ fmt03d i, v)) (VBool <$> bits))
    by (rewrite imap_fmap; reflexivity).
  rewrite <- list_lookup_fmap.
  destruct (decide (j < length bits)%nat) as [Hin|Hout].
  - apply (DictKeys.fold_imap_lookup (fun i => prefix +:+ fmt03d i)
             (fun i v => (prefix +:+ fmt03d i, v))
             (fun d kv => <[kv.1 := kv.2]> d));
      [reflexivity| |rewrite length_fmap; exact Hin].
    rewrite length_fmap. intros i i' Hi Hi' Heq.
    apply (prefixed_keys_distinct prefix 0); rewrite ?Nat.add_0_r; [lia|lia|exact Heq].
  - rewrite (DictKeys.fold_imap_other (fun i => prefix +:+ fmt03d i)
               (fun i v => (prefix +:+ fmt03d i, v))
               (fun d kv => <[kv.1 := kv.2]> d)); [|reflexivity|].
    + rewrite lookup_empty. symmetry. apply lookup_ge_None_2.
      rewrite length_fmap. lia.
    + rewrite length_fmap. intros i Hi Heq.
      assert (i = j); [|lia].
      apply (prefixed_keys_distinct prefix 0); rewrite ?Nat.add_0_r; [lia|lia|exact Heq].
Qed.

Lemma data_registers_lookup (registers : list Z) (j : nat) :
  (length registers <= 999)%nat -> (j < 999)%nat ->
  registers_dict registers !! ("DS" +:+ fmt03d (j + 1)) = VInt <$> registers !! j.
Proof.
  intros Hlen Hj. unfold registers_dict, dict_of.
  replace (imap (fun i v => ("DS" +:+ fmt03d (i + 1), VInt v)) registers)
    with (imap (fun i v => ("DS" +:+ fmt03d (i + 1), v)) (VInt <$> registers))
    by (rewrite imap_fmap; reflexivity).
  rewrite <- list_lookup_fmap.
  destruct (decide (j < length registers)%nat) as [Hin|Hout].
  - apply (DictKeys.fold_imap_lookup (fun i => "DS" +:+ fmt03d (i + 1))
             (fun i v => ("DS" +:+ fmt03d (i + 1), v))
             (fun d kv => <[kv.1 := kv.2]> d));
      [reflexivity| |rewrite length_fmap; exact Hin].
    rewrite length_fmap. intros i i' Hi Hi' Heq.
    apply (prefixed_keys_distinct "DS" 1); [lia|lia|exact Heq].
  - rewrite (DictKeys.fold_imap_other (fun i => "DS" +:+ fmt03d (i + 1))
               (fun i v => ("DS" +:+ fmt03d (i + 1), v))
               (fun d kv => <[kv.1 := kv.2]> d)); [|reflexivity|].
    + rewrite lookup_empty. symmetry. apply lookup_ge_None_2.
      rewrite length_fmap. lia.
    + rewrite length_fmap. intros i Hi Heq.
      assert (i = j); [|lia].
      apply (prefixed_keys_distinct "DS" 1); [lia|lia|exact Heq].
Qed.

Lemma sim_input_lookup (n : Z) (draws : sim_draws) (i : nat) :
  (i < 16)%nat ->
  sim_input_status n draws !! ("X" +:+ fmt03d i)
  = Some (VBool (if (i <? 4)%nat then (n / (Z.of_nat i + 2)) mod 2 =? 0
                 else rnd_input draws i)).
Proof.
  intros Hi. unfold sim_input_status.
  apply (DictKeys.fold_seq_lookup (fun i => "X" +:+ fmt03d i)
           (fun i => VBool (if (i <? 4)%nat then (n / (Z.of_nat i + 2)) mod 2 =? 0
                            else rnd_input draws i))); [|exact Hi].
  intros a b Ha Hb Heq.
  apply (prefixed_keys_distinct "X" 0); rewrite ?Nat.add_0_r; [lia|lia|exact Heq].
Qed.

Lemma sim_coil_lookup (n : Z) (draws : sim_draws) (inputs : gmap string pyval)
    (i : nat) :
  (i < 16)%nat ->
  sim_coil_status n draws inputs !! ("Y" +:+ fmt03d i)
  = Some (if (i <? 4)%nat
          then default (VBool false) (inputs !! ("X" +:+ fmt03d i))
          else if (i <? 8)%nat
               then VBool ((n / (Z.of_nat i - 2)) mod 2 =? 0)
               else VBool (rnd_coil draws i)).
Proof.
  intros Hi. unfold sim_coil_status.
  apply (DictKeys.fold_seq_lookup (fun i => "Y" +:+ fmt03d i)
           (fun i => if (i <? 4)%nat
                     then default (VBool false) (inputs !! ("X" +:+ fmt03d i))
                     else if (i <? 8)%nat
                          then VBool ((n / (Z.of_nat i - 2)) mod 2 =? 0)
                          else VBool (rnd_coil draws i))); [|exact Hi].
  intros a b Ha Hb Heq.
  apply (prefixed_keys_distinct "Y" 0); rewrite ?Nat.add_0_r; [lia|lia|exact Heq].
Qed.

Lemma sim_register_lookup (n : Z) (draws : sim_draws) (i : nat) :
  (i < 10)%nat ->
  sim_data_registers n draws !! ("DS" +:+ fmt03d (i + 1))
  = Some (VInt (match i with
                | 0%nat => n mod 1000
                | 1%nat => sine_register draws
                | 2%nat => pressure_register draws
                | 3%nat => (n * 5) mod 1000
                | _ => rnd_register draws i
                end)).
Proof.
  intros Hi. unfold sim_data_registers.
  apply (DictKeys.fold_seq_lookup (fun i => "DS" +:+ fmt03d (i + 1))
           (fun i => VInt (match i with
                           | 0%nat => n mod 1000
                           | 1%nat => sine_register draws
                           | 2%nat => pressure_register draws
                           | 3%nat => (n * 5) mod 1000
                           | _ => rnd_register draws i
                           end))); [|exact Hi].
  intros a b Ha Hb Heq.
  apply (prefixed_keys_distinct "DS" 1); [lia|lia|exact Heq].
Qed.

Section SimulatedCycle.
Variables cr ir : read_result bool.
Variable rr : read_result Z.
Variable draws : sim_draws.
Variable now_iso : string.
Variable now : Q.
Variable self : communicator.

Abbreviation cycle := (poll_data cr ir rr draws now_iso now self).
Abbreviation tick := (simulation_counter self + 1).

(** X12.  A poll of a connected communicator in simulation mode returns
    true whatever a Modbus read would have done, advances the simulation
    counter by one, stamps both times and counts no error.  With [n] the
    advanced counter: input [X00i], i < 4, is whether [n // (i + 2)] is
    even; coils [Y00i] and [Y00(i+4)], i < 4, both equal input [X00i];
    [DS001] is [n % 1000] and [DS004] is [n * 5 % 1000], both in
    [0, 1000); each of the sixteen inputs and coils and the ten registers
    is present. *)
Theorem simulated_cycle :
  connected self = true -> simulation_mode self = true ->
  cycle.2 = true
  /\ simulation_counter cycle.1 = tick
  /\ last_update cycle.1 = Some now
  /\ st_last_update (status cycle.1) = Some now_iso
  /\ st_communication_errors (status cycle.1)
     = st_communication_errors (status self)
  /\ (forall i, (i < 4)%nat ->
        item Inputs ("X" +:+ fmt03d i) cycle.1
        = Some (VBool ((tick / (Z.of_nat i + 2)) mod 2 =? 0))
        /\ item Coils ("Y" +:+ fmt03d i) cycle.1
           = item Inputs ("X" +:+ fmt03d i) cycle.1
        /\ item Coils ("Y" +:+ fmt03d (i + 4)) cycle.1
           = item Inputs ("X" +:+ fmt03d i) cycle.1)
  /\ item Registers "DS001" cycle.1 = Some (VInt (tick mod 1000))
  /\ item Registers "DS004" cycle.1 = Some (VInt ((tick * 5) mod 1000))
  /\ 0 <= tick mod 1000 < 1000 /\ 0 <= (tick * 5) mod 1000 < 1000
  /\ (forall i, (i < 16)%nat ->
        is_Some (item Inputs ("X" +:+ fmt03d i) cycle.1)
        /\ is_Some (item Coils ("Y" +:+ fmt03d i) cycle.1))
  /\ (forall i, (i < 10)%nat ->
        is_Some (item Registers ("DS" +:+ fmt03d (i + 1)) cycle.1)).
Proof.
  intros Hc Hs.
  assert (Hp : cycle = _simulate_plc_data draws now_iso now self)
    by (unfold poll_data; rewrite Hc, Hs; reflexivity).
  rewrite Hp.
  destruct (simulate_nested draws now_iso now self) as (Hi & Hy & Hr).
  unfold item. rewrite Hi, Hy, Hr. cbn [mbind option_bind].
  split; [reflexivity|]. split; [reflexivity|]. split; [reflexivity|].
  split; [reflexivity|]. split; [reflexivity|]. split.
  { intros i Hlt.
    rewrite !sim_coil_lookup, !sim_input_lookup by lia.
    cbn [default from_option id].
    assert (H4 : (i <? 4)%nat = true) by (apply Nat.ltb_lt; lia).
    assert (H4' : (i + 4 <? 4)%nat = false) by (apply Nat.ltb_ge; lia).
    assert (H8 : (i + 4 <? 8)%nat = true) by (apply Nat.ltb_lt; lia).
    rewrite H4, H4', H8.
    replace (Z.of_nat (i + 4) - 2) with (Z.of_nat i + 2) by lia.
    auto. }
  split; [exact (sim_register_lookup tick draws 0 ltac:(lia))|].
  split; [exact (sim_register_lookup tick draws 3 ltac:(lia))|].
  split; [apply Z.mod_pos_bound; lia|].
  split; [apply Z.mod_pos_bound; lia|].
  split.
  - intros i Hlt. rewrite sim_coil_lookup, sim_input_lookup by lia. eauto.
  - intros i Hlt. rewrite sim_register_lookup by lia. eauto.
Qed.

End SimulatedCycle.

Definition simulating : communicator :=
  (connect (ConnectReturns true) (init false Simulation.demo_config)).1.

Lemma simulated_cycle_witness :
  connected simulating = true /\ simulation_mode simulating = true
  /\ item Coils "Y005"
       (poll_data ReadRaises ReadRaises ReadRaises PollClaims.no_draws
          "2025-01-01T00:00:00" 100 simulating).1
     = Some (VBool true).
Proof.
  split; [reflexivity|]. split; [reflexivity|].
  destruct (simulated_cycle ReadRaises ReadRaises ReadRaises PollClaims.no_draws
              "2025-01-01T00:00:00" 100 simulating eq_refl eq_refl)
    as (_ & _ & _ & _ & _ & H & _).
  destruct (H 1%nat ltac:(lia)) as (H1 & _ & H3).
  exact (eq_trans H3 H1).
Defined.

(** *** Simulation, once connected *)

Lemma simulation_step (c : call) (s : communicator) :
  simulation_mode s = true -> client s = None -> connected s = true ->
  st_connected (status s) = true ->
  connected (do_call c s) = true
  /\ st_connected (status (do_call c s)) = true
  /\ simulation_counter (do_call c s)
     = simulation_counter s + (if is_poll c then 1 else 0).
Proof.
  intros Hs Hcl Hc Hst. destruct c; cbn [do_call is_poll].
  - unfold connect. rewrite Hs. cbn. repeat split; lia.
  - unfold disconnect. rewrite Hcl. cbn [present andb]. repeat split; auto; lia.
  - destruct (poll_data_fields coil_result input_result register_result draws
                now_iso now s) as (_ & _ & _ & F4 & _ & F6 & F7 & _).
    rewrite F4, F6, F7, Hc, Hs. auto.
  - unfold get_status.
    destruct (last_update s) as [t|]; [destruct (truthy_time (Some t))|];
      cbn; repeat split; auto; lia.
  - unfold write_coil. destruct (_ || _); cbn [fst]; repeat split; auto; lia.
  - unfold write_register. destruct (_ || _); cbn [fst]; repeat split; auto; lia.
Qed.

Lemma simulation_steps (cs : list call) (s : communicator) :
  simulation_mode s = true -> client s = None -> connected s = true ->
  st_connected (status s) = true ->
  connected (do_calls cs s) = true
  /\ st_connected (status (do_calls cs s)) = true
  /\ simulation_counter (do_calls cs s) = simulation_counter s + polls cs.
Proof.
  intros Hs Hcl Hc Hst.
  induction cs as [|c cs IH] using rev_ind.
  - cbn. repeat split; auto. unfold polls. cbn. lia.
  - destruct IH as (IH1 & IH2 & IH3).
    destruct (Simulation.do_calls_keep_simulation cs s Hs Hcl) as [Hs' Hcl'].
    destruct (simulation_step c _ Hs' Hcl' IH1 IH2) as (H1 & H2 & H3).
    rewrite do_calls_app, polls_app. repeat split; auto. lia.
Qed.

(** X13.  With [SIMULATION_MODE] configured, after [connect()] the
    communicator stays connected whatever is called on it, [disconnect()]
    included; every poll returns true, and the simulation counter is the
    number of polls made. *)
Theorem simulation_cannot_be_stopped
    (modbus_available : bool) (c : config) (io : connect_io) (cs : list call)
    (cr ir : read_result bool) (rr : read_result Z) (draws : sim_draws)
    (now_iso : string) (now : Q) :
  SIMULATION_MODE c = true ->
  connected (do_calls cs (connect io (init modbus_available c)).1) = true
  /\ st_connected (status (do_calls cs (connect io (init modbus_available c)).1))
     = true
  /\ simulation_counter (do_calls cs (connect io (init modbus_available c)).1)
     = polls cs
  /\ (poll_data cr ir rr draws now_iso now
        (do_calls cs (connect io (init modbus_available c)).1)).2 = true.
Proof.
  intros Hsim.
  assert (Hconn : (connect io (init modbus_available c)).1
                  = with_status (st_set_connected true)
                      (set_connected true (init modbus_available c)))
    by (unfold connect; cbn [simulation_mode init]; rewrite Hsim; reflexivity).
  rewrite Hconn.
  destruct (simulation_steps cs
              (with_status (st_set_connected true)
                 (set_connected true (init modbus_available c)))
              Hsim eq_refl eq_refl eq_refl) as (H1 & H2 & H3).
  destruct (Simulation.do_calls_keep_simulation cs
              (with_status (st_set_connected true)
                 (set_connected true (init modbus_available c)))
              Hsim eq_refl) as [Hs' _].
  split; [exact H1|]. split; [exact H2|]. split; [rewrite H3; cbn; lia|].
  rewrite poll_data_answer, H1, Hs'. reflexivity.
Qed.

Lemma simulation_cannot_be_stopped_witness :
  SIMULATION_MODE Simulation.demo_config = true
  /\ connected (do_calls [Disconnect false]
                  (connect ConnectRaises (init true Simulation.demo_config)).1)
     = true.
Proof.
  split; [reflexivity|].
  exact (proj1 (simulation_cannot_be_stopped true Simulation.demo_config
                  ConnectRaises [Disconnect false] ReadError ReadError ReadError
                  PollClaims.no_draws "2025-01-01T00:00:00" 100 eq_refl)).
Defined.

(** *** The values a real poll leaves behind the keys *)

Section PolledValues.
Variables cr ir : read_result bool.
Variable rr : read_result Z.
Variable draws : sim_draws.
Variable now_iso : string.
Variable now : Q.
Variable self : communicator.
Variable c : client_obj.

Abbreviation after_poll := (poll_data cr ir rr draws now_iso now self).1.

(** X14.  After a real poll, key [Y{j:03d}] of [coil_status] holds bit [j]
    of a coil read that was not an error, and is absent when the read
    returned [j] bits or fewer, whatever the later reads did; the same
    holds for [X{j:03d}] of [input_status] when the coil read did not
    raise, and for [DS{j+1:03d}] of [data_registers] and register [j] when
    neither earlier read raised. *)
Theorem polled_values_by_key :
  wf self -> MODBUS_AVAILABLE self = true -> connected self = true ->
  simulation_mode self = false -> client self = Some c ->
  (forall bits j, cr = ReadOk bits -> (length bits <= 1000)%nat -> (j < 1000)%nat ->
     item Coils ("Y" +:+ fmt03d j) after_poll = VBool <$> bits !! j)
  /\ (forall bits j, raises cr = false -> ir = ReadOk bits ->
        (length bits <= 1000)%nat -> (j < 1000)%nat ->
        item Inputs ("X" +:+ fmt03d j) after_poll = VBool <$> bits !! j)
  /\ (forall registers j, raises cr = false -> raises ir = false ->
        rr = ReadOk registers ->
        (length registers <= 999)%nat -> (j < 999)%nat ->
        item Registers ("DS" +:+ fmt03d (j + 1)) after_poll
        = VInt <$> registers !! j).
Proof.
  intros Hwf Ha Hc Hs Hcl. unfold item.
  rewrite !(CommunicatorPoll.poll_data_nested cr ir rr draws now_iso now self c
              Hc Hs Hcl).
  rewrite !(CommunicatorPoll.read_groups_nested cr ir rr self Hwf Ha).
  repeat split.
  - intros bits j -> Hlen Hj. cbn [stored mbind option_bind].
    apply bits_dict_lookup; assumption.
  - intros bits j -> -> Hlen Hj. cbn [negb stored mbind option_bind].
    apply bits_dict_lookup; assumption.
  - intros registers j -> -> -> Hlen Hj. cbn [negb andb stored mbind option_bind].
    apply data_registers_lookup; assumption.
Qed.

End PolledValues.

Lemma polled_values_by_key_witness :
  wf PollClaims.running
  /\ item Coils "Y001"
       (poll_data (ReadOk [true; false]) ReadRaises ReadError PollClaims.no_draws
          "2025-01-01T00:00:00" 100 PollClaims.running).1
     = Some (VBool false)
  /\ item Coils "Y002"
       (poll_data (ReadOk [true; false]) ReadRaises ReadError PollClaims.no_draws
          "2025-01-01T00:00:00" 100 PollClaims.running).1
     = None.
Proof.
  split; [exact PollClaims.running_wf|].
  pose proof (proj1 (polled_values_by_key (ReadOk [true; false]) ReadRaises ReadError
                       PollClaims.no_draws "2025-01-01T00:00:00" 100
                       PollClaims.running ModbusSerialClient
                       PollClaims.running_wf eq_refl eq_refl eq_refl eq_refl)) as H.
  split.
  - exact (H [true; false] 1%nat eq_refl ltac:(cbn; lia) ltac:(lia)).
  - exact (H [true; false] 2%nat eq_refl ltac:(cbn; lia) ltac:(lia)).
Defined.

(** *** After [disconnect] *)

(** X15.  Outside simulation, on any state the calls can reach,
    [disconnect()] whose [close()] does not raise leaves the communicator
    not connected; the next poll then returns false and the next writes
    are refused with "PLC not connected", all three without changing
    anything, the error counter included. *)
Theorem disconnected_communicator_is_inert
    (modbus_available : bool) (c : config) (cs : list call)
    (cr ir : read_result bool) (rr : read_result Z) (draws : sim_draws)
    (now_iso : string) (now : Q) (io : write_io) (address value : Z) (bit : bool) :
  SIMULATION_MODE c = false ->
  connected (disconnect false (do_calls cs (init modbus_available c))) = false
  /\ poll_data cr ir rr draws now_iso now
       (disconnect false (do_calls cs (init modbus_available c)))
     = (disconnect false (do_calls cs (init modbus_available c)), false)
  /\ write_coil io address bit
       (disconnect false (do_calls cs (init modbus_available c)))
     = (disconnect false (do_calls cs (init modbus_available c)),
        (false, "PLC not connected"%string))
  /\ write_register io address value
       (disconnect false (do_calls cs (init modbus_available c)))
     = (disconnect false (do_calls cs (init modbus_available c)),
        (false, "PLC not connected"%string)).
Proof.
  intros Hsim.
  destruct (do_calls_reachable modbus_available c cs)
    as (_ & _ & _ & _ & H5 & _).
  assert (Hd : connected (disconnect false (do_calls cs (init modbus_available c)))
               = false).
  { unfold disconnect.
    destruct (connected (do_calls cs (init modbus_available c))) eqn:Hc.
    - rewrite (H5 eq_refl Hsim). reflexivity.
    - rewrite andb_false_r. exact Hc. }
  split; [exact Hd|]. split; [|split].
  - apply CommunicatorPoll.poll_data_not_entered. left. exact Hd.
  - unfold write_coil. rewrite Hd. reflexivity.
  - unfold write_register. rewrite Hd. reflexivity.
Qed.

Lemma disconnected_communicator_is_inert_witness :
  SIMULATION_MODE PollClaims.serial_config = false
  /\ connected
       (disconnect false
          (do_calls [Connect (ConnectReturns true)]
             (init true PollClaims.serial_config))) = false.
Proof.
  split; [reflexivity|].
  exact (proj1 (disconnected_communicator_is_inert true PollClaims.serial_config
                  [Connect (ConnectReturns true)] ReadError ReadError ReadError
                  PollClaims.no_draws "2025-01-01T00:00:00" 100 WriteOk 1 2 true
                  eq_refl)).
Defined.

End CommunicatorMore.

(** ** A communicator nobody connects *)

Module CommunicatorIdle.
Import PLCCommunicator.

Definition is_connect (c : call) : bool :=
  match c with
  | Connect _ => true
  | _ => false
  end.

(** The fields [get_status] may write. *)
Definition without_age (s : plc_status) : plc_status :=
  {| st_connected := st_connected s; st_last_update := st_last_update s;
     st_communication_errors := st_communication_errors s;
     st_data_registers := st_data_registers s; st_coil_status := st_coil_status s;
     st_input_status := st_input_status s; st_system_info := st_system_info s;
     st_data_age_seconds := None; st_data_fresh := None |}.

(** Everything but [data_age_seconds] and [data_fresh]. *)
Definition core (self : communicator)
  : bool * config * option client_obj * bool * option Q * bool * Z * plc_status
    * gmap loc (gmap string pyval) :=
  (MODBUS_AVAILABLE self, cfg self, client self, connected self, last_update self,
   simulation_mode self, simulation_counter self, without_age (status self),
   heap self).

Lemma idle_call (c : call) (self : communicator) :
  connected self = false -> is_connect c = false ->
  core (do_call c self) = core self.
Proof.
  intros Hc Hnot. destruct c; cbn [do_call]; try discriminate Hnot.
  - unfold disconnect. rewrite Hc, andb_false_r. reflexivity.
  - rewrite (CommunicatorPoll.poll_data_not_entered coil_result input_result
               register_result draws now_iso now self (or_introl Hc)).
    reflexivity.
  - unfold get_status.
    destruct (last_update self) as [t|]; [destruct (truthy_time (Some t))|];
      reflexivity.
  - unfold write_coil. rewrite Hc. reflexivity.
  - unfold write_register. rewrite Hc. reflexivity.
Qed.

Lemma core_connected (a b : communicator) : core a = core b -> connected a = connected b.
Proof. unfold core. intros H. injection H. intros. assumption. Qed.

Lemma idle_calls (cs : list call) (self : communicator) :
  connected self = false -> forallb (fun c => negb (is_connect c)) cs = true ->
  core (do_calls cs self) = core self.
Proof.
  intros Hc. induction cs as [|c cs IH] using rev_ind; intros Hcs; [reflexivity|].
  rewrite forallb_app in Hcs. cbn [forallb] in Hcs.
  apply andb_true_iff in Hcs as [Hcs Hlast].
  rewrite andb_true_r in Hlast. apply negb_true_iff in Hlast.
  rewrite CommunicatorMore.do_calls_app.
  rewrite idle_call; [exact (IH Hcs)| |exact Hlast].
  rewrite (core_connected _ _ (IH Hcs)). exact Hc.
Qed.

(** X16.  A communicator that is not connected stays as it is under any
    calls other than [connect()]: nothing but the [data_age_seconds] and
    [data_fresh] entries of its status changes, the error counter and
    [connected] included, and a poll made after them returns false and
    changes nothing.  Nothing but [connect()] can start the polling. *)
Theorem without_connect_nothing_is_polled
    (cs : list call) (self : communicator)
    (cr ir : read_result bool) (rr : read_result Z) (draws : sim_draws)
    (now_iso : string) (now : Q) :
  connected self = false ->
  forallb (fun c => negb (is_connect c)) cs = true ->
  core (do_calls cs self) = core self
  /\ connected (do_calls cs self) = false
  /\ st_communication_errors (status (do_calls cs self))
     = st_communication_errors (status self)
  /\ poll_data cr ir rr draws now_iso now (do_calls cs self)
     = (do_calls cs self, false).
Proof.
  intros Hc Hcs. pose proof (idle_calls cs self Hc Hcs) as Hcore.
  assert (Hc' : connected (do_calls cs self) = false)
    by (rewrite (core_connected _ _ Hcore); exact Hc).
  split; [exact Hcore|]. split; [exact Hc'|]. split.
  - unfold core, without_age in Hcore. injection Hcore. intros. assumption.
  - apply CommunicatorPoll.poll_data_not_entered. left. exact Hc'.
Qed.

Definition unanswered : communicator :=
  (connect (ConnectReturns false) (init true PollClaims.serial_config)).1.

Lemma without_connect_nothing_is_polled_witness :
  connected unanswered = false
  /\ connected
       (do_calls [PollData (ReadOk [true]) (ReadOk [true]) (ReadOk [1])
                    PollClaims.no_draws "2025-01-01T00:00:00" 100;
                  GetStatus 101; WriteCoil WriteOk 1 true]
          unanswered) = false.
Proof.
  split; [reflexivity|].
  exact (proj1 (proj2 (without_connect_nothing_is_polled
                  [PollData (ReadOk [true]) (ReadOk [true]) (ReadOk [1])
                     PollClaims.no_draws "2025-01-01T00:00:00" 100;
                   GetStatus 101; WriteCoil WriteOk 1 true]
                  unanswered ReadError ReadError ReadError PollClaims.no_draws
                  "2025-01-01T00:00:00" 102 eq_refl eq_refl))).
Defined.

End CommunicatorIdle.

(** ** The script engine: the scripts a batch runs *)

Module ScriptMore.
Import ScriptEngine.

Section Exec.
Context {plc_data outside : Type}.
Implicit Types (e : engine plc_data outside) (w : world outside)
  (s : script plc_data outside) (o : outcome outside)
  (items : list (string * script plc_data outside)).


(** The ids of the enabled entries of [items], in order. *)
Definition enabled_ids items : list string :=
  map fst (filter (fun item => enabled item.2) items).

Lemma enabled_ids_cons (k : string) s items :
  enabled_ids ((k, s) :: items)
  = if enabled s then k :: enabled_ids items else enabled_ids items.
Proof.
  unfold enabled_ids. rewrite filter_cons. cbn [snd].
  destruct (enabled s); cbn; reflexivity.
Qed.

Lemma execute_each_cons (data : plc_data) (k : string) s items
    (results : gmap string entry) e w :
  execute_each data ((k, s) :: items) (results, e, w)
  = execute_each data items
      (if enabled s
       then (<[k := ScriptResult (execute_script k data e w).1.1]> results,
             (execute_script k data e w).1.2, (execute_script k data e w).2)
       else (results, e, w)).
Proof.
  unfold execute_each. cbn [fold_left fst snd].
  destruct (enabled s); [|reflexivity].
  destruct (execute_script k data e w) as [[r e'] w']. reflexivity.
Qed.

Section Batch.
Variable data : plc_data.

Lemma execute_each_results items (results : gmap string entry) e w (k : string) :
  (k ∈ enabled_ids items ->
   exists r, (execute_each data items (results, e, w)).1.1 !! k
             = Some (ScriptResult r))
  /\ (k ∉ enabled_ids items ->
      (execute_each data items (results, e, w)).1.1 !! k = results !! k).
Proof.
  revert results e w.
  induction items as [|[k0 s] items IH]; intros results e w.
  - split; [intros Hin; apply elem_of_nil in Hin; contradiction|reflexivity].
  - rewrite execute_each_cons, enabled_ids_cons.
    destruct (enabled s); [|apply IH].
    destruct (IH (<[k0 := ScriptResult (execute_script k0 data e w).1.1]> results)
                (execute_script k0 data e w).1.2 (execute_script k0 data e w).2)
      as [IH1 IH2].
    split.
    + intros Hin. destruct (decide (k ∈ enabled_ids items)) as [Hlater|Hnot];
        [exact (IH1 Hlater)|].
      apply elem_of_cons in Hin as [->|Hin]; [|contradiction].
      rewrite (IH2 Hnot), lookup_insert_eq. eauto.
    + intros Hnot. rewrite not_elem_of_cons in Hnot. destruct Hnot as [Hne Hnot].
      rewrite (IH2 Hnot). apply lookup_insert_ne. congruence.
Qed.

End Batch.

Lemma executed_enabled_ids e : executed e = enabled_ids (scripts e).
Proof. reflexivity. Qed.

(** The ids [executed] lists are the ids the loop of a batch runs: in
    [ScriptEngine], the dict [execute_all_enabled_scripts] returns holds
    the pin table under [gpio_states] and besides that an entry for the
    ids of [executed], and for no other. *)
Lemma executed_ids_are_the_keys (data : plc_data) e w :
  (execute_all_enabled_scripts data e w).1.1 !! "gpio_states"%string
  = Some (GpioStates (pin_states (execute_all_enabled_scripts data e w).2))
  /\ (forall k, k ≠ "gpio_states"%string ->
        (k ∈ executed e ->
         exists r, (execute_all_enabled_scripts data e w).1.1 !! k
                   = Some (ScriptResult r))
        /\ (k ∉ executed e ->
            (execute_all_enabled_scripts data e w).1.1 !! k = None)).
Proof.
  unfold execute_all_enabled_scripts.
  pose proof (fun k => execute_each_results data (scripts e) ∅ e w k) as H.
  destruct (execute_each data (scripts e) (∅, e, w)) as [[results e'] w'].
  cbn [fst snd] in *. split; [apply lookup_insert_eq|].
  intros k Hne. rewrite lookup_insert_ne by congruence.
  destruct (H k) as [H1 H2]. split; [exact H1|].
  intros Hnot. rewrite (H2 Hnot). apply lookup_empty.
Qed.

End Exec.

End ScriptMore.

(** ** The script routes: what a request can do to the registry *)

Module RegistryRoutes.
Import ScriptEngine WebServer.

Section Dicts.
Context {V : Type}.
Implicit Types (d : list (string * V)) (k : string).

Lemma dict_get_app k d k' (v : V) :
  dict_get k (d ++ [(k', v)])
  = match dict_get k d with
    | Some x => Some x
    | None => if String.eqb k' k then Some v else None
    end.
Proof.
  induction d as [|[k0 v0] d IH]; cbn; [reflexivity|].
  destruct (String.eqb k0 k); [reflexivity|exact IH].
Qed.

Lemma dict_get_del k k' d :
  dict_get k (dict_del k' d) = if String.eqb k k' then None else dict_get k d.
Proof.
  unfold dict_del. induction d as [|[k0 v0] d IH].
  - cbn. destruct (String.eqb k k'); reflexivity.
  - rewrite filter_cons. cbn [fst].
    destruct (String.eqb_spec k0 k') as [->|Hne]; cbn [negb].
    + rewrite decide_False by (cbn; tauto). rewrite IH. cbn [dict_get].
      destruct (String.eqb_spec k k') as [->|Hne]; [reflexivity|].
      destruct (String.eqb_spec k' k) as [->|_]; [contradiction|reflexivity].
    + rewrite decide_True by exact I. cbn [dict_get]. rewrite IH.
      destruct (String.eqb_spec k0 k) as [->|Hne']; [|reflexivity].
      destruct (String.eqb_spec k k') as [->|_]; [contradiction|reflexivity].
Qed.

Lemma dict_get_None_keys k d : dict_get k d = None -> k ∉ map fst d.
Proof.
  induction d as [|[k0 v0] d IH]; cbn; [intros _; apply not_elem_of_nil|].
  destruct (String.eqb_spec k0 k) as [->|Hne]; [discriminate|].
  intros H. apply not_elem_of_cons. split; [congruence|exact (IH H)].
Qed.

Lemma dict_alter_keys (f : V -> V) k d : map fst (dict_alter f k d) = map fst d.
Proof.
  unfold dict_alter. rewrite map_map. apply map_ext.
  intros [k0 v0]. cbn. destruct (String.eqb k0 k); reflexivity.
Qed.

Lemma dict_del_keys k d :
  NoDup (map fst d) -> NoDup (map fst (dict_del k d)).
Proof.
  unfold dict_del. induction d as [|[k0 v0] d IH]; [auto|].
  cbn [map fst]. intros Hnd. apply NoDup_cons in Hnd as [Hnot Hnd].
  rewrite filter_cons. destruct (decide _); [|exact (IH Hnd)].
  cbn [map fst]. apply NoDup_cons. split; [|exact (IH Hnd)].
  intros Hin. apply Hnot.
  apply list_elem_of_In, in_map_iff in Hin as [[k1 v1] [Hk Hin]].
  apply list_elem_of_In, in_map_iff. exists (k1, v1). split; [exact Hk|].
  apply list_elem_of_In. apply list_elem_of_In, list_elem_of_filter in Hin.
  apply Hin.
Qed.

Lemma dict_app_keys k (v : V) d :
  NoDup (map fst d) -> dict_get k d = None -> NoDup (map fst (d ++ [(k, v)])).
Proof.
  intros Hnd Hk. rewrite map_app. cbn [map fst].
  apply NoDup_app. split; [exact Hnd|]. split; [|apply NoDup_singleton].
  intros x Hx Hin. apply list_elem_of_singleton in Hin as ->.
  exact (dict_get_None_keys _ _ Hk Hx).
Qed.

End Dicts.

Section Routes.
Context {plc_data outside : Type}.
Implicit Types (e : engine plc_data outside) (r : request plc_data outside)
  (b : body plc_data outside).

Definition failed (a : reply) : bool :=
  match a with
  | Failure _ _ => true
  | _ => false
  end.

Definition deletes (k : string) r : bool :=
  match r with
  | Delete script_id => String.eqb script_id k
  | _ => false
  end.

(** X21.  A request to toggle, update, create or delete a script that is
    answered with an error leaves the engine exactly as it was.  One that
    succeeds keeps the ids of the registry distinct, and leaves every
    stored script state as it is, except that deleting a script drops the
    state stored under its id. *)
Theorem route_fails_without_effect r e :
  (failed (route r (Some e)).2 = true -> (route r (Some e)).1 = Some e)
  /\ (exists e',
        (route r (Some e)).1 = Some e'
        /\ (NoDup (map fst (scripts e)) -> NoDup (map fst (scripts e')))
        /\ (forall k, script_states e' !! k
                      = if deletes k r && negb (failed (route r (Some e)).2)
                        then None else script_states e !! k))
  /\ route r None = (None, unavailable).
Proof.
  split; [|split].
  - destruct r as [id|id [b|]|[b|]|id]; cbn [route];
      unfold api_script_toggle, api_script_update, api_script_create,
        api_script_delete;
      try reflexivity;
      try (destruct (is_empty b); [reflexivity|]);
      try (destruct (dict_get id (scripts e)); [discriminate|reflexivity]).
    destruct (b_id b) as [id|]; [|reflexivity].
    destruct (b_name b); [|reflexivity].
    destruct (b_description b); [|reflexivity].
    destruct (b_code b); [|reflexivity].
    destruct (dict_get id (scripts e)); [reflexivity|discriminate].
  - destruct r as [id|id [b|]|[b|]|id]; cbn [route deletes];
      unfold api_script_toggle, api_script_update, api_script_create,
        api_script_delete.
    + destruct (dict_get id (scripts e));
        eexists; (split; [reflexivity|]); split; auto.
      unfold toggle. cbn [scripts set_scripts]. rewrite dict_alter_keys. auto.
    + destruct (is_empty b); [eexists; (split; [reflexivity|]); split; auto|].
      destruct (dict_get id (scripts e));
        eexists; (split; [reflexivity|]); split; auto.
      cbn [scripts set_scripts]. rewrite dict_alter_keys. auto.
    + eexists. split; [reflexivity|]. split; auto.
    + destruct (is_empty b); [eexists; (split; [reflexivity|]); split; auto|].
      destruct (b_id b) as [id|]; [|eexists; (split; [reflexivity|]); split; auto].
      destruct (b_name b); [|eexists; (split; [reflexivity|]); split; auto].
      destruct (b_description b); [|eexists; (split; [reflexivity|]); split; auto].
      destruct (b_code b); [|eexists; (split; [reflexivity|]); split; auto].
      destruct (dict_get id (scripts e)) eqn:Hid;
        eexists; (split; [reflexivity|]); split; auto.
      intros Hnd. cbn [scripts set_scripts]. apply dict_app_keys; assumption.
    + eexists. split; [reflexivity|]. split; auto.
    + unfold delete_script.
      destruct (dict_get id (scripts e)) eqn:Hid; cbn [fst snd failed negb];
        eexists; (split; [reflexivity|]); split; auto.
      * cbn [scripts]. apply dict_del_keys.
      * intros k. cbn [script_states]. rewrite andb_true_r.
        destruct (String.eqb_spec id k) as [->|Hne].
        -- apply lookup_delete_eq.
        -- apply lookup_delete_ne. exact Hne.
      * intros k. rewrite andb_false_r. reflexivity.
  - destruct r as [id|id data|data|id]; reflexivity.
Qed.

(** X22.  Updating a registered script, its code included, keeps the
    state stored for it, and every other entry of the registry.  Deleting
    it and creating a script under the same id does not: the new script is
    registered last, with no stored state, while the scripts and states of
    the other ids are as before. *)
Theorem update_keeps_state_delete_drops_it
    (id : string) e (s : script plc_data outside) b
    (n d : string) (c : behaviour plc_data outside) :
  dict_get id (scripts e) = Some s ->
  is_empty b = false ->
  b_id b = Some id -> b_name b = Some n -> b_description b = Some d ->
  b_code b = Some c ->
  (exists e',
     route (Update id (Some b)) (Some e) = (Some e', Success)
     /\ script_states e' = script_states e
     /\ dict_get id (scripts e') = Some (updated b s)
     /\ code (updated b s) = c
     /\ (forall k, k ≠ id -> dict_get k (scripts e') = dict_get k (scripts e)))
  /\ (exists e',
        route (Create (Some b)) (route (Delete id) (Some e)).1 = (Some e', Success)
        /\ scripts e'
           = dict_del id (scripts e)
             ++ [(id, {| name := n; description := d; code := c;
                         enabled := default false (b_enabled b);
                         gpio_pins := default [] (b_gpio_pins b) |})]
        /\ script_states e' !! id = None
        /\ (forall k, k ≠ id ->
              script_states e' !! k = script_states e !! k
              /\ dict_get k (scripts e') = dict_get k (scripts e))).
Proof.
  intros Hget Hempty Hid Hn Hd Hc. split.
  - eexists. cbn [route]. unfold api_script_update. rewrite Hempty, Hget.
    split; [reflexivity|]. split; [reflexivity|]. cbn [scripts set_scripts].
    split; [|split].
    + rewrite ScriptProps.dict_get_alter, Hget, String.eqb_refl. reflexivity.
    + unfold updated. cbn [code]. rewrite Hc. reflexivity.
    + intros k Hne. rewrite ScriptProps.dict_get_alter.
      destruct (String.eqb_spec k id) as [->|_]; [contradiction|].
      destruct (dict_get k (scripts e)); reflexivity.
  - eexists. cbn [route]. unfold api_script_delete. rewrite Hget. cbn [fst].
    unfold api_script_create. rewrite Hempty, Hid, Hn, Hd, Hc.
    unfold delete_script. rewrite Hget. cbn [scripts].
    rewrite dict_get_del, String.eqb_refl.
    split; [reflexivity|]. cbn [scripts script_states set_scripts].
    split; [reflexivity|]. split; [apply lookup_delete_eq|].
    intros k Hne. split; [apply lookup_delete_ne; congruence|].
    rewrite dict_get_app, dict_get_del.
    destruct (String.eqb_spec k id) as [->|_]; [contradiction|].
    destruct (dict_get k (scripts e)); [reflexivity|].
    destruct (String.eqb_spec id k) as [->|_]; [contradiction|reflexivity].
Qed.

End Routes.

Definition new_timer : body unit unit :=
  {| b_id := Some "timer_example"%string; b_name := Some "Timer"%string;
     b_description := Some "starts over"%string;
     b_code := Some (code ScriptProps.timer); b_enabled := Some true;
     b_gpio_pins := None; b_other := false |}.

Lemma update_keeps_state_delete_drops_it_witness :
  (dict_get "timer_example" (scripts ScriptProps.one_script) = Some ScriptProps.timer
   /\ is_empty new_timer = false)
  /\ exists e',
       route (Create (Some new_timer))
         (route (Delete "timer_example") (Some ScriptProps.one_script)).1
       = (Some e', Success)
       /\ script_states e' !! "timer_example"%string = None.
Proof.
  split; [split; reflexivity|].
  destruct (proj2 (update_keeps_state_delete_drops_it "timer_example"
                     ScriptProps.one_script ScriptProps.timer new_timer
                     "Timer" "starts over" (code ScriptProps.timer)
                     eq_refl eq_refl eq_refl eq_refl eq_refl eq_refl))
    as (e' & H1 & _ & H3 & _).
  exists e'. split; [exact H1|exact H3].
Defined.

End RegistryRoutes.

(** ** The GPIO controller: what a pin reads after it was written *)

Module GPIOProps.
Import GPIOController.

(** Every pin has a dict of its own. *)
Definition wf (self : controller) : Prop :=
  (forall pin l, pin_states self !! pin = Some l -> is_Some (cells self !! l))
  /\ (forall p q l, pin_states self !! p = Some l -> pin_states self !! q = Some l ->
        p = q).

Lemma fresh_controller_wf (available : bool) : wf (init available).
Proof.
  split; cbn; intros *; rewrite lookup_empty; discriminate.
Qed.

Lemma log_wf (c : gpio_call) (self : controller) : wf self -> wf (log c self).
Proof. intros H. exact H. Qed.

Lemma fresh_cell (self : controller) : cells self !! fresh (dom (cells self)) = None.
Proof. apply not_elem_of_dom, is_fresh. Qed.

Lemma fresh_unused (self : controller) (pin : Z) :
  wf self -> pin_states self !! pin ≠ Some (fresh (dom (cells self))).
Proof.
  intros [H _] Hpin. destruct (H _ _ Hpin) as [st Hst].
  rewrite fresh_cell in Hst. discriminate.
Qed.

Lemma store_wf (pin : Z) (mode : string) (self : controller) :
  wf self -> wf (store pin mode self).
Proof.
  intros Hwf. pose proof Hwf as [H1 H2]. split; cbn [store pin_states cells].
  - intros q l Hq. destruct (decide (q = pin)) as [->|Hne].
    + rewrite lookup_insert_eq in Hq. injection Hq as <-.
      rewrite lookup_insert_eq. eauto.
    + rewrite lookup_insert_ne in Hq by congruence.
      destruct (H1 _ _ Hq) as [st Hst].
      rewrite lookup_insert_ne; [eauto|].
      intros <-. rewrite fresh_cell in Hst. discriminate.
  - intros p q l Hp Hq.
    destruct (decide (p = pin)) as [->|Hp']; destruct (decide (q = pin)) as [->|Hq'];
      [reflexivity| | |].
    + rewrite lookup_insert_eq in Hp. rewrite lookup_insert_ne in Hq by congruence.
      injection Hp as <-. exfalso. exact (fresh_unused self q Hwf Hq).
    + rewrite lookup_insert_eq in Hq. rewrite lookup_insert_ne in Hp by congruence.
      injection Hq as <-. exfalso. exact (fresh_unused self p Hwf Hp).
    + rewrite lookup_insert_ne in Hp, Hq by congruence. exact (H2 _ _ _ Hp Hq).
Qed.

Lemma set_value_wf (l : positive) (v : bool) (self : controller) :
  wf self -> wf (set_value l v self).
Proof.
  intros [H1 H2]. split; cbn [set_value pin_states cells]; [|exact H2].
  intros pin l' Hpin. destruct (H1 _ _ Hpin) as [st Hst].
  destruct (decide (l' = l)) as [->|Hne].
  - rewrite lookup_alter_eq, Hst. cbn. eauto.
  - rewrite lookup_alter_ne by congruence. eauto.
Qed.

Section Hardware.
Variable raises : list gpio_call -> gpio_call -> bool.
Variable level : list gpio_call -> Z -> bool.

Abbreviation setup_pin := (setup_pin raises).
Abbreviation set_pin := (set_pin raises).
Abbreviation get_pin := (get_pin raises level).

Lemma setup_pin_wf (pin : Z) (mode : string) (self : controller) :
  wf self -> wf (setup_pin pin mode self).1.
Proof.
  intros Hwf. unfold GPIOController.setup_pin.
  destruct (gpio_available self); [|apply store_wf, Hwf].
  destruct (raises _ _); cbn [fst]; [exact Hwf|].
  apply store_wf, log_wf, Hwf.
Qed.

Lemma setup_pin_lookup (pin : Z) (mode : string) (self : controller) :
  (setup_pin pin mode self).2 = Some tt ->
  read (pin_states (setup_pin pin mode self).1) pin (setup_pin pin mode self).1
  = Some {| ScriptEngine.mode := mode; ScriptEngine.value := false |}.
Proof.
  unfold GPIOController.setup_pin, read.
  destruct (gpio_available self); [destruct (raises _ _); [discriminate|]|];
    intros _; cbn [fst store pin_states cells];
    rewrite lookup_insert_eq; cbn; apply lookup_insert_eq.
Qed.

Lemma store_other (pin q : Z) (mode : string) (self : controller) :
  wf self -> q ≠ pin ->
  read (pin_states (store pin mode self)) q (store pin mode self)
  = read (pin_states self) q self.
Proof.
  intros Hwf Hne. unfold read. cbn [store pin_states cells].
  rewrite lookup_insert_ne by congruence.
  destruct (pin_states self !! q) as [l|] eqn:Hq; [|reflexivity]. cbn.
  apply lookup_insert_ne. intros <-. exact (fresh_unused self q Hwf Hq).
Qed.

Lemma store_snapshot (pin q : Z) (mode : string) (self : controller) :
  wf self ->
  read (pin_states self) q (store pin mode self) = read (pin_states self) q self.
Proof.
  intros Hwf. unfold read. cbn [store cells].
  destruct (pin_states self !! q) as [l|] eqn:Hq; [|reflexivity]. cbn.
  apply lookup_insert_ne. intros <-. exact (fresh_unused self q Hwf Hq).
Qed.

Lemma set_value_read (pin : Z) (l : positive) (v : bool)
    (st : ScriptEngine.pin_state) (self : controller) :
  pin_states self !! pin = Some l -> cells self !! l = Some st ->
  read (pin_states (set_value l v self)) pin (set_value l v self)
  = Some {| ScriptEngine.mode := ScriptEngine.mode st; ScriptEngine.value := v |}.
Proof.
  intros Hpin Hl. unfold read. cbn [set_value pin_states cells].
  rewrite Hpin. cbn. rewrite lookup_alter_eq, Hl. reflexivity.
Qed.

Lemma set_value_other (states : gmap Z positive) (pin q : Z) (l : positive)
    (v : bool) (self : controller) :
  states !! q ≠ Some l ->
  read states q (set_value l v self) = read states q self.
Proof.
  intros Hq. unfold read. cbn [set_value cells].
  destruct (states !! q) as [l'|]; [|reflexivity]. cbn.
  apply lookup_alter_ne. congruence.
Qed.

Lemma set_pin_wf (pin : Z) (v : bool) (self : controller) :
  wf self -> wf (set_pin pin v self).1.
Proof.
  intros Hwf. unfold GPIOController.set_pin.
  assert (Hsetup : wf (match pin_states self !! pin with
                       | Some _ => (self, Some tt)
                       | None => setup_pin pin "output" self
                       end).1)
    by (destruct (pin_states self !! pin); [exact Hwf|apply setup_pin_wf, Hwf]).
  destruct (match pin_states self !! pin with
            | Some _ => (self, Some tt)
            | None => setup_pin pin "output" self
            end) as [s1 [[]|]]; cbn [fst] in Hsetup; [|exact Hsetup].
  destruct (gpio_available s1).
  - destruct (raises (calls s1) (Output pin v)); [exact Hsetup|].
    cbn [log pin_states]. destruct (pin_states s1 !! pin); [|exact Hsetup].
    cbn [fst]. exact (set_value_wf _ v (log _ s1) Hsetup).
  - destruct (pin_states s1 !! pin); [|exact Hsetup]. cbn [fst].
    apply set_value_wf, Hsetup.
Qed.

(** The hardware is not there, or none of its calls raises. *)
Definition quiet (self : controller) : Prop :=
  gpio_available self = false \/ forall h c, raises h c = false.

(** The hardware calls [set_pin] makes. *)
Definition set_pin_calls (pin : Z) (v : bool) (self : controller) : list gpio_call :=
  if gpio_available self then
    match pin_states self !! pin with
    | Some _ => [Output pin v]
    | None => [Setup pin true; Output pin v]
    end
  else [].

Lemma set_pin_configured (pin : Z) (v : bool) (l : positive) (self : controller) :
  quiet self -> pin_states self !! pin = Some l ->
  set_pin pin v self
  = (set_value l v
       (if gpio_available self then log (Output pin v) self else self), Some tt).
Proof.
  intros Hq Hpin. unfold GPIOController.set_pin. rewrite Hpin.
  destruct (gpio_available self) eqn:Ha.
  - destruct Hq as [Hq|Hq]; [congruence|]. rewrite Hq.
    cbn [log pin_states]. rewrite Hpin. reflexivity.
  - rewrite Hpin. reflexivity.
Qed.

Lemma set_pin_unconfigured (pin : Z) (v : bool) (self : controller) :
  quiet self -> pin_states self !! pin = None ->
  set_pin pin v self
  = (if gpio_available self
     then set_value (fresh (dom (cells self))) v
            (log (Output pin v) (store pin "output" (log (Setup pin true) self)))
     else set_value (fresh (dom (cells self))) v (store pin "output" self),
     Some tt).
Proof.
  intros Hq Hpin. unfold GPIOController.set_pin, GPIOController.setup_pin.
  rewrite Hpin. destruct (gpio_available self) eqn:Ha.
  - destruct Hq as [Hq|Hq]; [congruence|].
    change (String.eqb (lower "output") "output") with true.
    rewrite Hq. cbn [store gpio_available log]. rewrite Ha, Hq.
    cbn [pin_states log store]. rewrite lookup_insert_eq. reflexivity.
  - cbn [store gpio_available]. rewrite Ha.
    cbn [pin_states store]. rewrite lookup_insert_eq. reflexivity.
Qed.

(** X23.  When the hardware is not there, or its calls do not raise,
    [set_pin(pin, value)] on a controller stores the value under the pin:
    the pin keeps the mode it had or, if it was not configured, becomes an
    output; no other pin changes; the hardware gets one [GPIO.output],
    preceded by one [GPIO.setup] as output for a pin that was not
    configured, and nothing at all in simulation.  [get_pin(pin)] then
    returns the value, unless the hardware is there and the pin's mode is
    [input]: then it returns what the hardware reads. *)
Theorem set_pin_then_get_pin (pin : Z) (v : bool) (self : controller) :
  wf self -> quiet self ->
  (set_pin pin v self).2 = Some tt
  /\ wf (set_pin pin v self).1
  /\ read (pin_states (set_pin pin v self).1) pin (set_pin pin v self).1
     = Some {| ScriptEngine.mode :=
                 match read (pin_states self) pin self with
                 | Some st => ScriptEngine.mode st
                 | None => "output"%string
                 end;
               ScriptEngine.value := v |}
  /\ (forall q, q ≠ pin ->
        read (pin_states (set_pin pin v self).1) q (set_pin pin v self).1
        = read (pin_states self) q self)
  /\ calls (set_pin pin v self).1 = calls self ++ set_pin_calls pin v self
  /\ (get_pin pin (set_pin pin v self).1).2
     = if gpio_available self
          && match read (pin_states self) pin self with
             | Some st => String.eqb (ScriptEngine.mode st) "input"
             | None => false
             end
       then Some (level (calls (set_pin pin v self).1) pin)
       else Some v.
Proof.
  intros Hwf Hq. pose proof Hwf as [H1 H2].
  destruct (pin_states self !! pin) as [l|] eqn:Hpin.
  - destruct (H1 _ _ Hpin) as [st Hst].
    assert (Hold : read (pin_states self) pin self = Some st)
      by (unfold read; rewrite Hpin; exact Hst).
    rewrite (set_pin_configured pin v l self Hq Hpin), Hold. cbn [fst snd].
    unfold set_pin_calls. rewrite Hpin.
    split; [reflexivity|].
    split; [destruct (gpio_available self); apply set_value_wf; exact Hwf|].
    split.
    { destruct (gpio_available self);
        apply (set_value_read pin l v st); assumption. }
    split.
    { intros q Hne.
      destruct (gpio_available self);
        (rewrite set_value_other; [reflexivity|exact q|]);
        intros Hql; apply Hne; exact (H2 _ _ _ Hql Hpin). }
    split.
    { destruct (gpio_available self); cbn; [reflexivity|].
      rewrite app_nil_r. reflexivity. }
    unfold GPIOController.get_pin.
    destruct (gpio_available self) eqn:Ha;
      cbn [set_value log pin_states cells gpio_available calls];
      rewrite Hpin, lookup_alter_eq, Hst; cbn [fmap option_fmap option_map
        ScriptEngine.mode ScriptEngine.value andb]; rewrite ?Ha; cbn [andb].
    + destruct (String.eqb (ScriptEngine.mode st) "input"); cbn [snd]; [|reflexivity].
      destruct Hq as [Hq|Hq]; [congruence|]. rewrite Hq. reflexivity.
    + reflexivity.
  - assert (Hold : read (pin_states self) pin self = None)
      by (unfold read; rewrite Hpin; reflexivity).
    rewrite (set_pin_unconfigured pin v self Hq Hpin), Hold. cbn [fst snd].
    unfold set_pin_calls. rewrite Hpin. rewrite andb_false_r.
    split; [reflexivity|].
    split.
    { destruct (gpio_available self); apply set_value_wf;
        [apply log_wf|]; apply store_wf; [apply log_wf|]; exact Hwf. }
    split.
    { destruct (gpio_available self); unfold read;
        cbn [set_value log store pin_states cells];
        rewrite lookup_insert_eq; cbn; rewrite lookup_alter_eq, lookup_insert_eq;
        reflexivity. }
    split.
    { intros q Hne.
      assert (Hfresh : pin_states self !! q ≠ Some (fresh (dom (cells self))))
        by exact (fresh_unused self q Hwf).
      destruct (gpio_available self); unfold read;
        cbn [set_value log store pin_states cells];
        rewrite lookup_insert_ne by congruence;
        (destruct (pin_states self !! q) as [l'|]; [|reflexivity]); cbn;
        rewrite lookup_alter_ne, lookup_insert_ne by congruence; reflexivity. }
    split.
    { destruct (gpio_available self); cbn [set_value log store calls];
        [rewrite <- app_assoc; reflexivity|rewrite app_nil_r; reflexivity]. }
    unfold GPIOController.get_pin.
    destruct (gpio_available self) eqn:Ha;
      cbn [set_value log store pin_states cells gpio_available calls];
      rewrite lookup_insert_eq, lookup_alter_eq, lookup_insert_eq;
      cbn [fmap option_fmap option_map ScriptEngine.mode ScriptEngine.value];
      rewrite ?Ha; reflexivity.
Qed.

(** X24.  After [setup_pin(pin, mode)] the pin holds a new dict with
    that mode and value false, and no other pin changes.  The hardware,
    when there, was asked for an output exactly when the mode in lower
    case is [output], for an input otherwise; but [get_pin] reads the
    hardware only when the mode is spelled [input]: a pin set up as
    [INPUT] is an input to the hardware and reads false to the scripts. *)
Theorem setup_pin_then_get_pin (pin : Z) (mode : string) (self : controller) :
  wf self -> (setup_pin pin mode self).2 = Some tt ->
  wf (setup_pin pin mode self).1
  /\ read (pin_states (setup_pin pin mode self).1) pin (setup_pin pin mode self).1
     = Some {| ScriptEngine.mode := mode; ScriptEngine.value := false |}
  /\ (forall q, q ≠ pin ->
        read (pin_states (setup_pin pin mode self).1) q (setup_pin pin mode self).1
        = read (pin_states self) q self)
  /\ calls (setup_pin pin mode self).1
     = calls self
       ++ (if gpio_available self
           then [Setup pin (String.eqb (lower mode) "output")] else [])
  /\ get_pin pin (setup_pin pin mode self).1
     = if gpio_available self && String.eqb mode "input"
       then (log (Input pin) (setup_pin pin mode self).1,
             if raises (calls (setup_pin pin mode self).1) (Input pin) then None
             else Some (level (calls (setup_pin pin mode self).1) pin))
       else ((setup_pin pin mode self).1, Some false).
Proof.
  intros Hwf Hok.
  split; [apply setup_pin_wf, Hwf|].
  split; [apply setup_pin_lookup, Hok|].
  revert Hok. unfold GPIOController.setup_pin.
  destruct (gpio_available self) eqn:Ha.
  - destruct (raises (calls self) _); [discriminate|]. intros _. cbn [fst].
    split; [intros q Hne; apply (store_other pin q mode (log _ self)); assumption|].
    split; [reflexivity|].
    unfold GPIOController.get_pin. cbn [store log pin_states cells gpio_available].
    rewrite !lookup_insert_eq, Ha. cbn [ScriptEngine.mode ScriptEngine.value andb].
    destruct (String.eqb mode "input"); reflexivity.
  - intros _. cbn [fst].
    split; [intros q Hne; apply store_other; assumption|].
    split; [rewrite app_nil_r; reflexivity|].
    unfold GPIOController.get_pin. cbn [store pin_states cells gpio_available].
    rewrite !lookup_insert_eq, Ha. reflexivity.
Qed.

(** *** Snapshots of the pin table *)

(** Every dict of [a] is a dict of [b], with the mode it had. *)
Definition keeps_modes (a b : controller) : Prop :=
  forall l st, cells a !! l = Some st ->
    exists v, cells b !! l
              = Some {| ScriptEngine.mode := ScriptEngine.mode st;
                        ScriptEngine.value := v |}.

Lemma keeps_modes_refl (a : controller) : keeps_modes a a.
Proof. intros l [m v] H. exists v. exact H. Qed.

Lemma keeps_modes_trans (a b c : controller) :
  keeps_modes a b -> keeps_modes b c -> keeps_modes a c.
Proof.
  intros H1 H2 l st Hl. destruct (H1 l st Hl) as [v Hv].
  destruct (H2 l _ Hv) as [v' Hv']. exists v'. exact Hv'.
Qed.

Lemma store_keeps_modes (pin : Z) (mode : string) (self : controller) :
  keeps_modes self (store pin mode self).
Proof.
  intros l [m v] Hl. exists v. cbn [store cells].
  rewrite lookup_insert_ne; [exact Hl|].
  intros <-. rewrite fresh_cell in Hl. discriminate.
Qed.

Lemma set_value_keeps_modes (l : positive) (v : bool) (self : controller) :
  keeps_modes self (set_value l v self).
Proof.
  intros l' [m v'] Hl. cbn [set_value cells].
  destruct (decide (l' = l)) as [->|Hne].
  - exists v. rewrite lookup_alter_eq, Hl. reflexivity.
  - exists v'. rewrite lookup_alter_ne by congruence. exact Hl.
Qed.

Lemma do_call_keeps_modes (c : call) (self : controller) :
  keeps_modes self (do_call raises level c self).
Proof.
  destruct c as [pin mode|pin v|pin]; cbn [do_call].
  - unfold GPIOController.setup_pin.
    destruct (gpio_available self); [destruct (raises _ _)|]; cbn [fst];
      [exact (keeps_modes_refl self)| |apply store_keeps_modes].
    exact (store_keeps_modes pin mode (log _ self)).
  - unfold GPIOController.set_pin.
    assert (Hsetup : keeps_modes self
              (match pin_states self !! pin with
               | Some _ => (self, Some tt)
               | None => setup_pin pin "output" self
               end).1).
    { destruct (pin_states self !! pin); [apply keeps_modes_refl|].
      unfold GPIOController.setup_pin.
      destruct (gpio_available self); [destruct (raises _ _)|]; cbn [fst];
        [exact (keeps_modes_refl self)| |apply store_keeps_modes].
      exact (store_keeps_modes pin "output" (log _ self)). }
    destruct (match pin_states self !! pin with
              | Some _ => (self, Some tt)
              | None => setup_pin pin "output" self
              end) as [s1 [[]|]]; cbn [fst] in Hsetup; [|exact Hsetup].
    destruct (gpio_available s1).
    + destruct (raises (calls s1) (Output pin v)); [exact Hsetup|].
      cbn [log pin_states]. destruct (pin_states s1 !! pin); [|exact Hsetup].
      cbn [fst].
      exact (keeps_modes_trans _ _ _ Hsetup (set_value_keeps_modes _ v (log _ s1))).
    + destruct (pin_states s1 !! pin); [|exact Hsetup]. cbn [fst].
      exact (keeps_modes_trans _ _ _ Hsetup (set_value_keeps_modes _ v s1)).
  - unfold GPIOController.get_pin.
    destruct (pin_states self !! pin) as [l|]; [|apply keeps_modes_refl].
    destruct (cells self !! l) as [st|]; [|apply keeps_modes_refl].
    destruct (_ && _); exact (keeps_modes_refl self).
Qed.

Lemma do_calls_keep_modes (cs : list call) (self : controller) :
  keeps_modes self (do_calls raises level cs self).
Proof.
  induction cs as [|c cs IH] using rev_ind; [apply keeps_modes_refl|].
  unfold do_calls in *. rewrite fold_left_app. cbn [fold_left].
  exact (keeps_modes_trans _ _ _ IH (do_call_keeps_modes c _)).
Qed.

(** X25.  The dict [get_pin_states()] returns is a copy of the top level
    only.  A later [set_pin] of a pin it holds shows through it; a later
    [setup_pin] of that pin does not, the snapshot keeps the dict the pin
    had; and whatever is called on the controller afterwards, a pin of the
    snapshot keeps its mode and a pin that was not configured stays absent
    from it. *)
Theorem pin_snapshot_shares_the_pin_dicts
    (pin : Z) (st : ScriptEngine.pin_state) (v : bool) (mode : string)
    (cs : list call) (self : controller) :
  wf self -> quiet self ->
  read (get_pin_states self) pin self = Some st ->
  read (get_pin_states self) pin (set_pin pin v self).1
  = Some {| ScriptEngine.mode := ScriptEngine.mode st; ScriptEngine.value := v |}
  /\ read (get_pin_states self) pin (setup_pin pin mode self).1 = Some st
  /\ (exists v',
        read (get_pin_states self) pin (do_calls raises level cs self)
        = Some {| ScriptEngine.mode := ScriptEngine.mode st;
                  ScriptEngine.value := v' |})
  /\ (forall q, read (get_pin_states self) q self = None ->
        read (get_pin_states self) q (do_calls raises level cs self) = None).
Proof.
  intros Hwf Hq Hread. pose proof Hwf as [H1 H2].
  unfold get_pin_states in *. unfold read in Hread.
  destruct (pin_states self !! pin) as [l|] eqn:Hpin; [|discriminate].
  cbn in Hread. split; [|split; [|split]].
  - rewrite (set_pin_configured pin v l self Hq Hpin). cbn [fst].
    unfold read. rewrite Hpin. cbn.
    destruct (gpio_available self); cbn [set_value log cells];
      rewrite lookup_alter_eq, Hread; reflexivity.
  - unfold GPIOController.setup_pin.
    destruct (gpio_available self); [destruct (raises _ _)|]; cbn [fst].
    + unfold read. rewrite Hpin. exact Hread.
    + rewrite (store_snapshot pin pin mode (log _ self) Hwf).
      unfold read. cbn [log pin_states cells]. rewrite Hpin. exact Hread.
    + rewrite (store_snapshot pin pin mode self Hwf).
      unfold read. rewrite Hpin. exact Hread.
  - destruct (do_calls_keep_modes cs self l st Hread) as [v' Hv'].
    exists v'. unfold read. rewrite Hpin. exact Hv'.
  - intros q Hnone. unfold read in *.
    destruct (pin_states self !! q) as [l'|] eqn:Hq'; [|reflexivity].
    destruct (H1 _ _ Hq') as [st' Hst']. cbn in Hnone. congruence.
Qed.

(** X26.  When the hardware call of [set_pin] raises on a pin that was not
    configured, the pin is left configured as an output with value false,
    and the value is not stored; when it is the [GPIO.setup] before it
    that raises, nothing is stored at all. *)
Theorem set_pin_interrupted (pin : Z) (v : bool) (self : controller) :
  gpio_available self = true -> pin_states self !! pin = None ->
  (raises (calls self) (Setup pin true) = true ->
   set_pin pin v self = (log (Setup pin true) self, None))
  /\ (raises (calls self) (Setup pin true) = false ->
      raises (calls self ++ [Setup pin true]) (Output pin v) = true ->
      (set_pin pin v self).2 = None
      /\ read (pin_states (set_pin pin v self).1) pin (set_pin pin v self).1
         = Some {| ScriptEngine.mode := "output"; ScriptEngine.value := false |}
      /\ calls (set_pin pin v self).1
         = calls self ++ [Setup pin true; Output pin v]).
Proof.
  intros Ha Hpin. unfold GPIOController.set_pin, GPIOController.setup_pin.
  rewrite Hpin, Ha. change (String.eqb (lower "output") "output") with true.
  split.
  - intros ->. reflexivity.
  - intros -> Hout. cbn [store log gpio_available calls]. rewrite Ha, Hout.
    cbn [fst snd]. split; [reflexivity|]. split.
    + unfold read. cbn [log store pin_states cells].
      rewrite lookup_insert_eq. cbn. apply lookup_insert_eq.
    + cbn [log store calls]. rewrite <- app_assoc. reflexivity.
Qed.

End Hardware.

(** Hardware that never raises and reads every pin high. *)
Definition calm : list gpio_call -> gpio_call -> bool := fun _ _ => false.
Definition high : list gpio_call -> Z -> bool := fun _ _ => true.

(** Hardware on which [GPIO.output] raises. *)
Definition no_output : list gpio_call -> gpio_call -> bool :=
  fun _ c => match c with Output _ _ => true | _ => false end.

Lemma set_pin_then_get_pin_witness :
  wf (init true) /\ quiet calm (init true)
  /\ calls (set_pin calm 18 true (init true)).1 = [Setup 18 true; Output 18 true]
  /\ (get_pin calm high 18 (set_pin calm 18 true (init true)).1).2 = Some true.
Proof.
  split; [apply fresh_controller_wf|]. split; [right; reflexivity|].
  destruct (set_pin_then_get_pin calm high 18 true (init true)
              (fresh_controller_wf true) (or_intror (fun _ _ => eq_refl)))
    as (_ & _ & _ & _ & H5 & H6).
  split; [exact H5|exact H6].
Defined.

Definition input_pin : controller := (setup_pin calm 17 "INPUT" (init true)).1.

Lemma setup_pin_then_get_pin_witness :
  wf (init true) /\ (setup_pin calm 17 "INPUT" (init true)).2 = Some tt
  /\ calls input_pin = [Setup 17 false]
  /\ get_pin calm high 17 input_pin = (input_pin, Some false).
Proof.
  split; [apply fresh_controller_wf|]. split; [reflexivity|].
  destruct (setup_pin_then_get_pin calm high 17 "INPUT" (init true)
              (fresh_controller_wf true) eq_refl) as (_ & _ & _ & H4 & H5).
  split; [exact H4|exact H5].
Defined.

Definition one_pin : controller := (set_pin calm 18 false (init false)).1.

Lemma one_pin_wf : wf one_pin.
Proof. apply set_pin_wf, fresh_controller_wf. Qed.

Lemma pin_snapshot_shares_the_pin_dicts_witness :
  (wf one_pin /\ quiet calm one_pin
   /\ read (get_pin_states one_pin) 18 one_pin
      = Some {| ScriptEngine.mode := "output"; ScriptEngine.value := false |})
  /\ read (get_pin_states one_pin) 18 (set_pin calm 18 true one_pin).1
     = Some {| ScriptEngine.mode := "output"; ScriptEngine.value := true |}.
Proof.
  assert (H : read (get_pin_states one_pin) 18 one_pin
              = Some {| ScriptEngine.mode := "output"; ScriptEngine.value := false |})
    by reflexivity.
  split; [split; [exact one_pin_wf|split; [left; reflexivity|exact H]]|].
  exact (proj1 (pin_snapshot_shares_the_pin_dicts calm high 18 _ true "input" []
                  one_pin one_pin_wf (or_introl eq_refl) H)).
Defined.

Lemma set_pin_interrupted_witness :
  gpio_available (init true) = true /\ pin_states (init true) !! 18 = None
  /\ read (pin_states (set_pin no_output 18 true (init true)).1) 18
       (set_pin no_output 18 true (init true)).1
     = Some {| ScriptEngine.mode := "output"; ScriptEngine.value := false |}.
Proof.
  split; [reflexivity|]. split; [reflexivity|].
  exact (proj1 (proj2 (proj2 (set_pin_interrupted no_output 18 true (init true)
                                eq_refl eq_refl) eq_refl eq_refl))).
Defined.

End GPIOProps.

(** ** The script engine of the ESP-32: flags, the enabled set and a batch *)

Module ESP32Props.
Import ESP32ScriptEngine ESP32Executor.

(** The flag of every script says whether its id is in the enabled set,
    and the set holds registered ids only. *)
Definition in_sync (e : engine) : Prop :=
  (forall script_id s, scripts e !! script_id = Some s ->
     enabled s = bool_decide (script_id ∈ enabled_scripts e))
  /\ (forall script_id, script_id ∈ enabled_scripts e ->
        is_Some (scripts e !! script_id)).

(** The scripts of [a] and [b] differ in their flags at most. *)
Definition same_texts (a b : engine) : Prop :=
  forall script_id,
    set_enabled false <$> scripts a !! script_id
    = set_enabled false <$> scripts b !! script_id.

Lemma default_in_sync (a b c : string) : in_sync (load_default_scripts a b c).
Proof.
  split.
  - intros id s. unfold load_default_scripts. cbn [scripts enabled_scripts].
    destruct (decide (id = "temp_alarm"%string)) as [->|H1];
      [rewrite lookup_insert_eq; intros [= <-]; reflexivity|].
    rewrite lookup_insert_ne by congruence.
    destruct (decide (id = "emergency_stop"%string)) as [->|H2];
      [rewrite lookup_insert_eq; intros [= <-]; reflexivity|].
    rewrite lookup_insert_ne by congruence.
    destruct (decide (id = "status_led"%string)) as [->|H3];
      [rewrite lookup_insert_eq; intros [= <-]; reflexivity|].
    rewrite lookup_insert_ne by congruence. rewrite lookup_empty. discriminate.
  - intros id Hin. cbn [load_default_scripts enabled_scripts] in Hin.
    apply elem_of_singleton in Hin as ->. cbn [load_default_scripts scripts].
    rewrite lookup_insert_ne, lookup_insert_ne, lookup_insert_eq by discriminate.
    eauto.
Qed.

Lemma enable_in_sync (script_id : string) (e : engine) :
  in_sync e -> in_sync (enable_script script_id e).1.
Proof.
  intros [H1 H2]. unfold enable_script.
  destruct (scripts e !! script_id) as [s|] eqn:Hs; [|split; assumption].
  unfold in_sync. cbn [fst scripts enabled_scripts]. split.
  - intros id s'. destruct (decide (id = script_id)) as [->|Hne].
    + rewrite lookup_insert_eq. intros [= <-]. cbn [set_enabled enabled].
      symmetry. apply bool_decide_eq_true_2.
      apply elem_of_union_l, elem_of_singleton. reflexivity.
    + rewrite lookup_insert_ne by congruence. intros Hs'.
      rewrite (H1 _ _ Hs'). apply bool_decide_ext.
      rewrite elem_of_union, elem_of_singleton. tauto.
  - intros id Hin. destruct (decide (id = script_id)) as [->|Hne].
    + rewrite lookup_insert_eq. eauto.
    + rewrite lookup_insert_ne by congruence. apply H2.
      apply elem_of_union in Hin as [Hin|Hin]; [|exact Hin].
      apply elem_of_singleton in Hin. contradiction.
Qed.

Lemma disable_in_sync (script_id : string) (e : engine) :
  in_sync e -> in_sync (disable_script script_id e).1.
Proof.
  intros [H1 H2]. unfold disable_script.
  destruct (scripts e !! script_id) as [s|] eqn:Hs; [|split; assumption].
  unfold in_sync. cbn [fst scripts enabled_scripts]. split.
  - intros id s'. destruct (decide (id = script_id)) as [->|Hne].
    + rewrite lookup_insert_eq. intros [= <-]. cbn [set_enabled enabled].
      symmetry. apply bool_decide_eq_false_2.
      rewrite elem_of_difference, elem_of_singleton. tauto.
    + rewrite lookup_insert_ne by congruence. intros Hs'.
      rewrite (H1 _ _ Hs'). apply bool_decide_ext.
      rewrite elem_of_difference, elem_of_singleton. tauto.
  - intros id Hin. apply elem_of_difference in Hin as [Hin Hnot].
    rewrite elem_of_singleton in Hnot.
    rewrite lookup_insert_ne by congruence. apply H2, Hin.
Qed.

Lemma same_texts_refl (e : engine) : same_texts e e.
Proof. intros id. reflexivity. Qed.

Lemma same_texts_trans (a b c : engine) :
  same_texts a b -> same_texts b c -> same_texts a c.
Proof. intros H1 H2 id. rewrite (H1 id). apply H2. Qed.

Lemma switch_same_texts (c : switch) (e : engine) : same_texts (do_switch c e) e.
Proof.
  intros id. destruct c as [script_id|script_id]; cbn [do_switch];
    unfold enable_script, disable_script;
    (destruct (scripts e !! script_id) as [s|] eqn:Hs; [|reflexivity]);
    cbn [fst scripts];
    (destruct (decide (id = script_id)) as [->|Hne];
     [rewrite lookup_insert_eq, Hs; reflexivity
     |rewrite lookup_insert_ne by congruence; reflexivity]).
Qed.

Lemma do_switches_app (cs : list switch) (c : switch) (e : engine) :
  do_switches (cs ++ [c]) e = do_switch c (do_switches cs e).
Proof. unfold do_switches. rewrite fold_left_app. reflexivity. Qed.

Lemma do_switches_in_sync (cs : list switch) (e : engine) :
  in_sync e -> in_sync (do_switches cs e) /\ same_texts (do_switches cs e) e.
Proof.
  intros Hsync. induction cs as [|c cs [IH1 IH2]] using rev_ind.
  - split; [exact Hsync|apply same_texts_refl].
  - rewrite do_switches_app. split.
    + destruct c; cbn [do_switch]; [apply enable_in_sync|apply disable_in_sync];
        exact IH1.
    + exact (same_texts_trans _ _ _ (switch_same_texts c _) IH2).
Qed.

Lemma get_script_info_in_sync (script_id : string) (e : engine) :
  in_sync e -> get_script_info script_id e = scripts e !! script_id.
Proof.
  intros [H1 _]. unfold get_script_info.
  destruct (scripts e !! script_id) as [s|] eqn:Hs; [|reflexivity].
  rewrite <- (H1 _ _ Hs). destruct s. reflexivity.
Qed.

Lemma executed_in_sync (e : engine) : in_sync e -> executed e = enabled_scripts e.
Proof.
  intros [_ H2]. unfold executed. apply set_eq. intros id.
  rewrite elem_of_filter. split; [intros [_ H]; exact H|].
  intros H. split; [apply H2, H|exact H].
Qed.

(** X27.  Whatever scripts are enabled and disabled after the default
    scripts were loaded, the [enabled] entry of every script says whether
    its id is in [enabled_scripts], the set holds registered ids only, so
    that all of it is executed, no script is added or removed and no name,
    description or code changes, and [get_script_info] answers the entry
    as it is stored. *)
Theorem flags_follow_the_enabled_set
    (status_led emergency_stop temp_alarm : string) (cs : list switch) :
  in_sync (do_switches cs (load_default_scripts status_led emergency_stop temp_alarm))
  /\ same_texts
       (do_switches cs (load_default_scripts status_led emergency_stop temp_alarm))
       (load_default_scripts status_led emergency_stop temp_alarm)
  /\ executed
       (do_switches cs (load_default_scripts status_led emergency_stop temp_alarm))
     = enabled_scripts
         (do_switches cs (load_default_scripts status_led emergency_stop temp_alarm))
  /\ (forall script_id,
        get_script_info script_id
          (do_switches cs (load_default_scripts status_led emergency_stop temp_alarm))
        = scripts
            (do_switches cs
               (load_default_scripts status_led emergency_stop temp_alarm))
          !! script_id).
Proof.
  destruct (do_switches_in_sync cs
              (load_default_scripts status_led emergency_stop temp_alarm)
              (default_in_sync _ _ _)) as [H1 H2].
  split; [exact H1|]. split; [exact H2|].
  split; [apply executed_in_sync, H1|].
  intros id. apply get_script_info_in_sync, H1.
Qed.

(** *** One batch *)

Section Batch.
Context {plc_data world pin_table : Type}.
Variable exec : string -> plc_data -> world -> plc_data * world * ending.
Variable ticks_ms : world -> Z.
Variable ticks_diff : Z -> Z -> Z.
Variable get_pin_states : world -> pin_table.
Variable mem_free : world -> Z.
Variable order : gset string -> list string.

(** [list(s)] lists the elements of the set [s], each once, in some
    order. *)
Hypothesis order_lists : forall (X : gset string) k, k ∈ order X <-> k ∈ X.
Hypothesis order_once : forall X : gset string, NoDup (order X).

Variable e : engine.

Abbreviation execute_script := (execute_script exec ticks_ms ticks_diff).
Abbreviation step := (step exec ticks_ms ticks_diff e).
Abbreviation execute_each := (execute_each exec ticks_ms ticks_diff e).
Abbreviation execute_enabled_scripts :=
  (execute_enabled_scripts exec ticks_ms ticks_diff get_pin_states mem_free order).

Implicit Types (acc : option (gmap string result) * plc_data * world)
  (ids : list string).

Lemma esp_execute_each_app ids1 ids2 acc :
  execute_each (ids1 ++ ids2) acc = execute_each ids2 (execute_each ids1 acc).
Proof. unfold ESP32Executor.execute_each. apply fold_left_app. Qed.

Lemma esp_execute_each_cons (id : string) ids acc :
  execute_each (id :: ids) acc = execute_each ids (step acc id).
Proof. reflexivity. Qed.

Lemma esp_execute_each_gone ids (data : plc_data) (w : world) :
  execute_each ids (None, data, w) = (None, data, w).
Proof. induction ids as [|id ids IH]; [reflexivity|exact IH]. Qed.

(** What the loop has put into the results when it reaches its end. *)
Lemma esp_execute_each_results ids (res : gmap string result) (data : plc_data)
    (w : world) (res' : gmap string result) :
  (execute_each ids (Some res, data, w)).1.1 = Some res' ->
  forall k,
    (k ∈ ids -> is_Some (scripts e !! k) -> is_Some (res' !! k))
    /\ (~ (k ∈ ids /\ is_Some (scripts e !! k)) -> res' !! k = res !! k).
Proof.
  revert res data w.
  induction ids as [|id ids IH]; intros res data w Hrun k.
  - cbn in Hrun. injection Hrun as <-. split; [|reflexivity].
    intros Hin. apply elem_of_nil in Hin. contradiction.
  - rewrite esp_execute_each_cons in Hrun.
    unfold ESP32Executor.step in Hrun. cbn [fst snd] in Hrun.
    destruct (scripts e !! id) as [s|] eqn:Hs.
    + destruct (execute_script id data e w) as [[[r|] d1] w1];
        cbv beta iota in Hrun.
      * destruct (IH _ _ _ Hrun k) as [IHin IHout]. split.
        -- intros Hin Hreg.
           destruct (decide (k ∈ ids)) as [Hlater|Hnot]; [exact (IHin Hlater Hreg)|].
           apply elem_of_cons in Hin as [->|Hin]; [|contradiction].
           rewrite IHout by tauto. rewrite lookup_insert_eq. eauto.
        -- intros Hnot.
           assert (Hne : k ≠ id).
           { intros ->. apply Hnot. split; [apply list_elem_of_here|].
             rewrite Hs. eauto. }
           rewrite IHout.
           ++ apply lookup_insert_ne. congruence.
           ++ intros [Hin Hreg]. apply Hnot.
              split; [apply list_elem_of_further, Hin|exact Hreg].
      * rewrite esp_execute_each_gone in Hrun. discriminate Hrun.
    + destruct (IH _ _ _ Hrun k) as [IHin IHout]. split.
      * intros Hin Hreg. apply elem_of_cons in Hin as [->|Hin].
        -- rewrite Hs in Hreg. destruct Hreg as [? [=]].
        -- exact (IHin Hin Hreg).
      * intros Hnot. apply IHout. intros [Hin Hreg]. apply Hnot.
        split; [apply list_elem_of_further, Hin|exact Hreg].
Qed.

(** The loop runs a registered script on what the scripts listed before
    it left, and the scripts listed after it on what it left. *)
Lemma esp_execute_each_turn (k : string) (s : script) before after
    (res0 : gmap string result) (data data0 : plc_data) (w w0 : world) :
  scripts e !! k = Some s ->
  execute_each before (Some ∅, data, w) = (Some res0, data0, w0) ->
  execute_each (before ++ k :: after) (Some ∅, data, w)
  = execute_each after
      (match execute_script k data0 e w0 with
       | (Some r, data1, w1) => (Some (<[k := r]> res0), data1, w1)
       | (None, data1, w1) => (None, data1, w1)
       end).
Proof.
  intros Hs Hbefore.
  rewrite esp_execute_each_app, Hbefore, esp_execute_each_cons.
  unfold ESP32Executor.step. cbn [fst snd]. rewrite Hs. reflexivity.
Qed.

Lemma esp_batch_unfold (data : plc_data) (w : world) :
  execute_enabled_scripts data e w
  = let run := execute_each (order (enabled_scripts e)) (Some ∅, data, w) in
    ((fun results =>
        {| results := results; gpio_states := get_pin_states run.2;
           memory_free := mem_free run.2; timestamp := ticks_ms run.2 |})
       <$> run.1.1, run.1.2, run.2).
Proof.
  unfold ESP32Executor.execute_enabled_scripts. cbv zeta.
  destruct (execute_each (order (enabled_scripts e)) (Some ∅, data, w))
    as [[[res|] d1] w1]; reflexivity.
Qed.

(** X28.  In a batch of [execute_enabled_scripts], let [k] be a
    registered script that the list of the enabled scripts holds after
    the ids [before] and before the ids [after], and let the scripts
    before it run without an exception leaving the loop.  Then the loop
    executes the code of [k] on the [plc_data] and the world they left,
    and goes on with the scripts after it on what the code left.  If the
    code runs to its end, the entry of [k] has success true and no error;
    if it raises an [Exception], success false and the text of the
    exception as error; both carry the id and the execution time, the
    difference of the ticks after and before the code.  If it raises an
    exception that is no [Exception], [execute_script] and the batch
    return nothing.  When the batch returns, [results] holds that entry
    under [k], nothing under an id that is not both registered and
    enabled, and the pin table, the free memory and the time stamp are
    read in the world the last script left. *)
Theorem esp_batch_runs_every_enabled_script
    (data : plc_data) (w : world) (k : string) (s : script)
    before after (res0 : gmap string result) (data0 : plc_data) (w0 : world) :
  order (enabled_scripts e) = before ++ k :: after ->
  scripts e !! k = Some s ->
  execute_each before (Some ∅, data, w) = (Some res0, data0, w0) ->
  let ran := exec (code s) data0 w0 in
  let entry (success : bool) (error : option string) :=
    {| r_script_id := Some k; r_success := success; r_error := error;
       r_execution_time :=
         Some (ticks_diff (ticks_ms ran.1.2) (ticks_ms w0)) |} in
  execute_script k data0 e w0
  = (match ran.2 with
     | Completed => Some (entry true None)
     | Raised msg => Some (entry false (Some msg))
     | Escaped => None
     end, ran.1.1, ran.1.2)
  /\ execute_each (order (enabled_scripts e)) (Some ∅, data, w)
     = execute_each after
         (match ran.2 with
          | Completed => Some (<[k := entry true None]> res0)
          | Raised msg => Some (<[k := entry false (Some msg)]> res0)
          | Escaped => None
          end, ran.1.1, ran.1.2)
  /\ (ran.2 = Escaped -> (execute_enabled_scripts data e w).1.1 = None)
  /\ (forall b, (execute_enabled_scripts data e w).1.1 = Some b ->
        (execute_script k data0 e w0).1.1 = results b !! k
        /\ is_Some (results b !! k)
        /\ (forall j, j ∉ executed e -> results b !! j = None)
        /\ gpio_states b = get_pin_states (execute_enabled_scripts data e w).2
        /\ memory_free b = mem_free (execute_enabled_scripts data e w).2
        /\ timestamp b = ticks_ms (execute_enabled_scripts data e w).2).
Proof.
  intros Horder Hs Hbefore ran entry.
  assert (Hin : k ∈ enabled_scripts e).
  { apply order_lists. rewrite Horder. apply elem_of_app. right.
    apply list_elem_of_here. }
  assert (Hna : k ∉ after).
  { pose proof (order_once (enabled_scripts e)) as Hnd. rewrite Horder in Hnd.
    apply NoDup_app in Hnd as (_ & _ & Hnd).
    apply NoDup_cons in Hnd as [Hna _]. exact Hna. }
  assert (Hrun : execute_script k data0 e w0
                 = (match ran.2 with
                    | Completed => Some (entry true None)
                    | Raised msg => Some (entry false (Some msg))
                    | Escaped => None
                    end, ran.1.1, ran.1.2)).
  { unfold ESP32Executor.execute_script.
    rewrite Hs, bool_decide_eq_true_2 by exact Hin. subst entry ran. cbv zeta.
    destruct (exec (code s) data0 w0) as [[d1 w1] [|msg|]]; reflexivity. }
  assert (Hturn := esp_execute_each_turn k s before after res0 data data0 w w0
                     Hs Hbefore).
  rewrite <- Horder in Hturn. rewrite Hrun in Hturn.
  assert (Hturn' : execute_each (order (enabled_scripts e)) (Some ∅, data, w)
                   = execute_each after
                       (match ran.2 with
                        | Completed => Some (<[k := entry true None]> res0)
                        | Raised msg => Some (<[k := entry false (Some msg)]> res0)
                        | Escaped => None
                        end, ran.1.1, ran.1.2)).
  { rewrite Hturn. destruct ran.2; reflexivity. }
  split; [exact Hrun|]. split; [exact Hturn'|].
  rewrite esp_batch_unfold. cbv zeta. cbn [fst snd]. split.
  - intros Hesc. rewrite Hturn', Hesc, esp_execute_each_gone. reflexivity.
  - intros b Hb.
    pose proof (esp_execute_each_results (order (enabled_scripts e)) ∅ data w)
      as Hwhole.
    rewrite Hrun. cbn [fst snd].
    rewrite Hturn' in Hb, Hwhole |- *.
    set (first := match ran.2 with
                  | Completed => Some (entry true None)
                  | Raised msg => Some (entry false (Some msg))
                  | Escaped => None
                  end).
    assert (Hfirst : exists r, first = Some r
              /\ match ran.2 with
                 | Completed => Some (<[k := entry true None]> res0)
                 | Raised msg => Some (<[k := entry false (Some msg)]> res0)
                 | Escaped => None
                 end = Some (<[k := r]> res0)).
    { subst first. destruct ran.2 as [|msg|]; eauto.
      rewrite esp_execute_each_gone in Hb. discriminate Hb. }
    destruct Hfirst as (r & Hr & Hacc). rewrite Hr.
    rewrite Hacc in Hb, Hwhole |- *.
    pose proof (esp_execute_each_results after (<[k := r]> res0) ran.1.1 ran.1.2)
      as Hrest.
    destruct (execute_each after (Some (<[k := r]> res0), ran.1.1, ran.1.2))
      as [[[res|] d2] w2]; cbn [fst snd fmap option_fmap option_map] in *;
      [|discriminate Hb].
    injection Hb as <-. cbn [results gpio_states memory_free timestamp].
    assert (Hk : res !! k = Some r).
    { destruct (Hrest res eq_refl k) as [_ Hkeep].
      rewrite Hkeep by tauto. apply lookup_insert_eq. }
    rewrite Hk. split; [reflexivity|]. split; [eauto|].
    split; [|auto].
    intros j Hj. destruct (Hwhole res eq_refl j) as [_ Hkeep].
    rewrite Hkeep; [apply lookup_empty|].
    intros [Hen Hreg]. apply Hj. unfold executed. apply elem_of_filter.
    split; [exact Hreg|apply order_lists, Hen].
Qed.

End Batch.

(** A world that is a clock; a script that raises and one that waits. *)
Definition toy_exec : string -> unit -> Z -> unit * Z * ending :=
  fun text _ t =>
    if String.eqb text "raise" then (tt, t + 1, Raised "boom") else (tt, t + 10, Completed).

Definition toy_alarm : script :=
  {| name := "Temperature Alarm";
     description := "Temperature monitoring with GPIO alarm output";
     enabled := true; code := "raise" |}.

Definition toy_engine : engine :=
  {| scripts := {["temp_alarm"%string := toy_alarm]};
     enabled_scripts := {["temp_alarm"%string]} |}.

Lemma listing_lists (X : gset string) (k : string) : k ∈ elements X <-> k ∈ X.
Proof. apply elem_of_elements. Qed.

Lemma listing_once (X : gset string) : NoDup (elements X).
Proof. apply NoDup_elements. Qed.

Lemma toy_order : elements (enabled_scripts toy_engine) = [] ++ ["temp_alarm"%string].
Proof. exact (elements_singleton (C := gset string) "temp_alarm"%string). Qed.

Lemma toy_alarm_registered : scripts toy_engine !! "temp_alarm"%string = Some toy_alarm.
Proof. exact (lookup_singleton_eq "temp_alarm"%string toy_alarm). Qed.

Lemma esp_batch_runs_every_enabled_script_witness :
  execute_script toy_exec (fun t => t) Z.sub "temp_alarm" tt toy_engine 0
  = (Some {| r_script_id := Some "temp_alarm"%string; r_success := false;
             r_error := Some "boom"%string; r_execution_time := Some 1 |}, tt, 1).
Proof.
  exact (proj1 (esp_batch_runs_every_enabled_script toy_exec (fun t => t) Z.sub
                  (fun _ => tt) (fun _ => 0) elements listing_lists listing_once
                  toy_engine tt 0 "temp_alarm" toy_alarm [] [] ∅ tt 0
                  toy_order toy_alarm_registered eq_refl)).
Defined.

End ESP32Props.

(** ** The polling task of the ESP-32: many cycles *)

Module BridgeTask.
Import ModbusRTU ESP32PLCBridge.

Section Task.
Context {R : Type}.
Variable script_engine : option (plc_data R -> option R).

(** One cycle of [plc_polling_task]: what the line answers in it, and the
    time. *)
Definition cycle : Type := uart * Z.

(** The cycles of [plc_polling_task], one call of [poll_plc_data] each.
    [modbus] says whether [__init__] could open the UART: if not,
    [self.modbus] is [None] in every cycle.  A cycle in which the scripts
    raise an exception that ends the task is the last one, and leaves the
    [plc_data] as a cycle does whose scripts raise an [Exception]. *)
Definition plc_polling_task (modbus : bool) (cycles : list cycle)
    (self : plc_data R) : plc_data R :=
  fold_left
    (fun s c =>
       (poll_plc_data (if modbus then Some c.1 else None) script_engine c.2 s).1)
    cycles self.

(** No read of the cycle returned a non-empty list. *)
Definition fruitless (c : cycle) : bool :=
  negb (truthy (BridgePoll.inputs c.1) || truthy (BridgePoll.coils c.1)
        || truthy (BridgePoll.registers c.1)).

Lemma plc_polling_task_app (modbus : bool) (cycles : list cycle) (c : cycle)
    (self : plc_data R) :
  plc_polling_task modbus (cycles ++ [c]) self
  = (poll_plc_data (if modbus then Some c.1 else None) script_engine c.2
       (plc_polling_task modbus cycles self)).1.
Proof. unfold plc_polling_task. rewrite fold_left_app. reflexivity. Qed.

(** X29.  Over any number of polling cycles of a bridge that has its
    UART, [communication_errors] grows by the number of cycles in which
    no read returned a non-empty list, and by nothing else; [connected]
    is true afterwards exactly when it was true before or the inputs were
    read in one of the cycles, so the task never reports the loss of a PLC
    it once reached; [last_update] is the time of the last cycle.  Over
    any number of cycles of a bridge without the UART, the [plc_data] does
    not change: no error is counted and [last_update] is not stamped. *)
Theorem polling_task_counts_and_latches (cycles : list cycle) (self : plc_data R) :
  (communication_errors (plc_polling_task true cycles self)
   = communication_errors self + Z.of_nat (length (List.filter fruitless cycles))
   /\ connected (plc_polling_task true cycles self)
      = connected self || existsb (fun c => truthy (BridgePoll.inputs c.1)) cycles
   /\ last_update (plc_polling_task true cycles self)
      = List.last (last_update self :: map snd cycles) 0)
  /\ plc_polling_task false cycles self = self.
Proof.
  split.
  - induction cycles as [|c cycles (IH1 & IH2 & IH3)] using rev_ind.
    + cbn. rewrite orb_false_r. repeat split; lia.
    + rewrite plc_polling_task_app.
      pose proof (BridgePoll.communication_errors_spec c.1 script_engine c.2
                    (plc_polling_task true cycles self)) as He.
      pose proof (BridgePoll.last_update_spec c.1 script_engine c.2
                    (plc_polling_task true cycles self)) as Hl.
      unfold BridgePoll.after in He, Hl.
      rewrite He, Hl, (BridgeMore.connected_spec c.1 script_engine c.2 _).
      rewrite IH1, IH2. split; [|split].
      * rewrite List.filter_app, length_app. cbn [List.filter]. unfold fruitless.
        destruct (truthy (BridgePoll.inputs c.1) || truthy (BridgePoll.coils c.1)
                  || truthy (BridgePoll.registers c.1)); cbn [negb length]; lia.
      * rewrite existsb_app. cbn [existsb]. rewrite orb_false_r, orb_assoc.
        reflexivity.
      * rewrite map_app. cbn [map]. rewrite app_comm_cons, List.last_last.
        reflexivity.
  - induction cycles as [|c cycles IH] using rev_ind; [reflexivity|].
    rewrite plc_polling_task_app, IH. reflexivity.
Qed.

End Task.

End BridgeTask.

(** ** The serial port the configuration settles on *)

Module ConfigProps.
Import Config.

(** X30.  [_auto_detect_serial_port] leaves a configured port that exists
    alone, and leaves any port alone when no pattern matches; otherwise it
    takes the first match of the first pattern that has one, so that a
    USB adapter wins over the UART of the board.  When there is any port,
    the port it settles on is one of them, and detecting again changes
    nothing. *)
Theorem auto_detected_port_exists (glob : string -> list string) (port : string) :
  (port ∈ flat_map glob port_patterns \/ flat_map glob port_patterns = [] ->
   _auto_detect_serial_port glob port = port)
  /\ (flat_map glob port_patterns ≠ [] ->
      _auto_detect_serial_port glob port ∈ flat_map glob port_patterns)
  /\ (port ∉ flat_map glob port_patterns ->
      forall before first rest,
        port_patterns = before ++ first :: rest ->
        Forall (fun pattern => glob pattern = []) before ->
        forall found others, glob first = found :: others ->
        _auto_detect_serial_port glob port = found)
  /\ _auto_detect_serial_port glob (_auto_detect_serial_port glob port)
     = _auto_detect_serial_port glob port.
Proof.
  unfold _auto_detect_serial_port.
  assert (Hfirst : forall before first rest found others,
            port_patterns = before ++ first :: rest ->
            Forall (fun pattern => glob pattern = []) before ->
            glob first = found :: others ->
            exists tail, flat_map glob port_patterns = found :: tail).
  { intros before first rest found others -> Hnone Hfound.
    rewrite flat_map_app. cbn [flat_map]. rewrite Hfound.
    assert (Hnil : flat_map glob before = []).
    { induction Hnone as [|p ps Hp _ IH]; [reflexivity|].
      cbn [flat_map]. rewrite Hp, IH. reflexivity. }
    rewrite Hnil. cbn. eauto. }
  destruct (flat_map glob port_patterns) as [|p ports] eqn:Hports.
  - split; [auto|]. split; [intros H; contradiction|]. split; [|reflexivity].
    intros _ before first rest Hsplit Hnone found others Hfound.
    destruct (Hfirst _ _ _ _ _ Hsplit Hnone Hfound) as [tail [=]].
  - split; [|split; [|split]].
    + intros [Hin|[=]]. rewrite bool_decide_eq_true_2 by exact Hin. reflexivity.
    + intros _. destruct (decide (port ∈ p :: ports)) as [Hin|Hout].
      * rewrite bool_decide_eq_true_2 by exact Hin. exact Hin.
      * rewrite bool_decide_eq_false_2 by exact Hout. apply list_elem_of_here.
    + intros Hout before first rest Hsplit Hnone found others Hfound.
      rewrite bool_decide_eq_false_2 by exact Hout.
      destruct (Hfirst _ _ _ _ _ Hsplit Hnone Hfound) as [tail [= -> _]].
      reflexivity.
    + destruct (decide (port ∈ p :: ports)) as [Hin|Hout].
      * rewrite (bool_decide_eq_true_2 _ Hin). cbv iota.
        rewrite (bool_decide_eq_true_2 _ Hin). reflexivity.
      * rewrite (bool_decide_eq_false_2 _ Hout). cbv iota.
        rewrite bool_decide_eq_true_2 by apply list_elem_of_here. reflexivity.
Qed.

End ConfigProps.
